(** * simple-shell.c: a shallow embedding and its verified properties

    The development follows the layout of [simple-shell.c]:

    - the memory the program works on (its three line buffers, the [args]
      array of [main], the static pointer of [strtok]);
    - the part of the operating system the program talks to (descriptor
      table, files, [fork]/[exec]/[wait]), as a deterministic state
      machine that logs every system call it serves;
    - the functions of the source, one definition each, under their names:
      [splitArgs], [forkInto], [redirect], [redirectToFile],
      [forkAndPipeInto], [interpretArgs] and the body of the loop of [main];
    - the properties, claim by claim, and then further properties of the
      same functions.

    Conventions of the model:

    - a [char] array is the list of its bytes; a [char*] is a buffer name
      and an offset, [NULL] is [None]; the C string at a pointer is read up
      to the first NUL byte;
    - [line_cpy], the scratch copy of [splitArgs], is an array of the frame
      of [splitArgs], and the tokens handed to [main] point into it: the
      program reads them after [splitArgs] has returned. The model keeps
      the bytes of that frame as [splitArgs] left them. What a function is
      given is therefore stated of the memory at its call; what it reads
      later holds of a run as far as no call in between has reached the
      bytes of the token;
    - an [int] descriptor is a [Z]; [-1] is the failure value;
    - [fork] returns what the kernel answers to the process being followed:
      the answers are a script held by the state, so that every process of
      the tree (the shell, its child, the grandchild of a pipe) is one run
      of the same definitions;
    - [wait(NULL)] returns when some child of the process has ended,
      whichever it is, and the program reads nothing of its answer: the
      model records the call, and the properties speak of the call;
    - a system call fails for the reasons the state holds: a descriptor
      that is not open, a file that is missing or may not be read or
      written, a descriptor table that is full, a program that is not
      found, a [fork] the kernel refuses. The files of the state are those
      of the user who runs the shell, who is not the superuser: the owner's
      permission bits decide, paths have no directories and no bit is
      masked when a file is made. The properties of [redirectToFile] are
      stated for whatever [open] and [creat] answer;
    - the input is the lines the operator types, each ended by a newline,
      and then its end: [fgets] stores at most [BUFSIZ - 1] bytes of a
      line, and nothing at the end of the input;
    - outside the model: [calloc] returning [NULL], and what is written to
      standard output ([printf], [fflush]). *)

From stdpp Require Import gmap strings list fin_maps.
From Stdlib Require Import Ascii String ZArith Lia.

Open Scope string_scope.
Open Scope list_scope.
Open Scope Z_scope.
Open Scope nat_scope.

(** ** Constants of the source *)

Definition MAX_ARG : nat := 40.
Definition BUFSIZ : nat := 8 * 1024.

Definition STDIN_FILENO : Z := 0.
Definition STDOUT_FILENO : Z := 1.

Definition S_IRUSR : Z := 256. (* 0400 *)
Definition S_IWUSR : Z := 128. (* 0200 *)

Definition NUL : ascii := "000"%char.
Definition SPACE : ascii := " "%char.
Definition NEWLINE : ascii := "010"%char.

(** ** Memory *)

Inductive buf := LineBuf | LastLineBuf | LineCpy.

#[global] Instance buf_eq_dec : EqDecision buf.
Proof. solve_decision. Defined.

(** A [char*]: a buffer and an offset into it. *)
Abbreviation ptr := (buf * nat)%type (only parsing).

(** ** What the program reports on [stderr]

    One constructor per [fprintf(stderr, ...)] of the source, named after
    the error it stands for. *)
Inductive message :=
| TokenLimitExceeded            (* "Command exceeds the argument limit!..." *)
| SpawnFailure                  (* "Failed to fork process" *)
| ProgramNotFound (prog : option string) (* "Chould not find a program named %s" *)
| RedirectFailure               (* "Failed to redirect input/output." *)
| MissingPath                   (* "Please specify a file to redirect into!" *)
| FileOpenFailure (path : string) (* "Failed to open file %s!" and "Failed to read/create file %s!" *)
| PipeFailure                   (* "Failed to establish a pipe between the processes!" *)
| DuplicateRedirect             (* "Multiple redirects in a single command unsupported!" *)
| DuplicatePipe                 (* "Multiple pipes in a single command unsupported!" *)
| EmptyCommand                  (* "Please enter a command!" *)
| NoHistory.                    (* "No commands in history" *)

(** ** The operating system, as seen by one process *)

(** What a descriptor refers to. *)
Inductive ofile :=
| Terminal (name : string)
| FileRead (path : string)        (* opened with O_RDONLY *)
| FileWrite (path : string)       (* opened by creat: O_WRONLY|O_CREAT|O_TRUNC *)
| PipeRead (id : nat)
| PipeWrite (id : nat).

(** A regular file: permission bits and contents. *)
Record file := File { f_mode : Z; f_data : string }.

(** What [fork] returns. *)
Inductive fork_ret :=
| ForkFailed                      (* -1 *)
| InChild                         (* 0 *)
| InParent (pid : Z).             (* the child's pid *)

(** The system calls, with their arguments and results, in program order. *)
Inductive event :=
| Stderr (m : message)
| SysFork (r : fork_ret)
| SysWait
| SysExecvp (prog : string) (argv : list string) (found : bool)
| SysExeclp (prog : string) (argv : list string) (found : bool)
| SysPipe (r : option (Z * Z))
| SysOpen (path : string) (mode : Z) (r : Z)      (* open(path, O_RDONLY, mode) *)
| SysCreat (path : string) (mode : Z) (r : Z)
| SysDup (fd : Z) (r : Z)
| SysDup2 (src dst : Z) (r : Z)
| SysClose (fd : Z).

#[global] Instance message_eq_dec : EqDecision message.
Proof. solve_decision. Defined.
#[global] Instance ofile_eq_dec : EqDecision ofile.
Proof. solve_decision. Defined.
#[global] Instance file_eq_dec : EqDecision file.
Proof. solve_decision. Defined.
#[global] Instance fork_ret_eq_dec : EqDecision fork_ret.
Proof. solve_decision. Defined.
#[global] Instance event_eq_dec : EqDecision event.
Proof. solve_decision. Defined.

(** ** The state of a process *)

Record shell := Shell {
  line_buf : list ascii;          (* char line_buf[BUFSIZ], of main *)
  last_line_buf : list ascii;     (* char last_line_buf[BUFSIZ], of main *)
  line_cpy : list ascii;          (* char line_cpy[BUFSIZ], of splitArgs *)
  args : list (option ptr);       (* char* args[MAX_ARG], of main *)
  olds : option ptr;              (* the saved pointer of strtok *)
  fds : gmap Z ofile;             (* the descriptor table *)
  fd_limit : nat;                 (* descriptors are below this bound *)
  fs : gmap string file;          (* the files *)
  programs : gset string;         (* the programs execvp can find *)
  forks : list fork_ret;          (* the kernel's answers to fork *)
  trace : list event              (* the calls made so far, oldest first *)
}.

Definition set_buffer (b : buf) (l : list ascii) (s : shell) : shell :=
  match b with
  | LineBuf =>
      Shell l (last_line_buf s) (line_cpy s) (args s) (olds s) (fds s)
        (fd_limit s) (fs s) (programs s) (forks s) (trace s)
  | LastLineBuf =>
      Shell (line_buf s) l (line_cpy s) (args s) (olds s) (fds s)
        (fd_limit s) (fs s) (programs s) (forks s) (trace s)
  | LineCpy =>
      Shell (line_buf s) (last_line_buf s) l (args s) (olds s) (fds s)
        (fd_limit s) (fs s) (programs s) (forks s) (trace s)
  end.

Definition set_args (a : list (option ptr)) (s : shell) : shell :=
  Shell (line_buf s) (last_line_buf s) (line_cpy s) a (olds s) (fds s)
    (fd_limit s) (fs s) (programs s) (forks s) (trace s).

Definition set_olds (o : option ptr) (s : shell) : shell :=
  Shell (line_buf s) (last_line_buf s) (line_cpy s) (args s) o (fds s)
    (fd_limit s) (fs s) (programs s) (forks s) (trace s).

Definition set_fds (t : gmap Z ofile) (s : shell) : shell :=
  Shell (line_buf s) (last_line_buf s) (line_cpy s) (args s) (olds s) t
    (fd_limit s) (fs s) (programs s) (forks s) (trace s).

Definition set_fs (f : gmap string file) (s : shell) : shell :=
  Shell (line_buf s) (last_line_buf s) (line_cpy s) (args s) (olds s) (fds s)
    (fd_limit s) f (programs s) (forks s) (trace s).

Definition set_forks (k : list fork_ret) (s : shell) : shell :=
  Shell (line_buf s) (last_line_buf s) (line_cpy s) (args s) (olds s) (fds s)
    (fd_limit s) (fs s) (programs s) k (trace s).

Definition log (e : event) (s : shell) : shell :=
  Shell (line_buf s) (last_line_buf s) (line_cpy s) (args s) (olds s) (fds s)
    (fd_limit s) (fs s) (programs s) (forks s) (trace s ++ [e]).

Definition buffer (s : shell) (b : buf) : list ascii :=
  match b with
  | LineBuf => line_buf s
  | LastLineBuf => last_line_buf s
  | LineCpy => line_cpy s
  end.

(** ** C strings *)

Definition is_nul (c : ascii) : bool := Ascii.eqb c NUL.

(** The C string that starts a list of bytes: the bytes before the first
    NUL. *)
Fixpoint cstring (l : list ascii) : string :=
  match l with
  | [] => EmptyString
  | c :: l' => if is_nul c then EmptyString else String c (cstring l')
  end.

(** [*p], the byte at a pointer (NUL beyond the bytes the model holds). *)
Definition char_at (s : shell) (p : ptr) : ascii :=
  default NUL (buffer s p.1 !! p.2).

(** The C string at a pointer. *)
Definition load_str (s : shell) (p : ptr) : string :=
  cstring (drop p.2 (buffer s p.1)).

(** [strcpy(dst, src)]: the bytes of [src] and a NUL, over the first bytes
    of [dst]; the bytes of [dst] behind them stay. *)
Definition strcpy_bytes (dst : list ascii) (src : string) : list ascii :=
  list_ascii_of_string src ++ NUL :: drop (S (String.length src)) dst.

Definition strcpy (dst : buf) (src : string) (s : shell) : shell :=
  set_buffer dst (strcpy_bytes (buffer s dst) src) s.

(** Is [c] one of the bytes of the string [delim]? *)
Fixpoint is_delim (delim : string) (c : ascii) : bool :=
  match delim with
  | EmptyString => false
  | String d delim' => Ascii.eqb c d || is_delim delim' c
  end.

(** [strspn]: how many leading bytes are delimiters. *)
Fixpoint strspn (l : list ascii) (delim : string) : nat :=
  match l with
  | c :: l' => if is_delim delim c then S (strspn l' delim) else 0
  | [] => 0
  end.

(** [strcspn]: how many leading bytes are neither NUL nor a delimiter. *)
Fixpoint strcspn (l : list ascii) (delim : string) : nat :=
  match l with
  | c :: l' => if is_nul c || is_delim delim c then 0 else S (strcspn l' delim)
  | [] => 0
  end.

(** [strtok(str, delim)], as the C library has it: skip the delimiters,
    stop at the end of the string, else cut the token off with a NUL
    written over the delimiter behind it, and remember where to go on. *)
Definition strtok (str : option ptr) (delim : string) (s : shell)
  : option ptr * shell :=
  match (match str with Some p => Some p | None => olds s end) with
  | None => (None, s)
  | Some (b, i) =>
      let start := i + strspn (drop i (buffer s b)) delim in
      if is_nul (char_at s (b, start)) then
        (None, set_olds (Some (b, start)) s)
      else
        let stop := start + strcspn (drop start (buffer s b)) delim in
        if is_nul (char_at s (b, stop)) then
          (Some (b, start), set_olds (Some (b, stop)) s)
        else
          (Some (b, start),
           set_olds (Some (b, S stop))
             (set_buffer b (<[stop := NUL]> (buffer s b)) s))
  end.

(** ** splitArgs *)

(** The loop of [splitArgs]. Every turn either stores a token and counts it
    or leaves the loop, so [MAX_ARG] turns are all it can take; [fuel]
    bounds the turns. *)
Fixpoint splitArgs_loop (fuel : nat) (token : option ptr) (count : nat)
    (s : shell) : nat * shell :=
  match token with
  | None => (count, s)
  | Some tok =>
      if bool_decide (count < MAX_ARG - 1) then
        match fuel with
        | 0 => (count, s)
        | S fuel' =>
            let s1 := set_args (<[count := Some tok]> (args s)) s in
            let '(token', s2) := strtok None " " s1 in
            splitArgs_loop fuel' token' (S count) s2
        end
      else
        (count, log (Stderr TokenLimitExceeded) s)
  end.

Definition splitArgs (line_src : ptr) (s : shell) : nat * shell :=
  let s1 := strcpy LineCpy (load_str s line_src) s in
  let '(token, s2) := strtok (Some (LineCpy, 0)) " " s1 in
  splitArgs_loop MAX_ARG token 0 s2.

(** ** Processes: a state monad with two ways of not returning *)

(** A call that does not come back: the image of the process was replaced
    by [exec], or the process dereferenced [NULL]. *)
Inductive halt := Replaced | Fault.

Inductive res (A : Type) :=
| Ok (a : A) (s : shell)
| Halt (h : halt) (s : shell).
Arguments Ok {A} a s.
Arguments Halt {A} h s.

Definition M (A : Type) : Type := shell → res A.

#[global] Instance M_ret : MRet M := λ A a s, Ok a s.
#[global] Instance M_bind : MBind M := λ A B f m s,
  match m s with
  | Ok a s' => f a s'
  | Halt h s' => Halt h s'
  end.

Definition gets {A} (f : shell → A) : M A := λ s, Ok (f s) s.
Definition modify (f : shell → shell) : M unit := λ s, Ok tt (f s).
Definition lift {A} (f : shell → A * shell) : M A :=
  λ s, let '(a, s') := f s in Ok a s'.
Definition fault {A} : M A := λ s, Halt Fault s.

(** The state a computation ends in, however it ends. *)
Definition final {A} (r : res A) : shell :=
  match r with Ok _ s => s | Halt _ s => s end.

(** The events a computation has added to the trace it started from. *)
Definition added (s : shell) {A} (r : res A) : list event :=
  drop (List.length (trace s)) (trace (final r)).

Definition fprintf_stderr (m : message) : M unit := modify (log (Stderr m)).

(** ** System calls *)

(** The lowest descriptor that is free, if the table has room. *)
Definition lowest_free (t : gmap Z ofile) (limit : nat) : option Z :=
  Z.of_nat <$>
    List.find (λ n, bool_decide (t !! Z.of_nat n = None)) (seq 0 limit).

(** The permission bits of the owner: the process is run by the owner of
    the files, who is not the superuser. *)
Definition owner_may_read (f : file) : bool := Z.testbit (f_mode f) 8.
Definition owner_may_write (f : file) : bool := Z.testbit (f_mode f) 7.

(** [open(path, O_RDONLY, mode)]: the file must exist and be readable. *)
Definition sys_open (path : string) (mode : Z) : M Z := λ s,
  match fs s !! path, lowest_free (fds s) (fd_limit s) with
  | Some f, Some fd =>
      if owner_may_read f then
        Ok fd (log (SysOpen path mode fd)
                 (set_fds (<[fd := FileRead path]> (fds s)) s))
      else Ok (-1)%Z (log (SysOpen path mode (-1)) s)
  | _, _ => Ok (-1)%Z (log (SysOpen path mode (-1)) s)
  end.

(** [creat(path, mode)]: an existing file must be writable and is emptied,
    a missing one is made with the permission bits [mode]. *)
Definition sys_creat (path : string) (mode : Z) : M Z := λ s,
  match lowest_free (fds s) (fd_limit s) with
  | Some fd =>
      let made (f : file) :=
        Ok fd (log (SysCreat path mode fd)
                 (set_fs (<[path := f]> (fs s))
                    (set_fds (<[fd := FileWrite path]> (fds s)) s))) in
      match fs s !! path with
      | Some f =>
          if owner_may_write f then made (File (f_mode f) EmptyString)
          else Ok (-1)%Z (log (SysCreat path mode (-1)) s)
      | None => made (File mode EmptyString)
      end
  | None => Ok (-1)%Z (log (SysCreat path mode (-1)) s)
  end.

(** What a descriptor refers to; a negative number is no descriptor. *)
Definition fd_lookup (s : shell) (fd : Z) : option ofile :=
  if bool_decide (0 ≤ fd)%Z then fds s !! fd else None.

(** [dup(fd)]: the lowest free descriptor, made to refer to what [fd]
    refers to. *)
Definition sys_dup (fd : Z) : M Z := λ s,
  match fd_lookup s fd, lowest_free (fds s) (fd_limit s) with
  | Some o, Some fd' =>
      Ok fd' (log (SysDup fd fd') (set_fds (<[fd' := o]> (fds s)) s))
  | _, _ => Ok (-1)%Z (log (SysDup fd (-1)) s)
  end.

(** [dup2(src, dst)]: [dst] is made to refer to what [src] refers to;
    fails, leaving [dst] alone, when [src] is not open. *)
Definition sys_dup2 (src dst : Z) : M Z := λ s,
  match fd_lookup s src with
  | Some o =>
      if bool_decide (0 ≤ dst)%Z then
        Ok dst (log (SysDup2 src dst dst) (set_fds (<[dst := o]> (fds s)) s))
      else Ok (-1)%Z (log (SysDup2 src dst (-1)) s)
  | None => Ok (-1)%Z (log (SysDup2 src dst (-1)) s)
  end.

Definition sys_close (fd : Z) : M unit := λ s,
  if bool_decide (0 ≤ fd)%Z then
    Ok tt (log (SysClose fd) (set_fds (delete fd (fds s)) s))
  else Ok tt (log (SysClose fd) s).

(** [pipe(pipefd)]: two fresh descriptors, the read end and the write
    end; [None] stands for the result -1. *)
Definition sys_pipe : M (option (Z * Z)) := λ s,
  let id := List.length (trace s) in
  match lowest_free (fds s) (fd_limit s) with
  | Some r =>
      match lowest_free (<[r := PipeRead id]> (fds s)) (fd_limit s) with
      | Some w =>
          Ok (Some (r, w))
            (log (SysPipe (Some (r, w)))
               (set_fds (<[w := PipeWrite id]> (<[r := PipeRead id]> (fds s))) s))
      | None => Ok None (log (SysPipe None) s)
      end
  | None => Ok None (log (SysPipe None) s)
  end.

(** [fork()]: the next answer of the kernel; it refuses when it has none
    left. *)
Definition sys_fork : M fork_ret := λ s,
  match forks s with
  | [] => Ok ForkFailed (log (SysFork ForkFailed) s)
  | r :: k => Ok r (log (SysFork r) (set_forks k s))
  end.

(** [wait(NULL)]: returns when a child of the process has ended, whichever
    child it is; the program reads neither the status nor the result. *)
Definition sys_wait : M unit := modify (log SysWait).

(** [a[i]] for an array of pointers. *)
Definition at_index (a : list (option ptr)) (i : nat) : option ptr :=
  default None (a !! i).

(** The strings of a NULL-terminated argument vector. *)
Fixpoint argv_strings (s : shell) (argv : list (option ptr)) : list string :=
  match argv with
  | Some p :: argv' => load_str s p :: argv_strings s argv'
  | _ => []
  end.

(** [execvp(file, argv)] and [execlp(file, arg0, NULL)]: on success the
    process runs another program and the call never returns; -1 when no
    such program is found. The C library reads [*file] first. *)
Definition sys_exec (call : string → list string → bool → event)
    (file : option ptr) (argv : list (option ptr)) : M Z :=
  λ s,
  match file with
  | None => Halt Fault s
  | Some p =>
      let prog := load_str s p in
      if bool_decide (prog ∈ programs s) then
        Halt Replaced (log (call prog (argv_strings s argv) true) s)
      else
        Ok (-1)%Z (log (call prog (argv_strings s argv) false) s)
  end.

Definition execvp (file : option ptr) (argv : list (option ptr)) : M Z :=
  sys_exec SysExecvp file argv.
Definition execlp (file arg0 : option ptr) : M Z :=
  sys_exec SysExeclp file [arg0].

(** The [%s] of [fprintf] for a pointer: the string, or "(null)". *)
Definition name_of (a : option ptr) : M (option string) :=
  gets (λ s, load_str s <$> a).

(** ** forkInto *)

Definition forkInto (args : list (option ptr)) (_wait : bool) : M unit :=
  pid ← sys_fork;
  match pid with
  | ForkFailed => fprintf_stderr SpawnFailure
  | InChild =>
      r ← execvp (at_index args 0) args;
      (if bool_decide (r = -1)%Z then
         n ← name_of (at_index args 0); fprintf_stderr (ProgramNotFound n)
       else mret tt)
      (* fflush(stdout); fflush(stderr); *)
  | InParent _ =>
      if _wait then sys_wait else mret tt
  end.

(** ** redirect

    The [bool* error] of the source is a value passed in and returned. *)
Definition redirect (source dest : Z) (error : bool) : M (Z * bool) :=
  std_tmp_copy ← sys_dup dest;
  r ← sys_dup2 source dest;
  if bool_decide (r = -1)%Z then
    fprintf_stderr RedirectFailure;; mret (std_tmp_copy, true)
  else mret (std_tmp_copy, error).

(** ** redirectToFile *)

Definition redirectToFile (file : option ptr) (dest : Z) (error : bool)
  : M (Z * bool) :=
  let std_tmp_copy := (-1)%Z in
  match file with
  | None =>
      fprintf_stderr MissingPath;; mret (std_tmp_copy, true)
  | Some p =>
      path ← gets (λ s, load_str s p);
      if bool_decide (dest = STDIN_FILENO) then
        fd ← sys_open path (Z.lor S_IRUSR S_IWUSR);
        if bool_decide (fd = -1)%Z then
          fprintf_stderr (FileOpenFailure path);; mret (std_tmp_copy, true)
        else
          '(std_tmp_copy, error) ← redirect fd dest error;
          sys_close fd;;
          mret (std_tmp_copy, error)
      else
        fd ← sys_creat path (Z.lor S_IRUSR S_IWUSR);
        if bool_decide (fd = -1)%Z then
          fprintf_stderr (FileOpenFailure path);; mret (std_tmp_copy, true)
        else
          '(std_tmp_copy, error) ← redirect fd dest error;
          sys_close fd;;
          mret (std_tmp_copy, error)
  end.

(** ** forkAndPipeInto *)

Definition forkAndPipeInto (args : list (option ptr)) (dest_prog : option ptr)
    (_wait : bool) : M unit :=
  pid ← sys_fork;
  let error := false in
  match pid with
  | ForkFailed => fprintf_stderr SpawnFailure
  | InChild =>
      pipefd ← sys_pipe;
      match pipefd with
      | None => fprintf_stderr PipeFailure (* return *)
      | Some (pipefd0, pipefd1) =>
          piped_pid ← sys_fork;
          match piped_pid with
          | ForkFailed => fprintf_stderr SpawnFailure
          | InChild =>
              sys_close pipefd0;;
              '(stdout_reset, error) ← redirect pipefd1 STDOUT_FILENO error;
              if negb error then
                r ← execvp (at_index args 0) args;
                (if bool_decide (r = -1)%Z then
                   n ← name_of (at_index args 0);
                   fprintf_stderr (ProgramNotFound n)
                 else mret tt);;
                _ ← sys_dup2 stdout_reset STDOUT_FILENO; mret tt
              else mret tt
          | InParent _ =>
              sys_close pipefd1;;
              sys_wait;;
              '(stdin_reset, error) ← redirect pipefd0 STDIN_FILENO error;
              if negb error then
                r ← execlp dest_prog dest_prog;
                (if bool_decide (r = -1)%Z then
                   n ← name_of (at_index args 0);
                   fprintf_stderr (ProgramNotFound n)
                 else mret tt);;
                _ ← sys_dup2 stdin_reset STDIN_FILENO; mret tt
              else mret tt
              (* fflush(stdout); fflush(stderr); *)
          end
      end
  | InParent _ =>
      if _wait then sys_wait else mret tt
  end.

(** ** interpretArgs *)

(** The local variables of [interpretArgs]. [redirected_from] and
    [redirected_to] have no initial value in the source; they are read
    only after [redirected] has been set, which assigns both. *)
Record locals := Locals {
  exec_args : list (option ptr);
  exec_arg_count : nat;
  wait : bool;
  error : bool;
  redirected : bool;
  pipe : bool;
  redirected_from : Z;
  redirected_to : Z;
  pipe_prog : option ptr
}.

(** [calloc(arg_count + 1, sizeof(char* ))]; [wait = true], the other
    flags [false], [pipe_prog = NULL]. *)
Definition locals_init (arg_count : nat) : locals :=
  Locals (replicate (arg_count + 1) None) 0 true false false false 0 0 None.

Definition set_error (l : locals) : locals :=
  Locals (exec_args l) (exec_arg_count l) (wait l) true (redirected l)
    (pipe l) (redirected_from l) (redirected_to l) (pipe_prog l).

Definition set_redirect (to from : Z) (err : bool) (l : locals) : locals :=
  Locals (exec_args l) (exec_arg_count l) (wait l) err true
    (pipe l) from to (pipe_prog l).

Definition set_pipe (prog : option ptr) (l : locals) : locals :=
  Locals (exec_args l) (exec_arg_count l) (wait l) (error l) (redirected l)
    true (redirected_from l) (redirected_to l) prog.

Definition clear_wait (l : locals) : locals :=
  Locals (exec_args l) (exec_arg_count l) false (error l) (redirected l)
    (pipe l) (redirected_from l) (redirected_to l) (pipe_prog l).

Definition push_exec_arg (a : option ptr) (l : locals) : locals :=
  Locals (<[exec_arg_count l := a]> (exec_args l)) (S (exec_arg_count l))
    (wait l) (error l) (redirected l) (pipe l) (redirected_from l)
    (redirected_to l) (pipe_prog l).

Definition is_char (c : ascii) (d : string) : bool :=
  match d with
  | String d' _ => Ascii.eqb c d'
  | EmptyString => false
  end.

(** The body of the [for] loop, at the cursor [arg]: the cursor it leaves
    (before the [++arg] of the loop header) and the locals. *)
Definition interpretArgs_body (args : list (option ptr)) (arg : nat)
    (l : locals) : M (nat * locals) :=
  match at_index args arg with
  | None => fault
  | Some p =>
      c ← gets (λ s, char_at s p);
      if is_char c "<" || is_char c ">" then
        if redirected l then
          fprintf_stderr DuplicateRedirect;; mret (arg, set_error l)
        else
          let redirected_to :=
            if is_char c "<" then STDIN_FILENO else STDOUT_FILENO in
          '(redirected_from, err) ←
            redirectToFile (at_index args (S arg)) redirected_to (error l);
          mret (S arg, set_redirect redirected_to redirected_from err l)
      else if is_char c "|" then
        if pipe l then
          fprintf_stderr DuplicatePipe;; mret (arg, set_error l)
        else
          mret (S arg, set_pipe (at_index args (S arg)) l)
      else if is_char c "&" then
        mret (arg, clear_wait l)
      else
        mret (arg, push_exec_arg (Some p) l)
  end.

(** The [for] loop. The cursor grows by one or two a turn, so [arg_count]
    turns are all the loop can take; [fuel] bounds the turns. *)
Fixpoint interpretArgs_loop (fuel : nat) (args : list (option ptr))
    (arg_count : nat) (arg : nat) (l : locals) : M locals :=
  if bool_decide (arg < arg_count) && negb (error l) then
    match fuel with
    | 0 => mret l
    | S fuel' =>
        '(arg', l') ← interpretArgs_body args arg l;
        interpretArgs_loop fuel' args arg_count (S arg') l'
    end
  else mret l.

(** What follows the loop: the command is run unless an error was found,
    then the redirected descriptor is put back. *)
Definition interpretArgs_finish (l : locals) : M unit :=
  (if negb (error l) then
     if pipe l then forkAndPipeInto (exec_args l) (pipe_prog l) (wait l)
     else forkInto (exec_args l) (wait l)
   else mret tt);;
  (* free(exec_args); *)
  if redirected l then
    _ ← sys_dup2 (redirected_from l) (redirected_to l);
    sys_close (redirected_from l)
  else mret tt.

Definition interpretArgs (args : list (option ptr)) (arg_count : nat)
  : M unit :=
  l ← interpretArgs_loop arg_count args arg_count 0 (locals_init arg_count);
  interpretArgs_finish l.

(** ** main *)

(** What [fgets] takes from the input: the bytes up to the first newline
    and that newline, and no more than [n] bytes. *)
Fixpoint read_line (n : nat) (input : string) : string :=
  match input, n with
  | String c rest, S n' =>
      if Ascii.eqb c NEWLINE then String c EmptyString
      else String c (read_line n' rest)
  | _, _ => EmptyString
  end.

(** [fgets(line_buf, BUFSIZ, stdin)] when the input holds the line the
    operator typed and its newline: at most [BUFSIZ - 1] bytes of it are
    stored, and a NUL behind them. *)
Definition fgets (line : string) : M unit :=
  modify (strcpy LineBuf
            (read_line (BUFSIZ - 1) (line ++ String NEWLINE EmptyString))).

(** [strrchr(s, c)]: the offset of the last [c] in a string. *)
Fixpoint strrchr (s : string) (c : ascii) : option nat :=
  match s with
  | EmptyString => None
  | String d s' =>
      match strrchr s' c with
      | Some i => Some (S i)
      | None => if Ascii.eqb d c then Some 0 else None
      end
  end.

(** [( *strrchr(line_buf, '\n')) = 0]. *)
Definition chomp : M unit := λ s,
  match strrchr (cstring (line_buf s)) NEWLINE with
  | None => Halt Fault s
  | Some i => Ok tt (set_buffer LineBuf (<[i := NUL]> (line_buf s)) s)
  end.

(** Lines 340 to 370, the turn once [fgets] has been called: the newline
    is cut off and the line in [line_buf] is served; [false] when the loop
    is left by [break]. *)
Definition serve_line : M bool :=
  chomp;;
  arg_count ← lift (splitArgs (LineBuf, 0));
  args0 ← gets (λ s, at_index (args s) 0);
  match args0 with
  | None => fprintf_stderr EmptyCommand;; mret true
  | Some p0 =>
      cmd ← gets (λ s, load_str s p0);
      if bool_decide (cmd = "") then
        fprintf_stderr EmptyCommand;; mret true
      else if bool_decide (cmd = "exit()") || bool_decide (cmd = "exit") then
        mret false
      else if bool_decide (cmd = "!!") then
        last ← gets (λ s, load_str s (LastLineBuf, 0));
        if bool_decide (String.length last = 0) then
          fprintf_stderr NoHistory;; mret true
        else
          arg_count ← lift (splitArgs (LastLineBuf, 0));
          a ← gets args;
          interpretArgs a arg_count;; mret true
      else
        line ← gets (λ s, load_str s (LineBuf, 0));
        modify (strcpy LastLineBuf line);;
        a ← gets args;
        interpretArgs a arg_count;; mret true
  end.

(** One turn of the [while (true)] loop of [main], for the line read. *)
Definition turn (line : string) : M bool :=
  (* printf("osh>"); fflush(stdout); *)
  fgets line;;
  serve_line.

(** The newlines of a string. *)
Fixpoint newlines (str : string) : nat :=
  match str with
  | EmptyString => 0
  | String c str' => (if Ascii.eqb c NEWLINE then 1 else 0) + newlines str'
  end.

(** The loop once the input has ended. [fgets] returns [NULL], which the
    program does not look at, and leaves [line_buf] as it is; line 340
    works on what the buffer holds. A turn that gets past line 340 has cut
    the string at its last newline, and with no newline left line 340
    faults: the turns that are left are at most the newlines of the
    string, and one more. [turns] counts the former, and is not used up by
    a turn that returns ([eof_loop_turns]). *)
Fixpoint eof_loop (turns : nat) : M unit :=
  serve_line ≫= λ go_on : bool,
    match turns with
    | S turns' => if go_on then eof_loop turns' else mret tt
    | 0 => mret tt
    end.

(** The loop, for the lines the operator types one after the other, and
    then the end of the input. *)
Fixpoint main_loop (lines : list string) : M unit :=
  match lines with
  | [] => λ s, eof_loop (newlines (cstring (line_buf s))) s
  | line :: lines' =>
      turn line ≫= λ go_on : bool,
        if go_on then main_loop lines' else mret tt
  end.

(** [main]: [line_buf] and [args] are cleared, [last_line_buf] is not. *)
Definition main (lines : list string) : M unit :=
  modify (set_buffer LineBuf (replicate BUFSIZ NUL));;
  modify (set_args (replicate MAX_ARG None));;
  main_loop lines.

(** ** The tokens of a line, in the words of the specification

    "Splits on runs of space characters": the line is cut at every space,
    and the empty pieces, which lie between the spaces of a run, are
    dropped. *)
Fixpoint fields (line : string) : list string :=
  match line with
  | EmptyString => [EmptyString]
  | String c line' =>
      if Ascii.eqb c SPACE then EmptyString :: fields line'
      else
        match fields line' with
        | w :: ws => String c w :: ws
        | [] => [String c EmptyString]
        end
  end.

Definition spec_split (line : string) : list string :=
  filter (λ w, w ≠ EmptyString) (fields line).

(** The first field of a line is put before the fields that follow. *)
Definition glue (w : string) (fs : list string) : list string :=
  match fs with
  | w' :: ws => (w ++ w')%string :: ws
  | [] => [w]
  end.

(** The tokens stored so far: [args] holds a pointer to each, in order,
    and each is a string of [line_cpy] that ends at or before [i]. *)
Definition stored (s : shell) (i : nat) (done : list string) : Prop :=
  ∀ k t, done !! k = Some t →
    ∃ q, args s !! k = Some (Some (LineCpy, q)) ∧
         cstring (drop q (line_cpy s)) = t ∧
         q + String.length t ≤ i.

(** The buffer [strtok] works on: that of its argument, or of the pointer
    it saved. *)
Definition tok_buf (str : option ptr) (s : shell) : option buf :=
  fst <$> (match str with Some p => Some p | None => olds s end).

(** What a process shares with the kernel, the trace apart. *)
Definition same_kernel (s s' : shell) : Prop :=
  fds s' = fds s ∧ fd_limit s' = fd_limit s ∧ fs s' = fs s ∧
  programs s' = programs s ∧ forks s' = forks s.

(** The memory of the process is what it was. *)
Definition same_memory (s s' : shell) : Prop :=
  line_buf s' = line_buf s ∧ last_line_buf s' = last_line_buf s ∧
  line_cpy s' = line_cpy s ∧ args s' = args s ∧ olds s' = olds s.

(** The events of the scan of the tokens: what [redirectToFile] and the
    two complaints about a second redirect or pipe leave in the trace. *)
Definition scan_event (e : event) : bool :=
  match e with
  | Stderr MissingPath | Stderr (FileOpenFailure _) | Stderr RedirectFailure
  | Stderr DuplicateRedirect | Stderr DuplicatePipe
  | SysOpen _ _ _ | SysCreat _ _ _ | SysDup _ _ | SysDup2 _ _ _
  | SysClose _ => true
  | _ => false
  end.

(** The two structural errors of the scan. *)
Definition structural (e : event) : bool :=
  match e with
  | Stderr DuplicateRedirect | Stderr DuplicatePipe => true
  | _ => false
  end.

Definition is_fork (e : event) : bool :=
  match e with SysFork _ => true | _ => false end.

(** No process was spawned: [fork] was not called. *)
Definition no_spawn (evs : list event) : Prop :=
  forallb (λ e, negb (is_fork e)) evs = true.

(** The events of a redirection that is not refused. *)
Definition quiet_event (e : event) : bool :=
  scan_event e && negb (structural e).

(** The events that are no structural error. *)
Definition plain_event (e : event) : bool := negb (structural e).

(** [s'] comes from [s] by system calls and reports that left [evs] in
    the trace, all of them events of the class [Q]: the memory of the
    process is untouched, a file differs only if [creat] was called on it,
    and the answers of [fork] are all there unless [fork] was called. *)
Definition steps (Q : event → bool) (s s' : shell) (evs : list event)
  : Prop :=
  trace s' = trace s ++ evs ∧
  forallb Q evs = true ∧
  same_memory s s' ∧
  fd_limit s' = fd_limit s ∧
  programs s' = programs s ∧
  (no_spawn evs → forks s' = forks s) ∧
  (∀ path, fs s' !! path ≠ fs s !! path →
     ∃ mode fd, SysCreat path mode fd ∈ evs ∧ fd ≠ (-1)%Z).

(** A computation that only takes such steps, from every state and however
    it ends; when it returns, [P] holds of its value and its events. *)
Definition traced {A} (Q : event → bool) (m : M A)
    (P : A → list event → Prop) : Prop :=
  ∀ s, ∃ evs,
    steps Q s (final (m s)) evs ∧
    match m s with
    | Ok a _ => P a evs
    | Halt _ _ => True
    end.

(** A structural error was reported. *)
Definition structural_error (evs : list event) : Prop :=
  Stderr DuplicateRedirect ∈ evs ∨ Stderr DuplicatePipe ∈ evs.

(** The first byte of a redirect token. *)
Definition redirect_char (c : ascii) : bool :=
  is_char c "<" || is_char c ">".

(** Standard input and standard output are open. *)
Definition std_open (s : shell) : Prop :=
  is_Some (fds s !! STDIN_FILENO) ∧ is_Some (fds s !! STDOUT_FILENO).

(** The descriptor table has two free entries: one for the file of a
    redirection, one for the copy [dup] makes. *)
Definition room_for_two (s : shell) : Prop :=
  ∃ a b : nat,
    a ≠ b ∧ a < fd_limit s ∧ b < fd_limit s ∧
    fds s !! Z.of_nat a = None ∧ fds s !! Z.of_nat b = None.

(** The process is the interpreter: [fork] never answers it as a child. *)
Definition never_child (s : shell) : Prop :=
  Forall (λ r, r ≠ InChild) (forks s).

(** The descriptor table during the scan, against the table [t0] the
    command started from: it is [t0], or [t0] with one of the standard
    descriptors redirected and its former target kept in
    [redirected_from]. *)
Definition restorable (t0 : gmap Z ofile) (l : locals) (t : gmap Z ofile)
  : Prop :=
  if redirected l then
    (redirected_from l = (-1)%Z ∧ t = t0) ∨
    (∃ o f,
       (0 ≤ redirected_to l)%Z ∧ (0 ≤ redirected_from l)%Z ∧
       redirected_from l ≠ redirected_to l ∧
       t0 !! redirected_to l = Some o ∧
       t0 !! redirected_from l = None ∧
       t = <[redirected_to l := f]> (<[redirected_from l := o]> t0))
  else t = t0.

(** A string without NUL bytes. *)
Definition nul_free (line : string) : bool :=
  forallb (λ c, negb (is_nul c)) (list_ascii_of_string line).

(** A line as the operator types it and [fgets] stores it whole: it holds
    no NUL byte and no newline, and with its newline it is no more than
    [BUFSIZ - 1] bytes. *)
Definition fits (line : string) : bool :=
  nul_free line &&
  forallb (λ c, negb (Ascii.eqb c NEWLINE)) (list_ascii_of_string line) &&
  Nat.ltb (String.length line) (BUFSIZ - 1).

(** The first byte of a control token. *)
Definition control_char (c : ascii) : bool :=
  is_char c "<" || is_char c ">" || is_char c "|" || is_char c "&".


(** ** A process to run the definitions on

    The state of a process when [main] is entered: the three buffers hold
    what the stack held ([stack], then zeros), the standard descriptors
    refer to the terminal, [ls] and [wc] can be found, [files] are the
    files and [answers] what [fork] will answer. *)
Definition pad (stack : string) : list ascii :=
  list_ascii_of_string stack ++ replicate (BUFSIZ - String.length stack) NUL.

Definition terminal : ofile := Terminal "tty".

Definition boot_with (table : gmap Z ofile) (limit : nat) (stack : string)
    (files : gmap string file) (answers : list fork_ret) : shell :=
  Shell (pad stack) (pad stack) (pad stack) (replicate MAX_ARG None) None
    table limit files {[ "ls"; "wc" ]} answers [].

Definition std_table : gmap Z ofile :=
  <[0%Z := terminal]> (<[1%Z := terminal]> (<[2%Z := terminal]> ∅)).

Definition boot (stack : string) (files : gmap string file)
    (answers : list fork_ret) : shell :=
  boot_with std_table 1024 stack files answers.

(** A file [f1] that holds data. *)
Definition one_file : gmap string file :=
  <["f1" := File 384 "data"]> ∅.

(** The process after [main] has read the lines [lines]. *)
Definition after (lines : list string) (s : shell) : shell :=
  final (main lines s).

(** A command discarded as a whole: when its scan stops at a structural
    error it has spawned nothing and left the files and the descriptors as
    they were. *)
Definition discarded_whole (args : list (option ptr)) (arg_count : nat)
    (s : shell) : Prop :=
  let r := interpretArgs args arg_count s in
  structural_error (added s r) →
  no_spawn (added s r) ∧ fs (final r) = fs s ∧ fds (final r) = fds s.

(** The tokens of a line, as [main] hands them to [interpretArgs]. *)
Definition tokenized (line : string) (s : shell) : nat * shell :=
  splitArgs (LineBuf, 0) (strcpy LineBuf line s).


(** The events that are no [execlp]. *)
Definition not_execlp (e : event) : bool :=
  match e with SysExeclp _ _ _ => false | _ => true end.

(** ** Events and shapes the further properties speak of *)

(** The calls that replace the program of the process. *)
Definition is_exec (e : event) : bool :=
  match e with
  | SysExecvp _ _ _ | SysExeclp _ _ _ => true
  | _ => false
  end.

(** How many times [fork] was called. *)
Definition forks_made (evs : list event) : nat :=
  List.length (List.filter is_fork evs).

(** What [forkInto] leaves in the trace of the process [fork] comes back
    to with [r]. *)
Definition spawn_events (r : fork_ret) (_wait : bool) : list event :=
  SysFork r ::
  match r with
  | ForkFailed => [Stderr SpawnFailure]
  | InParent _ => if _wait then [SysWait] else []
  | InChild => []
  end.

(** The events [forkInto] and [forkAndPipeInto] can leave. *)
Definition run_event (e : event) : bool :=
  match e with
  | Stderr SpawnFailure | Stderr (ProgramNotFound _) | Stderr PipeFailure
  | Stderr RedirectFailure
  | SysFork _ | SysWait | SysExecvp _ _ _ | SysExeclp _ _ _ | SysPipe _
  | SysDup _ _ | SysDup2 _ _ _ | SysClose _ => true
  | _ => false
  end.

(** The complaints about a file that was not named or not opened. *)
Definition open_refused (e : event) : bool :=
  match e with
  | Stderr MissingPath | Stderr (FileOpenFailure _) => true
  | _ => false
  end.

(** The events of the descriptor swap of [redirect]. *)
Definition swap_event (e : event) : bool :=
  match e with
  | Stderr RedirectFailure | SysDup _ _ | SysDup2 _ _ _ | SysClose _ => true
  | _ => false
  end.

(** A file of a redirection was not named or could not be opened. *)
Definition file_error (evs : list event) : Prop :=
  Stderr MissingPath ∈ evs ∨ ∃ path, Stderr (FileOpenFailure path) ∈ evs.

(** The argument vector under construction: as long as the [calloc] of
    [interpretArgs] made it, its first [exec_arg_count] entries are
    tokens of [args], the entries behind them are [NULL]. *)
Definition exec_args_ok (args : list (option ptr)) (arg_count : nat)
    (l : locals) : Prop :=
  List.length (exec_args l) = arg_count + 1 ∧
  exec_arg_count l ≤ arg_count ∧
  (∀ k, k < exec_arg_count l →
     ∃ p j, exec_args l !! k = Some (Some p) ∧ j < arg_count ∧
            at_index args j = Some p) ∧
  (∀ k, exec_arg_count l ≤ k → k ≤ arg_count →
     exec_args l !! k = Some None).

(** The locals of the scan of a command without control tokens, at the
    cursor [arg]. *)
Definition plain_locals (args : list (option ptr)) (arg_count arg : nat)
  : locals :=
  Locals (take arg args ++ replicate (arg_count + 1 - arg) None) arg
    true false false false 0 0 None.

(** What [turn] does once the command is read: the value and the state
    of the turn are those of [interpretArgs]. *)
Definition turn_of (r : res unit) : res bool :=
  match r with
  | Ok _ s' => Ok true s'
  | Halt h s' => Halt h s'
  end.

(** A file was opened: the event of an [open] or a [creat] that
    succeeded. *)
Definition opened (e : event) : bool :=
  match e with
  | SysOpen _ _ fd | SysCreat _ _ fd => negb (bool_decide (fd = (-1)%Z))
  | _ => false
  end.

(** The descriptor table [t] serves the files opened among [evs]: the
    file of an [open] is standard input, the file of a [creat] standard
    output. *)
Definition serves (t : gmap Z ofile) (evs : list event) : Prop :=
  ∀ path mode fd, fd ≠ (-1)%Z →
    (SysOpen path mode fd ∈ evs → t !! STDIN_FILENO = Some (FileRead path)) ∧
    (SysCreat path mode fd ∈ evs →
       t !! STDOUT_FILENO = Some (FileWrite path)).

(** What the scan has reached, against the state [s0] it started from:
    the events so far, and the descriptor table, which is that of [s0]
    until a redirect is applied and serves the file opened from then
    on. *)
Definition scanned (s0 : shell) (l : locals) (s : shell)
    (evs : list event) : Prop :=
  trace s = trace s0 ++ evs ∧ forks s = forks s0 ∧
  fd_limit s = fd_limit s0 ∧ same_memory s0 s ∧ pipe l = false ∧
  if redirected l then error l = false → serves (fds s) evs
  else fds s = fds s0 ∧ forallb (λ e, negb (opened e)) evs = true.

(** * Properties *)

(** Running the plain steps of a computation. *)
Ltac run_m :=
  unfold fprintf_stderr, modify, gets, lift, mbind, M_bind, mret, M_ret;
  cbn.


(** ** C strings and the tokenizer *)

Section tokenizer.

Implicit Types (l : list ascii) (s : shell) (c : ascii).

Lemma is_delim_space c : is_delim " " c = Ascii.eqb c SPACE.
Proof. simpl. by rewrite orb_false_r. Qed.

Arguments is_delim : simpl never.

Lemma append_cons c (w v : string) :
  (String c w ++ v)%string = String c (w ++ v).
Proof. reflexivity. Qed.

Lemma append_empty_r (w : string) : (w ++ "")%string = w.
Proof. induction w as [|c w IH]; [done|]. by rewrite append_cons, IH. Qed.

Lemma glue_empty fs : fs ≠ [] → glue EmptyString fs = fs.
Proof. by destruct fs. Qed.

Lemma glue_cons c w fs :
  fs ≠ [] → glue (String c w) fs = glue (String c EmptyString) (glue w fs).
Proof. by destruct fs. Qed.

Lemma fields_cons_other c line :
  Ascii.eqb c SPACE = false →
  fields (String c line) = glue (String c EmptyString) (fields line).
Proof. intros H. simpl. rewrite H. by destruct (fields line). Qed.

Lemma fields_not_nil line : fields line ≠ [].
Proof.
  destruct line as [|c line]; simpl; [done|].
  destruct (Ascii.eqb c SPACE); [done|]. by destruct (fields line).
Qed.

(** A line is its first word, glued to the fields of what follows it. *)
Lemma fields_word l :
  fields (cstring l) =
  glue (cstring (take (strcspn l " ") l))
       (fields (cstring (drop (strcspn l " ") l))).
Proof.
  induction l as [|c l IH]; [done|].
  cbn [strcspn cstring]. rewrite is_delim_space.
  destruct (is_nul c) eqn:Hn.
  { cbn [orb take drop cstring]. rewrite Hn.
    by rewrite glue_empty by apply fields_not_nil. }
  destruct (Ascii.eqb c SPACE) eqn:Hs.
  { cbn [orb take drop cstring]. rewrite Hn.
    by rewrite glue_empty by apply fields_not_nil. }
  cbn [orb take drop cstring]. rewrite Hn.
  rewrite glue_cons by apply fields_not_nil.
  rewrite <- IH. by apply fields_cons_other.
Qed.

(** What stops a word is the end of the string or a space. *)
Lemma word_stop l :
  let n := strcspn l " " in
  is_nul (default NUL (l !! n)) = true ∨
  (∃ l', drop n l = SPACE :: l').
Proof.
  induction l as [|c l IH]; simpl; [by left|].
  rewrite is_delim_space.
  destruct (is_nul c) eqn:Hn; simpl; [by left|].
  destruct (Ascii.eqb c SPACE) eqn:Hs; simpl; [|done].
  right. apply Ascii.eqb_eq in Hs as ->. by eexists.
Qed.

Lemma cstring_nul_head l :
  is_nul (default NUL (l !! 0)) = true → cstring l = EmptyString.
Proof. destruct l as [|c l]; simpl; [done|]. by intros ->. Qed.

Lemma spec_split_nul l :
  is_nul (default NUL (l !! 0)) = true → spec_split (cstring l) = [].
Proof. intros H. by rewrite (cstring_nul_head _ H). Qed.

Lemma spec_split_space line :
  spec_split (String SPACE line) = spec_split line.
Proof. reflexivity. Qed.

(** Leading spaces do not count. *)
Lemma spec_split_skip l :
  spec_split (cstring (drop (strspn l " ") l)) = spec_split (cstring l).
Proof.
  induction l as [|c l IH]; simpl; [done|].
  rewrite is_delim_space.
  destruct (Ascii.eqb c SPACE) eqn:Hs; simpl; [|done].
  rewrite IH. apply Ascii.eqb_eq in Hs as ->. simpl. done.
Qed.

Lemma strspn_stop l :
  Ascii.eqb (default NUL (l !! strspn l " ")) SPACE = false.
Proof.
  induction l as [|c l IH]; simpl; [done|].
  rewrite is_delim_space.
  by destruct (Ascii.eqb c SPACE) eqn:Hs; simpl.
Qed.

(** The bytes of a word hold no NUL: cutting the list behind the word, or
    writing a NUL there, leaves the word as the string read. *)
Lemma cstring_take_word l n :
  n ≤ strcspn l " " → String.length (cstring (take n l)) = n.
Proof.
  revert n. induction l as [|c l IH]; intros [|n]; simpl; try done; try lia.
  destruct (is_nul c) eqn:Hn; simpl; [lia|].
  destruct (is_delim " " c); simpl; [lia|].
  intros H. rewrite IH; lia.
Qed.

Lemma cstring_cut l n :
  is_nul (default NUL (l !! n)) = true →
  cstring (take n l) = cstring l.
Proof.
  revert n. induction l as [|c l IH]; intros [|n]; simpl; try done.
  - by intros ->.
  - intros H. destruct (is_nul c); [done|]. by rewrite IH.
Qed.

Lemma cstring_insert_nul l n :
  n < List.length l → cstring (<[n := NUL]> l) = cstring (take n l).
Proof.
  revert n. induction l as [|c l IH]; intros [|n]; simpl; try lia; try done.
  intros H. destruct (is_nul c); [done|]. rewrite IH; [done|lia].
Qed.

(** A write behind the end of a string does not change the string. *)
Lemma cstring_insert_behind l n c :
  String.length (cstring l) < n → cstring (<[n := c]> l) = cstring l.
Proof.
  revert n. induction l as [|d l IH]; intros [|n]; simpl; try done; try lia.
  destruct (is_nul d); [done|]. simpl. intros H. rewrite IH; [done|lia].
Qed.

(** The word in front of a list, when the list starts with one. *)
Lemma spec_split_word l :
  is_nul (default NUL (l !! 0)) = false →
  Ascii.eqb (default NUL (l !! 0)) SPACE = false →
  let n := strcspn l " " in
  0 < n ∧
  spec_split (cstring l) =
    cstring (take n l) :: spec_split (cstring (drop n l)).
Proof.
  intros Hn Hs n. assert (0 < n) as Hpos.
  { subst n. destruct l as [|c l]; simpl in *; [done|].
    rewrite is_delim_space, Hn, Hs. simpl. lia. }
  split; [done|].
  unfold spec_split at 1. rewrite fields_word. fold n.
  assert (cstring (take n l) ≠ EmptyString) as Hne.
  { intros E. pose proof (cstring_take_word l n (le_n _)) as Hl.
    rewrite E in Hl. simpl in Hl. lia. }
  destruct (word_stop l) as [H|[l' H]]; fold n in H.
  - rewrite <- (Nat.add_0_r n), <- lookup_drop in H.
    rewrite (cstring_nul_head _ H).
    simpl. rewrite append_empty_r.
    rewrite filter_cons_True by done. done.
  - rewrite H. simpl. rewrite append_empty_r.
    rewrite filter_cons_True by done. done.
Qed.

(** The string copied by [strcpy] is the string read back. *)
Lemma cstring_strcpy l rest :
  cstring (list_ascii_of_string (cstring l) ++ NUL :: rest) = cstring l.
Proof.
  induction l as [|c l IH]; [done|].
  cbn [cstring]. destruct (is_nul c) eqn:Hn; [done|].
  cbn [list_ascii_of_string app cstring]. rewrite Hn. by f_equal.
Qed.

Lemma default_lookup_drop l n :
  default NUL (drop n l !! 0) = default NUL (l !! n).
Proof. by rewrite lookup_drop, Nat.add_0_r. Qed.

Lemma not_nul_in_range l n :
  is_nul (default NUL (l !! n)) = false → n < List.length l.
Proof.
  intros H. apply lookup_lt_is_Some. destruct (l !! n); [by eexists|done].
Qed.

(** One call of [strtok] on [line_cpy], going on at offset [i]: what it
    returns and leaves, against the tokens of the string at [i]. Strings
    that end at or before [i] are not touched. *)
Lemma strtok_next s i (str : option ptr) :
  str = Some (LineCpy, i) ∨ (str = None ∧ olds s = Some (LineCpy, i)) →
  ∃ tok j s',
    strtok str " " s = (tok, s') ∧
    olds s' = Some (LineCpy, j) ∧ i ≤ j ∧
    args s' = args s ∧ trace s' = trace s ∧
    (∀ q, q + String.length (cstring (drop q (line_cpy s))) ≤ i →
          cstring (drop q (line_cpy s')) = cstring (drop q (line_cpy s))) ∧
    match tok with
    | None => spec_split (cstring (drop i (line_cpy s))) = []
    | Some p =>
        ∃ q t ts,
          p = (LineCpy, q) ∧
          spec_split (cstring (drop i (line_cpy s))) = t :: ts ∧
          cstring (drop q (line_cpy s')) = t ∧
          q + String.length t ≤ j ∧
          spec_split (cstring (drop j (line_cpy s'))) = ts
    end.
Proof.
  intros Hstr.
  assert (strtok str " " s = strtok (Some (LineCpy, i)) " " s) as ->.
  { destruct Hstr as [->|[-> H]]; [done|]. unfold strtok. by rewrite H. }
  clear Hstr. unfold strtok. cbn [buffer].
  set (buf := line_cpy s).
  set (start := i + strspn (drop i buf) " ").
  pose proof (spec_split_skip (drop i buf)) as Hskip.
  rewrite drop_drop in Hskip. fold start in Hskip.
  pose proof (strspn_stop (drop i buf)) as Hsp.
  rewrite lookup_drop in Hsp. fold start in Hsp.
  unfold char_at. cbn [fst snd buffer]. fold buf.
  destruct (is_nul (default NUL (buf !! start))) eqn:Hnul.
  { exists None, start, (set_olds (Some (LineCpy, start)) s).
    repeat split; try done; [subst start; lia|].
    rewrite <- Hskip. apply spec_split_nul.
    by rewrite default_lookup_drop. }
  destruct (spec_split_word (drop start buf)) as [Hpos Hword].
  { by rewrite default_lookup_drop. }
  { by rewrite default_lookup_drop. }
  set (n := strcspn (drop start buf) " ") in *.
  rewrite Hskip in Hword. rewrite drop_drop in Hword.
  assert (String.length (cstring (take n (drop start buf))) = n) as Hlen.
  { by apply cstring_take_word. }
  destruct (is_nul (default NUL (buf !! (start + n)))) eqn:Hstop.
  { exists (Some (LineCpy, start)), (start + n),
      (set_olds (Some (LineCpy, start + n)) s).
    repeat split; try done; [subst start; lia|].
    exists start, (cstring (take n (drop start buf))),
      (spec_split (cstring (drop (start + n) buf))).
    repeat split; try done.
    - cbn. fold buf. symmetry. apply cstring_cut.
      by rewrite lookup_drop.
    - rewrite Hlen. lia. }
  pose proof (not_nul_in_range _ _ Hstop) as Hrange.
  destruct (word_stop (drop start buf)) as [H|[l' Hl']].
  { fold n in H. rewrite lookup_drop in H. congruence. }
  fold n in Hl'. rewrite drop_drop in Hl'.
  exists (Some (LineCpy, start)), (S (start + n)),
    (set_olds (Some (LineCpy, S (start + n)))
       (set_buffer LineCpy (<[start + n := NUL]> buf) s)).
  repeat split; try done; [subst start; lia| |].
  - intros q Hq. cbn. fold buf in Hq |- *.
    rewrite drop_insert_ge by (subst start; lia).
    apply cstring_insert_behind. subst start. lia.
  - exists start, (cstring (take n (drop start buf))),
      (spec_split (cstring (drop (start + n) buf))).
    repeat split; try done.
    + cbn. rewrite drop_insert_ge by lia.
      replace (start + n - start) with n by lia.
      apply cstring_insert_nul. rewrite length_drop. lia.
    + rewrite Hlen. lia.
    + cbn. rewrite drop_insert_lt by lia.
      rewrite Hl'. cbn [cstring]. change (is_nul SPACE) with false.
      cbn iota. rewrite spec_split_space.
      replace (drop (S (start + n)) buf) with l'; [done|].
      by rewrite <- (Nat.add_1_r (start + n)), <- drop_drop, Hl'.
Qed.

Lemma splitArgs_loop_spec fuel :
  ∀ token count s i done pend,
    olds s = Some (LineCpy, i) →
    List.length (args s) = MAX_ARG →
    List.length done = count →
    stored s i done →
    match token with
    | None => pend = []
    | Some p =>
        ∃ q t ts, p = (LineCpy, q) ∧ pend = t :: ts ∧
          cstring (drop q (line_cpy s)) = t ∧
          q + String.length t ≤ i ∧
          spec_split (cstring (drop i (line_cpy s))) = ts
    end →
    count + List.length pend ≤ MAX_ARG - 1 →
    List.length pend ≤ fuel →
    let r := splitArgs_loop fuel token count s in
    r.1 = count + List.length pend ∧
    trace r.2 = trace s ∧
    ∃ i', stored r.2 i' (done ++ pend).
Proof.
  induction fuel as [|fuel IH]; intros token count s i done pend
    Holds Hargs Hdone Hst Htok Hroom Hfuel.
  - destruct pend; [|simpl in Hfuel; lia].
    destruct token as [p|].
    { destruct Htok as (?&?&?&?&?&?); done. }
    simpl. rewrite app_nil_r. repeat split; [lia|by exists i].
  - destruct token as [p|]; cycle 1.
    { subst pend. simpl. rewrite app_nil_r.
      repeat split; [lia|by exists i]. }
    destruct Htok as (q & t & ts & -> & -> & Hq & Hqi & Hts).
    cbn [splitArgs_loop]. cbn [List.length] in Hroom, Hfuel.
    rewrite bool_decide_eq_true_2 by lia.
    match goal with
    | |- context [strtok None " " ?x] => set (s1 := x)
    end.
    destruct (strtok_next s1 i None) as
      (tok & j & s2 & E & Holds2 & Hij & Hargs2 & Htr2 & Hkeep & Hnext).
    { right. done. }
    rewrite E.
    assert (stored s2 j (done ++ [t])) as Hst2.
    { intros k t' Hk. rewrite Hargs2.
      destruct (decide (k = count)) as [->|Hne].
      - rewrite lookup_app_r in Hk by lia.
        replace (count - List.length done) with 0 in Hk by lia.
        injection Hk as <-. exists q. split; [|split].
        + subst s1. cbn. apply list_lookup_insert_eq. unfold MAX_ARG in *. lia.
        + rewrite Hkeep; [done|]. subst s1. cbn. rewrite Hq. lia.
        + lia.
      - assert (k < count) as Hlt.
        { apply lookup_lt_Some in Hk. rewrite length_app in Hk.
          simpl in Hk. lia. }
        rewrite lookup_app_l in Hk by lia.
        destruct (Hst k t' Hk) as (q' & Ha & Hs & Hb).
        exists q'. split; [|split].
        + subst s1. cbn. by rewrite list_lookup_insert_ne by lia.
        + rewrite Hkeep; [done|]. subst s1. cbn. rewrite Hs. lia.
        + lia. }
    specialize (IH tok (S count) s2 j (done ++ [t]) ts Holds2).
    destruct IH as (Hc & Htr & i' & Hfin).
    + rewrite Hargs2. subst s1. cbn. by rewrite length_insert.
    + rewrite length_app. simpl. lia.
    + done.
    + subst s1. cbn in Hnext. rewrite Hts in Hnext.
      destruct tok as [p'|]; [|done].
      destruct Hnext as (q' & t' & ts' & -> & Hsplit & ? & ? & ?).
      by exists q', t', ts'.
    + lia.
    + lia.
    + cbn zeta. repeat split.
      * rewrite Hc. simpl. lia.
      * rewrite Htr, Htr2. done.
      * exists i'. by rewrite <- app_assoc in Hfin.
Qed.

Lemma same_kernel_trans s1 s2 s3 :
  same_kernel s1 s2 → same_kernel s2 s3 → same_kernel s1 s3.
Proof. unfold same_kernel. intros (?&?&?&?&?) (?&?&?&?&?). repeat split; congruence. Qed.

(** [strtok] writes to the buffer it works on and to nothing else. *)
Lemma strtok_frame (str : option ptr) delim s :
  let r := strtok str delim s in
  args r.2 = args s ∧ trace r.2 = trace s ∧ same_kernel s r.2 ∧
  tok_buf None r.2 = tok_buf str s ∧
  (∀ p, r.1 = Some p → tok_buf str s = Some p.1) ∧
  (∀ b, tok_buf str s ≠ Some b → buffer r.2 b = buffer s b).
Proof.
  assert (∀ b0 i, strtok (Some (b0, i)) delim s = strtok str delim s →
            tok_buf str s = Some b0 →
            let r := strtok (Some (b0, i)) delim s in
            args r.2 = args s ∧ trace r.2 = trace s ∧ same_kernel s r.2 ∧
            tok_buf None r.2 = Some b0 ∧
            (∀ p, r.1 = Some p → Some b0 = Some p.1) ∧
            (∀ b, Some b0 ≠ Some b → buffer r.2 b = buffer s b)) as Hgen.
  { intros b0 i _ _. unfold strtok, tok_buf.
    destruct b0; repeat case_match; cbn; split_and!; try done;
      try (intros ? [= <-]; done);
      intros [] Hb; cbn; congruence. }
  destruct str as [[b0 i]|].
  - apply (Hgen b0 i); done.
  - destruct (olds s) as [[b0 i]|] eqn:E.
    + specialize (Hgen b0 i). unfold tok_buf at 2 3 4. rewrite E. cbn [fmap option_fmap option_map fst].
      assert (strtok None delim s = strtok (Some (b0, i)) delim s) as ->.
      { unfold strtok. by rewrite E. }
      apply Hgen; [unfold strtok; by rewrite E|].
      unfold tok_buf. by rewrite E.
    + unfold strtok, tok_buf. rewrite E. cbn. rewrite E. split_and!; done.
Qed.

Lemma splitArgs_loop_frame fuel :
  ∀ (token : option ptr) count s,
    let r := splitArgs_loop fuel token count s in
    same_kernel s r.2 ∧
    (∀ b, tok_buf None s ≠ Some b → buffer r.2 b = buffer s b).
Proof.
  induction fuel as [|fuel IH]; intros token count s; cbn zeta.
  - destruct token; cbn; [|done]. case_bool_decide; cbn; [done|].
    split; [done|]. by intros [] ?.
  - destruct token as [p|]; cbn [splitArgs_loop]; [|done].
    case_bool_decide; cycle 1.
    { cbn. split; [done|]. by intros [] ?. }
    match goal with
    | |- context [strtok None " " ?x] => set (s1 := x)
    end.
    destruct (strtok_frame None " " s1) as (_ & _ & Hk & Hb & _ & Hf).
    destruct (strtok None " " s1) as [token' s2]. cbn [fst snd] in *.
    destruct (IH token' (S count) s2) as [Hk2 Hf2]. split.
    + eapply same_kernel_trans; [|exact Hk2]. exact Hk.
    + intros b Hne. rewrite Hf2 by (by rewrite Hb).
      rewrite Hf by done. by destruct b.
Qed.

(** Every entry of [args] below the count returned is a token; the
    entries from the count on are what they were. *)
Lemma splitArgs_loop_args fuel :
  ∀ (token : option ptr) count s,
    List.length (args s) = MAX_ARG →
    count ≤ MAX_ARG - 1 →
    (∀ k, k < count → ∃ p, args s !! k = Some (Some p)) →
    let r := splitArgs_loop fuel token count s in
    List.length (args r.2) = MAX_ARG ∧ r.1 ≤ MAX_ARG - 1 ∧
    (∀ k, k < r.1 → ∃ p, args r.2 !! k = Some (Some p)) ∧
    count ≤ r.1 ∧
    (∀ k, r.1 ≤ k → args r.2 !! k = args s !! k).
Proof.
  induction fuel as [|fuel IH]; intros token count s Hlen Hc Hargs; cbn zeta.
  - destruct token; cbn; [|done]. by case_bool_decide.
  - destruct token as [p|]; cbn [splitArgs_loop]; [|done].
    case_bool_decide; [|done].
    match goal with
    | |- context [strtok None " " ?x] => set (s1 := x)
    end.
    destruct (strtok_frame None " " s1) as (Ha & _).
    destruct (strtok None " " s1) as [token' s2]. cbn [fst snd] in *.
    destruct (IH token' (S count) s2) as (? & ? & ? & Hle & Habove).
    + rewrite Ha. subst s1. cbn. by rewrite length_insert.
    + lia.
    + intros k Hk. rewrite Ha. subst s1. cbn.
      destruct (decide (k = count)) as [->|Hne].
      * exists p. apply list_lookup_insert_eq. lia.
      * rewrite list_lookup_insert_ne by done. apply Hargs. lia.
    + split_and!; [done..|lia|].
      intros k Hk. rewrite Habove by done. rewrite Ha. subst s1. cbn.
      apply list_lookup_insert_ne. lia.
Qed.

(** The loop of [splitArgs] never runs out of fuel: any two amounts that
    cover the tokens still allowed give the same result, and [splitArgs]
    gives the loop [MAX_ARG]. *)
Lemma splitArgs_loop_fuel fuel :
  ∀ fuel' (token : option ptr) count s,
    MAX_ARG - 1 - count ≤ fuel → MAX_ARG - 1 - count ≤ fuel' →
    splitArgs_loop fuel token count s = splitArgs_loop fuel' token count s.
Proof.
  unfold MAX_ARG.
  induction fuel as [|fuel IH]; intros fuel' token count s H1 H2.
  - destruct fuel'; [done|]. destruct token; [|done].
    cbn [splitArgs_loop]. unfold MAX_ARG. case_bool_decide; [lia|done].
  - destruct fuel' as [|fuel'].
    { destruct token; [|done]. cbn [splitArgs_loop]. unfold MAX_ARG.
      case_bool_decide; [lia|done]. }
    destruct token as [p|]; [|done]. cbn [splitArgs_loop]. unfold MAX_ARG.
    case_bool_decide; [|done].
    destruct (strtok None " " _) as [token' s2].
    apply IH; lia.
Qed.

Lemma splitArgs_frame (line_src : ptr) s :
  let r := splitArgs line_src s in
  same_kernel s r.2 ∧
  line_buf r.2 = line_buf s ∧ last_line_buf r.2 = last_line_buf s.
Proof.
  unfold splitArgs.
  set (s1 := strcpy LineCpy (load_str s line_src) s).
  destruct (strtok_frame (Some (LineCpy, 0)) " " s1) as (_ & _ & Hk & Hb & _ & Hf).
  destruct (strtok (Some (LineCpy, 0)) " " s1) as [token s2].
  cbn [fst snd] in *.
  destruct (splitArgs_loop_frame MAX_ARG token 0 s2) as [Hk2 Hf2].
  cbn zeta in *. split; [|split].
  - eapply same_kernel_trans; [|exact Hk2]. exact Hk.
  - specialize (Hf2 LineBuf). specialize (Hf LineBuf). cbn [buffer] in *.
    rewrite Hf2 by (by rewrite Hb). by rewrite Hf.
  - specialize (Hf2 LastLineBuf). specialize (Hf LastLineBuf).
    cbn [buffer] in *. rewrite Hf2 by (by rewrite Hb). by rewrite Hf.
Qed.

Lemma splitArgs_args (line_src : ptr) s :
  List.length (args s) = MAX_ARG →
  let r := splitArgs line_src s in
  List.length (args r.2) = MAX_ARG ∧ r.1 ≤ MAX_ARG - 1 ∧
  (∀ k, k < r.1 → ∃ p, args r.2 !! k = Some (Some p)) ∧
  (∀ k, r.1 ≤ k → args r.2 !! k = args s !! k).
Proof.
  intros Hlen. unfold splitArgs.
  set (s1 := strcpy LineCpy (load_str s line_src) s).
  destruct (strtok_frame (Some (LineCpy, 0)) " " s1) as (Ha & _).
  destruct (strtok (Some (LineCpy, 0)) " " s1) as [token s2].
  cbn [fst snd] in *.
  destruct (splitArgs_loop_args MAX_ARG token 0 s2)
    as (? & ? & ? & _ & Habove).
  - by rewrite Ha.
  - unfold MAX_ARG. lia.
  - intros k Hk. lia.
  - cbn zeta in *. split_and!; [done..|].
    intros k Hk. by rewrite Habove, Ha.
Qed.

(** [splitArgs] against the tokens of the line, when they are at most
    39. *)
Lemma splitArgs_split (line_src : ptr) s :
  List.length (args s) = MAX_ARG →
  List.length (spec_split (load_str s line_src)) ≤ MAX_ARG - 1 →
  let tokens := spec_split (load_str s line_src) in
  let r := splitArgs line_src s in
  r.1 = List.length tokens ∧
  (∀ k t, tokens !! k = Some t →
     ∃ p, args r.2 !! k = Some (Some p) ∧ load_str r.2 p = t) ∧
  (load_str s line_src = EmptyString → r.1 = 0) ∧
  trace r.2 = trace s.
Proof.
  intros Hlen Hcount tokens r. subst r. unfold splitArgs.
  set (line := load_str s line_src) in *.
  set (s1 := strcpy LineCpy line s).
  assert (cstring (drop 0 (line_cpy s1)) = line) as Hline.
  { subst s1 line. cbn. unfold strcpy_bytes, load_str.
    apply cstring_strcpy. }
  destruct (strtok_next s1 0 (Some (LineCpy, 0))) as
    (tok & j & s2 & E & Holds & _ & Hargs & Htr & _ & Hnext); [by left|].
  rewrite E. rewrite Hline in Hnext. fold tokens in Hnext.
  assert (stored s2 j []) as Hst0 by (by intros k t Hk).
  assert (match tok with
          | None => tokens = []
          | Some p => ∃ q t ts, p = (LineCpy, q) ∧ tokens = t :: ts ∧
              cstring (drop q (line_cpy s2)) = t ∧ q + String.length t ≤ j ∧
              spec_split (cstring (drop j (line_cpy s2))) = ts
          end) as Htok.
  { destruct tok as [p|]; [|done].
    destruct Hnext as (q & t & ts & -> & Hs & ? & ? & ?).
    by exists q, t, ts. }
  assert (List.length (args s2) = MAX_ARG) as Hlen2 by (by rewrite Hargs).
  assert (List.length tokens ≤ MAX_ARG) as Hfuel
    by (unfold tokens, MAX_ARG in *; lia).
  destruct (splitArgs_loop_spec MAX_ARG tok 0 s2 j [] tokens
              Holds Hlen2 eq_refl Hst0 Htok Hcount Hfuel)
    as (Hc & Htr2 & i' & Hst).
  cbn zeta in *. rewrite app_nil_l in Hst. repeat split.
  - by rewrite Hc.
  - intros k t Hk. destruct (Hst k t Hk) as (q & Ha & Hq & _).
    by exists (LineCpy, q).
  - intros Hempty. rewrite Hc. subst tokens. by rewrite Hempty.
  - by rewrite Htr2, Htr.
Qed.

(** C6. For every line of at most 39 space-separated tokens, [splitArgs]
    returns the number of tokens and leaves in [args], in their order from
    left to right, pointers to the tokens; the tokens are the pieces
    between runs of spaces ([spec_split]); an empty line has none; nothing
    is reported. *)
Theorem splitArgs_tokens (line_src : ptr) s :
  List.length (args s) = MAX_ARG →
  List.length (spec_split (load_str s line_src)) ≤ MAX_ARG - 1 →
  let tokens := spec_split (load_str s line_src) in
  let r := splitArgs line_src s in
  r.1 = List.length tokens ∧
  (∀ k t, tokens !! k = Some t →
     ∃ p, args r.2 !! k = Some (Some p) ∧ load_str r.2 p = t) ∧
  (load_str s line_src = EmptyString → r.1 = 0) ∧
  trace r.2 = trace s.
Proof. apply splitArgs_split. Qed.

(** C9. [splitArgs] cuts the tokens out of its own copy of the line: the
    buffers of the caller, [line_buf] and [last_line_buf], hold after the
    call the bytes they held before it, and so the line that can be
    replayed. *)
Theorem splitArgs_keeps_line (line_src : ptr) s :
  let s' := (splitArgs line_src s).2 in
  line_buf s' = line_buf s ∧ last_line_buf s' = last_line_buf s ∧
  (line_src.1 ≠ LineCpy → load_str s' line_src = load_str s line_src).
Proof.
  destruct (splitArgs_frame line_src s) as (_ & H1 & H2).
  cbn zeta in *. repeat split; [done..|].
  intros Hne. unfold load_str. destruct line_src as [[] i]; cbn in *;
    congruence.
Qed.

End tokenizer.

(** ** Steps and traces: what holds whatever the kernel answers *)

Section steps.

Implicit Types (s : shell) (l : locals) (evs : list event).
Implicit Types (Q : event → bool).

Lemma steps_refl Q s : steps Q s s [].
Proof.
  unfold steps, same_memory. rewrite app_nil_r. split_and!; try done.
Qed.

Lemma no_spawn_app evs1 evs2 :
  no_spawn (evs1 ++ evs2) ↔ no_spawn evs1 ∧ no_spawn evs2.
Proof. unfold no_spawn. rewrite forallb_app. apply andb_true_iff. Qed.

Lemma steps_trans Q s1 s2 s3 evs1 evs2 :
  steps Q s1 s2 evs1 → steps Q s2 s3 evs2 → steps Q s1 s3 (evs1 ++ evs2).
Proof.
  unfold steps, same_memory.
  intros (Ht1 & He1 & (?&?&?&?&?) & ? & ? & Hk1 & Hf1)
         (Ht2 & He2 & (?&?&?&?&?) & ? & ? & Hk2 & Hf2).
  split_and!; try congruence.
  - by rewrite Ht2, Ht1, app_assoc.
  - rewrite forallb_app. by rewrite He1, He2.
  - intros [Hn1 Hn2]%no_spawn_app. rewrite Hk2, Hk1; done.
  - intros path Hne.
    destruct (decide (fs s2 !! path = fs s1 !! path)) as [E|E].
    + destruct (Hf2 path) as (m & fd & ? & ?); [congruence|].
      exists m, fd. split; [|done]. apply elem_of_app. by right.
    + destruct (Hf1 path E) as (m & fd & ? & ?).
      exists m, fd. split; [|done]. apply elem_of_app. by left.
Qed.

Lemma steps_weaken Q Q' s s' evs :
  (∀ e, Q e = true → Q' e = true) → steps Q s s' evs → steps Q' s s' evs.
Proof.
  intros HQ (? & He & ?). split; [done|]. split; [|done].
  rewrite forallb_forall in *. intros e Hin. apply HQ, He, Hin.
Qed.

Lemma traced_ret {A} Q (a : A) (P : A → list event → Prop) :
  P a [] → traced Q (mret a) P.
Proof. intros HP s. exists []. split; [apply steps_refl|done]. Qed.

Lemma traced_bind {A B} Q (m : M A) (f : A → M B) P1 P2 :
  traced Q m P1 →
  (∀ a evs1, P1 a evs1 → traced Q (f a) (λ b evs2, P2 b (evs1 ++ evs2))) →
  traced Q (m ≫= f) P2.
Proof.
  intros Hm Hf s. destruct (Hm s) as (evs1 & Hs1 & HP1).
  unfold mbind, M_bind. destruct (m s) as [a s1|h s1]; cbn in *.
  - destruct (Hf a evs1 HP1 s1) as (evs2 & Hs2 & HP2).
    exists (evs1 ++ evs2). split; [by eapply steps_trans|done].
  - by exists evs1.
Qed.

Lemma traced_weaken {A} Q Q' (m : M A) (P P' : A → list event → Prop) :
  (∀ e, Q e = true → Q' e = true) →
  (∀ a evs, P a evs → P' a evs) →
  traced Q m P → traced Q' m P'.
Proof.
  intros HQ HP Hm s. destruct (Hm s) as (evs & Hs & H).
  exists evs. split; [by eapply steps_weaken|].
  destruct (m s); [by apply HP|done].
Qed.

Lemma traced_gets {A} Q (f : shell → A) :
  traced Q (gets f) (λ _ evs, evs = []).
Proof. intros s. exists []. split; [apply steps_refl|done]. Qed.

(** The events of a traced computation are of its class. *)
Lemma traced_class {A} Q (m : M A) (P : A → list event → Prop) :
  traced Q m P → traced Q m (λ a evs, forallb Q evs = true ∧ P a evs).
Proof.
  intros Hm s. destruct (Hm s) as (evs & Hs & H). exists evs.
  split; [done|]. destruct (m s); [|done]. split; [|done]. apply Hs.
Qed.

(** A call that logs one event and changes, besides, the descriptors
    only. *)
Lemma steps_log Q s e t :
  Q e = true → (∀ p m fd, e ≠ SysCreat p m fd) → is_fork e = false →
  steps Q s (log e (set_fds t s)) [e].
Proof.
  intros He Hc Hf. unfold steps, same_memory, no_spawn. cbn. rewrite He.
  split_and!; done.
Qed.

Lemma steps_log_same Q s e :
  Q e = true → (∀ p m fd, e ≠ SysCreat p m fd) → is_fork e = false →
  steps Q s (log e s) [e].
Proof.
  intros He Hc Hf. unfold steps, same_memory, no_spawn. cbn. rewrite He.
  split_and!; done.
Qed.

Lemma traced_fprintf Q m :
  Q (Stderr m) = true →
  traced Q (fprintf_stderr m) (λ _ evs, evs = [Stderr m]).
Proof. intros H s. exists [Stderr m]. split; [by apply steps_log_same|done]. Qed.

Lemma traced_open Q path mode :
  (∀ r, Q (SysOpen path mode r) = true) →
  traced Q (sys_open path mode) (λ r evs, evs = [SysOpen path mode r]).
Proof.
  intros H s. unfold sys_open.
  repeat case_match; eexists; (split; [|done]);
    (by apply steps_log) || (by apply steps_log_same).
Qed.

Lemma traced_creat Q path mode :
  (∀ r, Q (SysCreat path mode r) = true) →
  traced Q (sys_creat path mode) (λ r evs, evs = [SysCreat path mode r]).
Proof.
  intros H s. unfold sys_creat.
  assert (∀ s', steps Q s' (log (SysCreat path mode (-1)) s')
            [SysCreat path mode (-1)%Z]) as Hfail.
  { intros s'. unfold steps, same_memory, no_spawn. cbn. rewrite H.
    split_and!; done. }
  destruct (lowest_free (fds s) (fd_limit s)) as [fd|] eqn:Hfd; cycle 1.
  { eexists. split; [apply Hfail|done]. }
  assert (fd ≠ (-1)%Z) as Hpos.
  { unfold lowest_free in Hfd. destruct (List.find _ _); [|done].
    injection Hfd as <-. lia. }
  assert (∀ f, steps Q s
            (log (SysCreat path mode fd)
               (set_fs (<[path:=f]> (fs s))
                  (set_fds (<[fd:=FileWrite path]> (fds s)) s)))
            [SysCreat path mode fd]) as Hmade.
  { intros f. unfold steps, same_memory, no_spawn. cbn. rewrite H.
    split_and!; try done. intros p Hne.
    destruct (decide (p = path)) as [->|Hp].
    - exists mode, fd. split; [by apply list_elem_of_singleton|done].
    - by rewrite lookup_insert_ne in Hne. }
  repeat case_match; eexists; (split; [|done]); by (apply Hmade || apply Hfail).
Qed.

Lemma traced_dup Q fd :
  (∀ r, Q (SysDup fd r) = true) →
  traced Q (sys_dup fd) (λ r evs, evs = [SysDup fd r]).
Proof.
  intros H s. unfold sys_dup.
  repeat case_match; eexists; (split; [|done]);
    (by apply steps_log) || (by apply steps_log_same).
Qed.

Lemma traced_dup2 Q src dst :
  (∀ r, Q (SysDup2 src dst r) = true) →
  traced Q (sys_dup2 src dst) (λ r evs, evs = [SysDup2 src dst r]).
Proof.
  intros H s. unfold sys_dup2.
  repeat case_match; eexists; (split; [|done]);
    (by apply steps_log) || (by apply steps_log_same).
Qed.

Lemma traced_close Q fd :
  Q (SysClose fd) = true →
  traced Q (sys_close fd) (λ _ evs, evs = [SysClose fd]).
Proof.
  intros H s. unfold sys_close.
  repeat case_match; eexists; (split; [|done]);
    (by apply steps_log) || (by apply steps_log_same).
Qed.

Lemma traced_pipe Q :
  (∀ r, Q (SysPipe r) = true) →
  traced Q sys_pipe (λ r evs, evs = [SysPipe r]).
Proof.
  intros H s. unfold sys_pipe.
  repeat case_match; eexists; (split; [|done]);
    (by apply steps_log) || (by apply steps_log_same).
Qed.

Lemma traced_wait Q :
  Q SysWait = true → traced Q sys_wait (λ _ evs, evs = [SysWait]).
Proof. intros H s. exists [SysWait]. split; [by apply steps_log_same|done]. Qed.

Lemma traced_fork Q :
  (∀ r, Q (SysFork r) = true) →
  traced Q sys_fork (λ r evs, evs = [SysFork r]).
Proof.
  intros H s. unfold sys_fork.
  destruct (forks s) as [|r k] eqn:E; eexists; (split; [|done]);
    unfold steps, same_memory, no_spawn; cbn; rewrite H;
    split_and!; done.
Qed.

Lemma traced_exec Q call file argv :
  (∀ p a b, Q (call p a b) = true) →
  (∀ p a b p' m fd, call p a b ≠ SysCreat p' m fd) →
  (∀ p a b, is_fork (call p a b) = false) →
  traced Q (sys_exec call file argv) (λ r evs, r = (-1)%Z).
Proof.
  intros H Hc Hf s. unfold sys_exec.
  destruct file as [p|]; cycle 1.
  { exists []. split; [apply steps_refl|done]. }
  case_bool_decide; eexists; (split; [|done]); cbn; by apply steps_log_same.
Qed.

(** *** The functions of the source *)

Lemma quiet_scan e : quiet_event e = true → scan_event e = true.
Proof. unfold quiet_event. by intros [? ?]%andb_true_iff. Qed.

Lemma quiet_not_structural e :
  quiet_event e = true → negb (structural e) = true.
Proof. unfold quiet_event. by intros [? ?]%andb_true_iff. Qed.

Lemma scan_not_fork e : scan_event e = true → negb (is_fork e) = true.
Proof. by destruct e as [[]| | | | | | | | | |]. Qed.

Lemma forallb_impl {A} (f g : A → bool) (xs : list A) :
  (∀ x, f x = true → g x = true) →
  forallb f xs = true → forallb g xs = true.
Proof.
  intros H. rewrite !forallb_forall. intros Hf x Hx. by apply H, Hf.
Qed.

Lemma traced_redirect source dest err :
  traced quiet_event (redirect source dest err)
    (λ r _, err = true → r.2 = true).
Proof.
  unfold redirect.
  eapply traced_bind; [by apply traced_dup|]. intros tmp evs1 _.
  eapply traced_bind; [by apply traced_dup2|]. intros r evs2 _.
  case_bool_decide.
  - eapply traced_bind; [by apply traced_fprintf|]. intros [] evs3 _.
    by apply traced_ret.
  - by apply traced_ret.
Qed.

Lemma traced_redirectToFile file dest err :
  traced quiet_event (redirectToFile file dest err)
    (λ r _, err = true → r.2 = true).
Proof.
  unfold redirectToFile. destruct file as [p|]; cycle 1.
  { eapply traced_bind; [by apply traced_fprintf|]. intros [] evs _.
    by apply traced_ret. }
  eapply traced_bind; [by apply traced_gets|]. intros path evs0 _.
  assert (∀ fd, traced quiet_event
            ((redirect fd dest err ≫= λ '(std_tmp_copy, error),
               sys_close fd;; mret (std_tmp_copy, error)) : M (Z * bool))
            (λ r _, err = true → r.2 = true)) as Hswap.
  { intros fd.
    eapply traced_bind; [apply traced_redirect|]. intros [tmp e] evs1 He.
    eapply traced_bind; [by apply traced_close|]. intros [] evs2 _.
    by apply traced_ret. }
  case_bool_decide.
  - eapply traced_bind; [by apply traced_open|]. intros fd evs1 _.
    case_bool_decide.
    + eapply traced_bind; [by apply traced_fprintf|]. intros [] evs2 _.
      by apply traced_ret.
    + eapply traced_weaken; [done| |apply Hswap]. done.
  - eapply traced_bind; [by apply traced_creat|]. intros fd evs1 _.
    case_bool_decide.
    + eapply traced_bind; [by apply traced_fprintf|]. intros [] evs2 _.
      by apply traced_ret.
    + eapply traced_weaken; [done| |apply Hswap]. done.
Qed.

(** One turn of the scan: a structural error is among its events only if
    it sets [error]. *)
Lemma traced_body args arg l :
  traced scan_event (interpretArgs_body args arg l)
    (λ r evs,
       arg ≤ r.1 ∧
       (error l = true → error r.2 = true) ∧
       (error r.2 = false → forallb (λ e, negb (structural e)) evs = true)).
Proof.
  unfold interpretArgs_body. destruct (at_index args arg) as [p|]; cycle 1.
  { intros s. exists []. split; [apply steps_refl|done]. }
  eapply traced_bind; [by apply traced_gets|]. intros c evs0 ->.
  destruct (is_char c "<" || is_char c ">").
  { destruct (redirected l).
    - eapply traced_bind; [by apply traced_fprintf|]. intros [] evs1 _.
      by apply traced_ret.
    - eapply traced_bind.
      { eapply traced_weaken; [apply quiet_scan| |].
        2: apply traced_class, traced_redirectToFile.
        intros a evs H. exact H. }
      intros [from err'] evs1 [Hq Herr]. cbn in Herr.
      apply traced_ret. cbn. split_and!; [lia|done|].
      intros _. rewrite app_nil_r.
      revert Hq. apply forallb_impl, quiet_not_structural. }
  destruct (is_char c "|").
  { destruct (pipe l).
    - eapply traced_bind; [by apply traced_fprintf|]. intros [] evs1 _.
      by apply traced_ret.
    - apply traced_ret. cbn. split_and!; [lia|done|done]. }
  destruct (is_char c "&"); by apply traced_ret.
Qed.

Lemma traced_loop fuel args arg_count :
  ∀ arg l,
    traced scan_event (interpretArgs_loop fuel args arg_count arg l)
      (λ l' evs,
         (error l = true → error l' = true) ∧
         (error l' = false →
            forallb (λ e, negb (structural e)) evs = true)).
Proof.
  induction fuel as [|fuel IH]; intros arg l; cbn [interpretArgs_loop].
  - destruct (bool_decide (arg < arg_count) && negb (error l));
      by apply traced_ret.
  - destruct (bool_decide (arg < arg_count) && negb (error l));
      [|by apply traced_ret].
    eapply traced_bind; [apply traced_body|].
    intros [arg' l'] evs1 (_ & Hmono & Hquiet). cbn in Hmono, Hquiet.
    eapply traced_weaken; [done| |apply IH].
    intros l'' evs2 [Hmono' Hquiet']. cbn. split.
    + auto.
    + intros Hl''. rewrite forallb_app. rewrite Hquiet' by done.
      rewrite Hquiet; [done|].
      destruct (error l') eqn:E; [|done].
      rewrite Hmono' in Hl'' by done. done.
Qed.

(** The loop of [interpretArgs] never runs out of fuel: any two amounts
    that cover the tokens left give the same result, and [interpretArgs]
    gives the loop [arg_count]. *)
Lemma interpretArgs_loop_fuel fuel args arg_count :
  ∀ fuel' arg l s,
    arg_count - arg ≤ fuel → arg_count - arg ≤ fuel' →
    interpretArgs_loop fuel args arg_count arg l s =
    interpretArgs_loop fuel' args arg_count arg l s.
Proof.
  induction fuel as [|fuel IH]; intros fuel' arg l s H1 H2.
  - destruct fuel'; [done|]. cbn [interpretArgs_loop].
    case_bool_decide; [lia|done].
  - destruct fuel' as [|fuel'].
    { cbn [interpretArgs_loop]. case_bool_decide; [lia|done]. }
    cbn [interpretArgs_loop].
    destruct (bool_decide (arg < arg_count) && negb (error l)) eqn:Hc;
      [|done].
    apply andb_true_iff in Hc as [Harg%bool_decide_eq_true _].
    destruct (traced_body args arg l s) as (evs & _ & Hb).
    unfold mbind, M_bind.
    destruct (interpretArgs_body args arg l s) as [[arg' l'] s1|h s1];
      [|done].
    cbn in Hb. destruct Hb as (Hle & _). apply IH; lia.
Qed.

Lemma traced_forkInto args _wait :
  traced plain_event (forkInto args _wait) (λ _ _, True).
Proof.
  unfold forkInto.
  eapply traced_bind; [by apply traced_fork|]. intros pid evs1 _.
  destruct pid.
  - eapply traced_weaken; [done| |by apply traced_fprintf]. done.
  - eapply traced_bind; [by apply traced_exec|]. intros r evs2 _.
    case_bool_decide; [|by apply traced_ret].
    eapply traced_bind; [by apply traced_gets|]. intros n evs3 _.
    eapply traced_weaken; [done| |by apply traced_fprintf]. done.
  - destruct _wait; [|by apply traced_ret].
    eapply traced_weaken; [done| |by apply traced_wait]. done.
Qed.

Lemma traced_forkAndPipeInto args dest_prog _wait :
  traced plain_event (forkAndPipeInto args dest_prog _wait) (λ _ _, True).
Proof.
  assert (∀ source dest err,
            traced plain_event (redirect source dest err) (λ _ _, True))
    as Hred.
  { intros. eapply traced_weaken; [apply quiet_not_structural| |].
    2: apply traced_redirect. done. }
  assert (∀ (a : option ptr) (r : Z),
            traced plain_event
              ((if bool_decide (r = (-1)%Z) then
                  n ← name_of a; fprintf_stderr (ProgramNotFound n)
                else mret tt) : M unit) (λ _ _, True)) as Hmsg.
  { intros a r. case_bool_decide; [|by apply traced_ret].
    eapply traced_bind; [by apply traced_gets|]. intros n evs3 _.
    eapply traced_weaken; [done| |by apply traced_fprintf]. done. }
  unfold forkAndPipeInto.
  eapply traced_bind; [by apply traced_fork|]. intros pid evs1 _.
  destruct pid.
  - eapply traced_weaken; [done| |by apply traced_fprintf]. done.
  - eapply traced_bind; [by apply traced_pipe|]. intros pipefd evs2 _.
    destruct pipefd as [[pipefd0 pipefd1]|]; cycle 1.
    { eapply traced_weaken; [done| |by apply traced_fprintf]. done. }
    eapply traced_bind; [by apply traced_fork|]. intros piped_pid evs3 _.
    destruct piped_pid.
    + eapply traced_weaken; [done| |by apply traced_fprintf]. done.
    + eapply traced_bind; [by apply traced_close|]. intros [] evs4 _.
      eapply traced_bind; [apply Hred|]. intros [reset err] evs5 _.
      destruct err; [by apply traced_ret|]. cbn [negb].
      eapply traced_bind; [by apply traced_exec|]. intros r evs6 _.
      eapply traced_bind; [apply Hmsg|]. intros [] evs7 _.
      eapply traced_bind; [by apply traced_dup2|]. intros ? evs8 _.
      by apply traced_ret.
    + eapply traced_bind; [by apply traced_close|]. intros [] evs4 _.
      eapply traced_bind; [by apply traced_wait|]. intros [] evs4' _.
      eapply traced_bind; [apply Hred|]. intros [reset err] evs5 _.
      destruct err; [by apply traced_ret|]. cbn [negb].
      eapply traced_bind; [by apply traced_exec|]. intros r evs6 _.
      eapply traced_bind; [apply Hmsg|]. intros [] evs7 _.
      eapply traced_bind; [by apply traced_dup2|]. intros ? evs8 _.
      by apply traced_ret.
  - destruct _wait; [|by apply traced_ret].
    eapply traced_weaken; [done| |by apply traced_wait]. done.
Qed.

(** Putting the descriptor back takes no process and reports nothing. *)
Lemma traced_restore l :
  traced quiet_event
    ((if redirected l then
        _ ← sys_dup2 (redirected_from l) (redirected_to l);
        sys_close (redirected_from l)
      else mret tt) : M unit) (λ _ _, True).
Proof.
  destruct (redirected l); [|by apply traced_ret].
  eapply traced_bind; [by apply traced_dup2|]. intros ? evs1 _.
  eapply traced_weaken; [done| |by apply traced_close]. done.
Qed.

Lemma traced_finish l :
  traced plain_event (interpretArgs_finish l) (λ _ _, True).
Proof.
  unfold interpretArgs_finish.
  eapply traced_bind with (P1 := λ _ _, True).
  - destruct (error l); cbn [negb]; [by apply traced_ret|].
    destruct (pipe l);
      [apply traced_forkAndPipeInto|apply traced_forkInto].
  - intros [] evs1 _.
    eapply traced_weaken; [apply quiet_not_structural| |apply traced_restore].
    done.
Qed.

(** After an error nothing is run. *)
Lemma traced_finish_error l :
  error l = true →
  traced quiet_event (interpretArgs_finish l) (λ _ _, True).
Proof.
  intros He. unfold interpretArgs_finish. rewrite He. cbn [negb].
  eapply traced_bind with (P1 := λ _ _, True); [by apply traced_ret|].
  intros [] evs1 _. apply traced_restore.
Qed.

(** [interpretArgs], whatever the kernel answers and however the call
    ends: its events, and what a structural error among them excludes. *)
Lemma interpretArgs_events args arg_count s :
  ∃ evs,
    steps (λ _, true) s (final (interpretArgs args arg_count s)) evs ∧
    (existsb structural evs = true → forallb scan_event evs = true).
Proof.
  unfold interpretArgs, mbind, M_bind.
  destruct (traced_loop arg_count args arg_count 0 (locals_init arg_count) s)
    as (evs1 & Hs1 & HP).
  destruct (interpretArgs_loop _ _ _ _ _ s) as [l' s1|h s1]; cbn in Hs1.
  - destruct HP as [_ Hquiet]. destruct (error l') eqn:He.
    + destruct (traced_finish_error l' He s1) as (evs2 & Hs2 & _).
      exists (evs1 ++ evs2). split.
      * eapply steps_trans.
        -- eapply steps_weaken; [|exact Hs1]. done.
        -- eapply steps_weaken; [|exact Hs2]. done.
      * intros _. rewrite forallb_app.
        destruct Hs1 as (_ & -> & _). destruct Hs2 as (_ & H2 & _).
        revert H2. apply forallb_impl, quiet_scan.
    + destruct (traced_finish l' s1) as (evs2 & Hs2 & _).
      exists (evs1 ++ evs2). split.
      * eapply steps_trans.
        -- eapply steps_weaken; [|exact Hs1]. done.
        -- eapply steps_weaken; [|exact Hs2]. done.
      * rewrite existsb_app. rewrite orb_true_iff.
        destruct Hs2 as (_ & H2 & _). specialize (Hquiet eq_refl).
        intros [H|H]; exfalso.
        -- apply existsb_exists in H as (e & Hin & He').
           rewrite forallb_forall in Hquiet. specialize (Hquiet e Hin).
           by rewrite He' in Hquiet.
        -- apply existsb_exists in H as (e & Hin & He').
           rewrite forallb_forall in H2. specialize (H2 e Hin).
           unfold plain_event in H2. by rewrite He' in H2.
  - exists evs1. split.
    + eapply steps_weaken; [|exact Hs1]. done.
    + intros _. apply Hs1.
Qed.

Lemma added_steps {A} Q s (r : res A) evs :
  steps Q s (final r) evs → added s r = evs.
Proof.
  intros (Ht & _). unfold added. rewrite Ht. apply drop_app_length.
Qed.

Lemma structural_error_existsb evs :
  structural_error evs → existsb structural evs = true.
Proof.
  intros [H|H]; apply existsb_exists; eexists;
    (split; [apply list_elem_of_In, H|done]).
Qed.

Lemma scan_events_no_spawn evs :
  forallb scan_event evs = true → no_spawn evs.
Proof. apply forallb_impl, scan_not_fork. Qed.

(** C4. A redirect token scanned while a redirect is set makes the scan
    stop with [DuplicateRedirect], a pipe token scanned while a pipe target
    is set makes it stop with [DuplicatePipe]; and a command for which
    either is reported spawns no process. *)
Theorem duplicate_control_token args arg_count s :
  (∀ fuel arg l p,
     arg < arg_count → error l = false → at_index args arg = Some p →
     (redirect_char (char_at s p) = true → redirected l = true →
      interpretArgs_loop (S fuel) args arg_count arg l s =
        Ok (set_error l) (log (Stderr DuplicateRedirect) s)) ∧
     (is_char (char_at s p) "|" = true → pipe l = true →
      interpretArgs_loop (S fuel) args arg_count arg l s =
        Ok (set_error l) (log (Stderr DuplicatePipe) s))) ∧
  (structural_error (added s (interpretArgs args arg_count s)) →
   no_spawn (added s (interpretArgs args arg_count s))).
Proof.
  split.
  - intros fuel arg l p Harg Herr Hp.
    assert (∀ l' s', error l' = true →
              interpretArgs_loop fuel args arg_count (S arg) l' s' = Ok l' s')
      as Hstop.
    { intros l' s' He. destruct fuel; cbn; rewrite He;
        by rewrite andb_false_r. }
    split.
    + intros Hc Hr. cbn [interpretArgs_loop].
      rewrite bool_decide_eq_true_2, Herr by done. cbn [negb andb].
      unfold interpretArgs_body, mbind, M_bind, gets. rewrite Hp.
      unfold redirect_char in Hc. rewrite Hc, Hr. cbn.
      by apply Hstop.
    + intros Hc Hr. cbn [interpretArgs_loop].
      rewrite bool_decide_eq_true_2, Herr by done. cbn [negb andb].
      unfold interpretArgs_body, mbind, M_bind, gets. rewrite Hp.
      assert (is_char (char_at s p) "<" || is_char (char_at s p) ">" = false)
        as ->.
      { unfold is_char in *. apply Ascii.eqb_eq in Hc as ->. done. }
      rewrite Hc, Hr. cbn. by apply Hstop.
  - destruct (interpretArgs_events args arg_count s) as (evs & Hs & H).
    rewrite (added_steps _ _ _ _ Hs). intros Hse.
    apply scan_events_no_spawn, H. by apply structural_error_existsb.
Qed.

(** X16. What does hold when the scan of a command stops at a
    structural error: no process is spawned and nothing is run, the events
    of the command are those of the scan. The redirect token scanned before
    the error has been applied, though: a file differs from what it was
    only if [creat] was called on it, as it is for the file named after a
    [>] token. *)
Theorem structural_error_effects args arg_count s :
  let r := interpretArgs args arg_count s in
  structural_error (added s r) →
  forallb scan_event (added s r) = true ∧
  no_spawn (added s r) ∧
  same_memory s (final r) ∧
  (∀ path, fs (final r) !! path ≠ fs s !! path →
     ∃ mode fd, SysCreat path mode fd ∈ added s r ∧ fd ≠ (-1)%Z).
Proof.
  cbn zeta.
  destruct (interpretArgs_events args arg_count s) as (evs & Hs & H).
  rewrite (added_steps _ _ _ _ Hs). intros Hse.
  apply structural_error_existsb in Hse. specialize (H Hse).
  split_and!; [done|by apply scan_events_no_spawn|apply Hs..].
Qed.

End steps.

(** ** The descriptor table *)

Section descriptors.

Implicit Types (s : shell) (l : locals) (t : gmap Z ofile).

Lemma lowest_free_spec t limit fd :
  lowest_free t limit = Some fd → t !! fd = None ∧ (0 ≤ fd)%Z.
Proof.
  unfold lowest_free.
  destruct (List.find _ _) as [n|] eqn:E; [|done].
  intros [= <-]. apply find_some in E as [_ E].
  apply bool_decide_eq_true in E. split; [done|lia].
Qed.

Lemma lowest_free_is_Some t limit (a : nat) :
  a < limit → t !! Z.of_nat a = None → is_Some (lowest_free t limit).
Proof.
  intros Ha Hfree. unfold lowest_free.
  destruct (List.find _ _) as [n|] eqn:E; [by eexists|].
  exfalso. eapply find_none in E; [|apply in_seq; split; [lia|cbn; exact Ha]].
  cbn in E. by rewrite bool_decide_eq_true_2 in E.
Qed.

Lemma room_second s fd o :
  room_for_two s →
  is_Some (lowest_free (<[fd := o]> (fds s)) (fd_limit s)).
Proof.
  intros (a & b & Hab & Ha & Hb & Hfa & Hfb).
  destruct (decide (fd = Z.of_nat a)) as [->|Hne].
  - apply (lowest_free_is_Some _ _ b); [done|].
    rewrite lookup_insert_ne by lia. done.
  - apply (lowest_free_is_Some _ _ a); [done|].
    by rewrite lookup_insert_ne.
Qed.

(** The swap of [redirectToFile], when the file could be opened: [dest]
    refers to the file, the descriptor returned to what [dest] referred
    to, and the descriptor of the file is closed again. *)
Lemma redirect_swap fd dest err s1 t0 o f :
  fds s1 = <[fd := f]> t0 →
  t0 !! fd = None → (0 ≤ fd)%Z →
  t0 !! dest = Some o → (0 ≤ dest)%Z →
  is_Some (lowest_free (fds s1) (fd_limit s1)) →
  ∃ saved s',
    (redirect fd dest err ≫= λ '(std_tmp_copy, error),
       sys_close fd;; mret (std_tmp_copy, error)) s1 = Ok (saved, err) s' ∧
    trace s' =
      trace s1 ++ [SysDup dest saved; SysDup2 fd dest dest; SysClose fd] ∧
    (0 ≤ saved)%Z ∧ saved ≠ dest ∧ saved ≠ fd ∧ t0 !! saved = None ∧
    fds s' = <[dest := f]> (<[saved := o]> t0) ∧
    forks s' = forks s1 ∧ fd_limit s' = fd_limit s1 ∧ fs s' = fs s1.
Proof.
  intros Hfds Hfd Hfd0 Hdest Hdest0 [saved Hsaved].
  assert (fd ≠ dest) as Hne by congruence.
  destruct (lowest_free_spec _ _ _ Hsaved) as [Hfree Hs0].
  rewrite Hfds in Hfree.
  assert (saved ≠ fd) as Hsf.
  { intros ->. by rewrite lookup_insert_eq in Hfree. }
  rewrite lookup_insert_ne in Hfree by done.
  assert (saved ≠ dest) as Hsd by congruence.
  exists saved. eexists.
  unfold redirect, mbind, M_bind, sys_dup, sys_dup2, sys_close, fd_lookup.
  assert (dest ≠ (-1)%Z) as Hd1 by lia.
  rewrite (bool_decide_eq_true_2 _ Hdest0).
  rewrite (bool_decide_eq_true_2 _ Hfd0).
  rewrite Hfds, lookup_insert_ne, Hdest by done.
  rewrite <- Hfds, Hsaved. cbn.
  rewrite Hfds, lookup_insert_ne, lookup_insert_eq by done. cbn.
  rewrite (bool_decide_eq_false_2 _ Hd1). cbn.
  split; [reflexivity|]. cbn. split; [by rewrite <- !app_assoc|].
  split_and!; try done.
  apply map_eq. intros k.
  destruct (decide (k = fd)) as [->|Hk].
  - rewrite lookup_delete_eq. by rewrite !lookup_insert_ne.
  - rewrite lookup_delete_ne by done.
    destruct (decide (k = dest)) as [->|Hk2].
    + by rewrite !lookup_insert_eq.
    + rewrite !(lookup_insert_ne _ dest) by done.
      destruct (decide (k = saved)) as [->|Hk3].
      * by rewrite !lookup_insert_eq.
      * by rewrite !lookup_insert_ne.
Qed.

Lemma bind_ok {A B} (m : M A) (f : A → M B) s a s1 :
  m s = Ok a s1 → (m ≫= f) s = f a s1.
Proof. intros H. unfold mbind, M_bind. by rewrite H. Qed.

Lemma bind_halt {A B} (m : M A) (f : A → M B) s h s1 :
  m s = Halt h s1 → (m ≫= f) s = Halt h s1.
Proof. intros H. unfold mbind, M_bind. by rewrite H. Qed.

(** What [open] and [creat] answer and leave. *)
Lemma sys_open_result path mode s :
  ∃ fd s1,
    sys_open path mode s = Ok fd s1 ∧
    trace s1 = trace s ++ [SysOpen path mode fd] ∧
    forks s1 = forks s ∧ fd_limit s1 = fd_limit s ∧ fs s1 = fs s ∧
    ((fd = (-1)%Z ∧ fds s1 = fds s) ∨
     ((0 ≤ fd)%Z ∧ fds s !! fd = None ∧
      fds s1 = <[fd := FileRead path]> (fds s))).
Proof.
  unfold sys_open.
  destruct (fs s !! path) as [f|];
    [|eexists _, _; split_and!; [done..|left; split_and!; done]].
  destruct (lowest_free (fds s) (fd_limit s)) as [fd|] eqn:Hfd;
    [|eexists _, _; split_and!; [done..|left; split_and!; done]].
  destruct (owner_may_read f);
    [|eexists _, _; split_and!; [done..|left; split_and!; done]].
  destruct (lowest_free_spec _ _ _ Hfd).
  eexists _, _; split_and!; [done..|right; split_and!; done].
Qed.

Lemma sys_creat_result path mode s :
  ∃ fd s1,
    sys_creat path mode s = Ok fd s1 ∧
    trace s1 = trace s ++ [SysCreat path mode fd] ∧
    forks s1 = forks s ∧ fd_limit s1 = fd_limit s ∧
    ((fd = (-1)%Z ∧ fds s1 = fds s ∧ fs s1 = fs s) ∨
     ((0 ≤ fd)%Z ∧ fds s !! fd = None ∧
      fds s1 = <[fd := FileWrite path]> (fds s) ∧
      fs s1 = <[path := File (default mode (f_mode <$> fs s !! path))
                           EmptyString]> (fs s))).
Proof.
  unfold sys_creat.
  destruct (lowest_free (fds s) (fd_limit s)) as [fd|] eqn:Hfd;
    [|eexists _, _; split_and!; [done..|left; split_and!; done]].
  destruct (lowest_free_spec _ _ _ Hfd).
  destruct (fs s !! path) as [f|];
    [|eexists _, _; split_and!; [done..|right; split_and!; done]].
  destruct (owner_may_write f);
    [|eexists _, _; split_and!; [done..|left; split_and!; done]].
  eexists _, _; split_and!; [done..|right; split_and!; done].
Qed.

(** [redirectToFile] on an open descriptor, in a table with room: either
    it fails, returns -1 and leaves the table alone, or it leaves [dest]
    redirected and returns a descriptor for what [dest] referred to. *)
Lemma redirectToFile_table file dest err s o :
  fds s !! dest = Some o → (0 ≤ dest)%Z → room_for_two s →
  ∃ from err' s',
    redirectToFile file dest err s = Ok (from, err') s' ∧
    forks s' = forks s ∧ fd_limit s' = fd_limit s ∧
    ((from = (-1)%Z ∧ fds s' = fds s) ∨
     (∃ f, (0 ≤ from)%Z ∧ from ≠ dest ∧ fds s !! from = None ∧
           fds s' = <[dest := f]> (<[from := o]> (fds s)))).
Proof.
  intros Hdest Hdest0 Hroom. unfold redirectToFile.
  destruct file as [p|]; cycle 1.
  { eexists _, _, _. split; [reflexivity|]. split_and!; [done..|by left]. }
  rewrite (bind_ok _ _ s (load_str s p) s) by done.
  set (path := load_str s p).
  assert (∀ fd s1 f,
            forks s1 = forks s → fd_limit s1 = fd_limit s →
            (0 ≤ fd)%Z → fds s !! fd = None →
            fds s1 = <[fd := f]> (fds s) →
            ∃ from err' s',
              (redirect fd dest err ≫= λ '(std_tmp_copy, error),
                 sys_close fd;; mret (std_tmp_copy, error)) s1 =
                Ok (from, err') s' ∧
              forks s' = forks s ∧ fd_limit s' = fd_limit s ∧
              ((from = (-1)%Z ∧ fds s' = fds s) ∨
               (∃ f, (0 ≤ from)%Z ∧ from ≠ dest ∧ fds s !! from = None ∧
                     fds s' = <[dest := f]> (<[from := o]> (fds s)))))
    as Hswap.
  { intros fd s1 f Hk Hl Hfd0 Hfd Hfds.
    destruct (redirect_swap fd dest err s1 (fds s) o f)
      as (saved & s' & E & _ & ? & ? & ? & ? & ? & ? & ? & _); try done.
    { rewrite Hfds, Hl. by apply room_second. }
    exists saved, err, s'. split; [done|]. split_and!; [congruence..|].
    right. by exists f. }
  case_bool_decide.
  - destruct (sys_open_result path (Z.lor S_IRUSR S_IWUSR) s)
      as (fd & s1 & E & _ & Hk & Hl & _ & [[-> Hfds]|(Hfd0 & Hfd & Hfds)]);
      rewrite (bind_ok _ _ _ _ _ E).
    + rewrite bool_decide_eq_true_2 by done.
      eexists _, _, _. split; [reflexivity|]. cbn.
      split_and!; [done..|by left].
    + rewrite bool_decide_eq_false_2 by lia. by eapply Hswap.
  - destruct (sys_creat_result path (Z.lor S_IRUSR S_IWUSR) s)
      as (fd & s1 & E & _ & Hk & Hl & [(-> & Hfds & _)|(Hfd0 & Hfd & Hfds & _)]);
      rewrite (bind_ok _ _ _ _ _ E).
    + rewrite bool_decide_eq_true_2 by done.
      eexists _, _, _. split; [reflexivity|]. cbn.
      split_and!; [done..|by left].
    + rewrite bool_decide_eq_false_2 by lia. by eapply Hswap.
Qed.

Lemma room_for_two_same s s0 :
  fds s = fds s0 → fd_limit s = fd_limit s0 →
  room_for_two s0 → room_for_two s.
Proof. unfold room_for_two. by intros -> ->. Qed.

(** A turn of the scan keeps the table restorable. *)
Lemma body_restorable args arg l s s0 :
  std_open s0 → room_for_two s0 → fd_limit s = fd_limit s0 →
  restorable (fds s0) l (fds s) →
  match interpretArgs_body args arg l s with
  | Ok (_, l') s' =>
      forks s' = forks s ∧ fd_limit s' = fd_limit s ∧
      restorable (fds s0) l' (fds s')
  | Halt _ _ => at_index args arg = None
  end.
Proof.
  intros [[o0 H0] [o1 H1]] Hroom Hlim Hres. unfold interpretArgs_body.
  destruct (at_index args arg) as [p|]; [|done].
  rewrite (bind_ok _ _ s (char_at s p) s) by done.
  set (c := char_at s p).
  destruct (is_char c "<" || is_char c ">").
  { destruct (redirected l) eqn:Hred.
    - run_m. unfold restorable in *. cbn. by rewrite Hred in *.
    - unfold restorable in Hres. rewrite Hred in Hres.
      set (to := if is_char c "<" then STDIN_FILENO else STDOUT_FILENO).
      assert (∃ o, fds s !! to = Some o ∧ (0 ≤ to)%Z) as (o & Hto & Hto0).
      { rewrite Hres. subst to.
        destruct (is_char c "<"); eexists; (split; [eassumption|done]). }
      destruct (redirectToFile_table (at_index args (S arg)) to (error l)
                  s o Hto Hto0)
        as (from & err' & s' & E & Hk & Hl & Hfds).
      { by eapply room_for_two_same. }
      rewrite (bind_ok _ _ _ _ _ E). run_m. split_and!; [done..|].
      unfold restorable. cbn.
      destruct Hfds as [[-> ->]|(f & ? & ? & ? & ->)].
      + left. by rewrite Hres.
      + right. exists o, f. rewrite <- Hres. by split_and!. }
  destruct (is_char c "|").
  { destruct (pipe l); run_m; by unfold restorable in *. }
  destruct (is_char c "&"); run_m; by unfold restorable in *.
Qed.

Lemma loop_restorable fuel args arg_count s0 :
  std_open s0 → room_for_two s0 →
  ∀ arg l s,
    fd_limit s = fd_limit s0 →
    restorable (fds s0) l (fds s) →
    match interpretArgs_loop fuel args arg_count arg l s with
    | Ok l' s' =>
        forks s' = forks s ∧ fd_limit s' = fd_limit s ∧
        restorable (fds s0) l' (fds s')
    | Halt _ _ => ∃ k, k < arg_count ∧ at_index args k = None
    end.
Proof.
  intros Hstd Hroom.
  induction fuel as [|fuel IH]; intros arg l s Hlim Hres;
    cbn [interpretArgs_loop].
  - by destruct (bool_decide (arg < arg_count) && negb (error l)).
  - destruct (bool_decide (arg < arg_count) && negb (error l)) eqn:Hc;
      [|done].
    apply andb_true_iff in Hc as [Harg%bool_decide_eq_true _].
    pose proof (body_restorable args arg l s s0 Hstd Hroom Hlim Hres) as Hb.
    destruct (interpretArgs_body args arg l s) as [[arg' l'] s1|h s1] eqn:E.
    + rewrite (bind_ok _ _ _ _ _ E). destruct Hb as (Hk & Hl & Hres1).
      specialize (IH (S arg') l' s1). rewrite Hl in IH.
      specialize (IH Hlim Hres1).
      destruct (interpretArgs_loop fuel args arg_count (S arg') l' s1);
        [|done].
      destruct IH as (? & ? & ?). split_and!; congruence.
    + rewrite (bind_halt _ _ _ _ _ E). eauto.
Qed.

(** In the interpreter [fork] comes back with a pid or with -1, and the
    table is not touched. *)
Lemma forkInto_parent args _wait s :
  never_child s →
  ∃ s', forkInto args _wait s = Ok tt s' ∧ fds s' = fds s ∧
        never_child s'.
Proof.
  unfold never_child, forkInto, mbind, M_bind, sys_fork. intros Hnc.
  destruct (forks s) as [|[| |pid] k] eqn:E.
  - eexists. split; [reflexivity|]. cbn. by rewrite E.
  - eexists. split; [reflexivity|]. cbn. by inversion Hnc.
  - by inversion Hnc.
  - destruct _wait; eexists; (split; [reflexivity|]); cbn;
      by inversion Hnc.
Qed.

Lemma forkAndPipeInto_parent args dest_prog _wait s :
  never_child s →
  ∃ s', forkAndPipeInto args dest_prog _wait s = Ok tt s' ∧
        fds s' = fds s ∧ never_child s'.
Proof.
  unfold never_child, forkAndPipeInto, mbind, M_bind, sys_fork. intros Hnc.
  destruct (forks s) as [|[| |pid] k] eqn:E.
  - eexists. split; [reflexivity|]. cbn. by rewrite E.
  - eexists. split; [reflexivity|]. cbn. by inversion Hnc.
  - by inversion Hnc.
  - destruct _wait; eexists; (split; [reflexivity|]); cbn;
      by inversion Hnc.
Qed.

(** Putting the descriptor back gives the table the command started
    from. *)
Lemma restore_table t0 l s :
  restorable t0 l (fds s) →
  ∃ s',
    ((if redirected l then
        _ ← sys_dup2 (redirected_from l) (redirected_to l);
        sys_close (redirected_from l)
      else mret tt) : M unit) s = Ok tt s' ∧
    fds s' = t0 ∧ forks s' = forks s.
Proof.
  unfold restorable. destruct (redirected l); [|by eexists].
  intros [[Hfrom Hfds]|(o & f & Hto0 & Hfrom0 & Hne & Hto & Hfrom & Hfds)].
  - rewrite Hfrom. eexists. split; [reflexivity|]. by cbn.
  - unfold mbind, M_bind, sys_dup2, sys_close, fd_lookup.
    rewrite (bool_decide_eq_true_2 _ Hfrom0).
    rewrite (bool_decide_eq_true_2 _ Hto0).
    rewrite Hfds, lookup_insert_ne, lookup_insert_eq by done.
    eexists. split; [reflexivity|]. cbn. split; [|done].
    apply map_eq. intros k.
    destruct (decide (k = redirected_from l)) as [->|Hk].
    { by rewrite lookup_delete_eq. }
    rewrite lookup_delete_ne by done.
    destruct (decide (k = redirected_to l)) as [->|Hk2].
    { by rewrite lookup_insert_eq. }
    by rewrite !lookup_insert_ne.
Qed.

Lemma finish_table t0 l s :
  restorable t0 l (fds s) → never_child s →
  ∃ s', interpretArgs_finish l s = Ok tt s' ∧ fds s' = t0 ∧
        never_child s'.
Proof.
  intros Hres Hnc. unfold interpretArgs_finish.
  assert (∃ s1,
            ((if negb (error l) then
                if pipe l
                then forkAndPipeInto (exec_args l) (pipe_prog l) (wait l)
                else forkInto (exec_args l) (wait l)
              else mret tt) : M unit) s = Ok tt s1 ∧
            fds s1 = fds s ∧ never_child s1) as (s1 & E & Hfds & Hnc1).
  { destruct (error l); cbn [negb]; [by eexists|].
    destruct (pipe l);
      [by apply forkAndPipeInto_parent|by apply forkInto_parent]. }
  rewrite (bind_ok _ _ _ _ _ E). rewrite <- Hfds in Hres.
  destruct (restore_table t0 l s1 Hres) as (s' & E' & ? & Hk).
  exists s'. split_and!; [done..|]. unfold never_child. by rewrite Hk.
Qed.

(** [interpretArgs] in the interpreter: it returns, and the descriptor
    table is the one it started from. *)
Lemma interpretArgs_restores args arg_count s :
  std_open s → room_for_two s → never_child s →
  (∀ k, k < arg_count → is_Some (at_index args k)) →
  ∃ s', interpretArgs args arg_count s = Ok tt s' ∧ fds s' = fds s ∧
        never_child s'.
Proof.
  intros Hstd Hroom Hnc Hargs. unfold interpretArgs.
  pose proof (loop_restorable arg_count args arg_count s Hstd Hroom
                0 (locals_init arg_count) s eq_refl eq_refl) as Hloop.
  destruct (interpretArgs_loop _ _ _ _ _ s) as [l' s1|h s1] eqn:E.
  - rewrite (bind_ok _ _ _ _ _ E). destruct Hloop as (Hk & _ & Hres).
    apply finish_table; [done|]. unfold never_child. by rewrite Hk.
  - destruct Hloop as (k & Hk & Hnone).
    destruct (Hargs k Hk) as [? ?]. congruence.
Qed.

Lemma sys_dup_calls fd s :
  ∃ r s1, sys_dup fd s = Ok r s1 ∧ trace s1 = trace s ++ [SysDup fd r].
Proof. unfold sys_dup. repeat case_match; by eexists _, _. Qed.

Lemma sys_dup2_calls src dst s :
  ∃ r s1, sys_dup2 src dst s = Ok r s1 ∧
          trace s1 = trace s ++ [SysDup2 src dst r].
Proof. unfold sys_dup2. repeat case_match; by eexists _, _. Qed.

Lemma sys_close_calls fd s :
  ∃ s1, sys_close fd s = Ok tt s1 ∧ trace s1 = trace s ++ [SysClose fd].
Proof. unfold sys_close. case_bool_decide; by eexists. Qed.

(** The calls of [redirect], in every state: [dup], then [dup2], and the
    report when [dup2] fails; what [dup] returned is returned. *)
Lemma redirect_calls source dest err s :
  ∃ saved r s',
    redirect source dest err s =
      Ok (saved, if bool_decide (r = (-1)%Z) then true else err) s' ∧
    trace s' =
      trace s ++ [SysDup dest saved; SysDup2 source dest r] ++
        (if bool_decide (r = (-1)%Z) then [Stderr RedirectFailure] else []).
Proof.
  unfold redirect.
  destruct (sys_dup_calls dest s) as (saved & s1 & E1 & Ht1).
  rewrite (bind_ok _ _ _ _ _ E1).
  destruct (sys_dup2_calls source dest s1) as (r & s2 & E2 & Ht2).
  rewrite (bind_ok _ _ _ _ _ E2).
  exists saved, r. case_bool_decide; run_m; eexists; (split; [reflexivity|]);
    cbn; rewrite ?Ht2, ?Ht1, <- ?app_assoc; done.
Qed.

(** X7. The calls of [redirectToFile], whatever the kernel answers.
    Without a path it reports [MissingPath], sets [error] and returns -1,
    with no call. With one it calls [open] for standard input and [creat]
    else, with the permission bits 0600. When that call returns -1 it
    reports [FileOpenFailure] with the path, sets [error] and returns -1,
    and the descriptor table is what it was. When it returns a descriptor,
    [dup(dest)], [dup2(fd, dest)] and [close(fd)] are called in this order,
    with [RedirectFailure] reported and [error] set exactly when [dup2]
    returned -1, and what [dup] returned is returned. If moreover [dest]
    is open and not negative and the table has two free entries, [dup2]
    succeeds, [dest] then refers to the file, the descriptor returned is a
    fresh one that refers to what [dest] referred to, and the descriptor
    of the file is closed. *)
Theorem redirectToFile_contract (file : option ptr) (dest : Z) (err : bool) s :
  match file with
  | None =>
      redirectToFile file dest err s =
        Ok ((-1)%Z, true) (log (Stderr MissingPath) s)
  | Some p =>
      let path := load_str s p in
      let mode := Z.lor S_IRUSR S_IWUSR in
      let target :=
        if bool_decide (dest = STDIN_FILENO) then FileRead path
        else FileWrite path in
      mode = 384%Z ∧
      ∃ fd s1,
        (if bool_decide (dest = STDIN_FILENO) then
           sys_open path mode s = Ok fd s1 ∧
           trace s1 = trace s ++ [SysOpen path mode fd] ∧ fs s1 = fs s
         else
           sys_creat path mode s = Ok fd s1 ∧
           trace s1 = trace s ++ [SysCreat path mode fd] ∧
           (fd ≠ (-1)%Z →
            fs s1 = <[path := File (default mode (f_mode <$> fs s !! path))
                                 EmptyString]> (fs s))) ∧
        (fd = (-1)%Z →
           redirectToFile file dest err s =
             Ok ((-1)%Z, true) (log (Stderr (FileOpenFailure path)) s1) ∧
           fds s1 = fds s) ∧
        (fd ≠ (-1)%Z →
         (∃ saved r s',
            redirectToFile file dest err s =
              Ok (saved, if bool_decide (r = (-1)%Z) then true else err) s' ∧
            trace s' =
              trace s1 ++ [SysDup dest saved; SysDup2 fd dest r] ++
                (if bool_decide (r = (-1)%Z) then [Stderr RedirectFailure]
                 else []) ++
                [SysClose fd]) ∧
         (∀ o, fds s !! dest = Some o → (0 ≤ dest)%Z → room_for_two s →
            ∃ saved s',
              redirectToFile file dest err s = Ok (saved, err) s' ∧
              trace s' =
                trace s1 ++
                  [SysDup dest saved; SysDup2 fd dest dest; SysClose fd] ∧
              fds s' !! dest = Some target ∧
              fds s' !! saved = Some o ∧ saved ≠ dest ∧
              fds s !! saved = None ∧
              fds s' !! fd = None))
  end.
Proof.
  destruct file as [p|]; [|done]. cbn zeta. split; [done|].
  set (path := load_str s p). set (mode := Z.lor S_IRUSR S_IWUSR).
  unfold redirectToFile. rewrite (bind_ok _ _ s path s) by done.
  assert (∀ fd s1,
            ∃ saved r s',
              (redirect fd dest err ≫= λ '(std_tmp_copy, error),
                 sys_close fd;; mret (std_tmp_copy, error)) s1 =
                Ok (saved, if bool_decide (r = (-1)%Z) then true else err)
                   s' ∧
              trace s' =
                trace s1 ++ [SysDup dest saved; SysDup2 fd dest r] ++
                  (if bool_decide (r = (-1)%Z) then [Stderr RedirectFailure]
                   else []) ++
                  [SysClose fd]) as Hcalls.
  { intros fd s1.
    destruct (redirect_calls fd dest err s1) as (saved & r & s2 & E & Ht).
    rewrite (bind_ok _ _ _ _ _ E).
    destruct (sys_close_calls fd s2) as (s3 & E3 & Ht3).
    rewrite (bind_ok _ _ _ _ _ E3).
    exists saved, r, s3. split; [done|].
    rewrite Ht3, Ht, <- !app_assoc. done. }
  assert (∀ fd s1 f o,
            fd_limit s1 = fd_limit s →
            (0 ≤ fd)%Z → fds s !! fd = None →
            fds s1 = <[fd := f]> (fds s) →
            fds s !! dest = Some o → (0 ≤ dest)%Z → room_for_two s →
            ∃ saved s',
              (redirect fd dest err ≫= λ '(std_tmp_copy, error),
                 sys_close fd;; mret (std_tmp_copy, error)) s1 =
                Ok (saved, err) s' ∧
              trace s' =
                trace s1 ++
                  [SysDup dest saved; SysDup2 fd dest dest; SysClose fd] ∧
              fds s' !! dest = Some f ∧
              fds s' !! saved = Some o ∧ saved ≠ dest ∧
              fds s !! saved = None ∧
              fds s' !! fd = None) as Hswap.
  { intros fd s1 f o Hl Hfd0 Hfd Hfds Hdest Hdest0 Hroom.
    destruct (redirect_swap fd dest err s1 (fds s) o f)
      as (saved & s' & E & Htr & ? & ? & ? & ? & Hfds' & _); try done.
    { rewrite Hfds, Hl. by apply room_second. }
    exists saved, s'. rewrite Hfds'. split_and!; try done.
    - by rewrite lookup_insert_eq.
    - by rewrite lookup_insert_ne, lookup_insert_eq.
    - assert (fd ≠ dest) by congruence.
      by rewrite !lookup_insert_ne. }
  case_bool_decide as Hd.
  - destruct (sys_open_result path mode s)
      as (fd & s1 & E & Htr & _ & Hl & Hfs & Hres).
    exists fd, s1. rewrite (bind_ok _ _ _ _ _ E). split; [done|]. split.
    + intros ->. rewrite bool_decide_eq_true_2 by done. run_m.
      split; [done|]. by destruct Hres as [[_ ?]|[? _]].
    + intros Hne. rewrite bool_decide_eq_false_2 by done.
      split; [apply Hcalls|].
      destruct Hres as [[? _]|(Hfd0 & Hfd & Hfds)]; [done|].
      intros o. by apply Hswap.
  - destruct (sys_creat_result path mode s)
      as (fd & s1 & E & Htr & _ & Hl & Hres).
    exists fd, s1. rewrite (bind_ok _ _ _ _ _ E). split; [|split].
    + split_and!; [done..|]. intros Hne.
      by destruct Hres as [[? _]|(_ & _ & _ & ?)].
    + intros ->. rewrite bool_decide_eq_true_2 by done. run_m.
      split; [done|]. by destruct Hres as [(_ & ? & _)|[? _]].
    + intros Hne. rewrite bool_decide_eq_false_2 by done.
      split; [apply Hcalls|].
      destruct Hres as [[? _]|(Hfd0 & Hfd & Hfds & _)]; [done|].
      intros o. by apply Hswap.
Qed.

End descriptors.

(** ** One turn of the loop of [main] *)

Section turns.

Implicit Types (s : shell) (line : string).

Lemma cstring_bytes line rest :
  nul_free line = true →
  cstring (list_ascii_of_string line ++ NUL :: rest) = line.
Proof.
  unfold nul_free. induction line as [|c line IH]; [done|].
  cbn. intros [Hc Hl]%andb_true_iff.
  apply negb_true_iff in Hc. rewrite Hc. f_equal. by apply IH.
Qed.

Lemma nul_free_newline line :
  nul_free line = true →
  nul_free (line ++ String NEWLINE EmptyString)%string = true.
Proof.
  unfold nul_free. induction line as [|c line IH]; [done|].
  rewrite append_cons. cbn. intros [Hc Hl]%andb_true_iff.
  rewrite Hc. by apply IH.
Qed.

Lemma std_open_same s s' : fds s' = fds s → std_open s → std_open s'.
Proof. unfold std_open. by intros ->. Qed.

Lemma never_child_same s s' :
  forks s' = forks s → never_child s → never_child s'.
Proof. unfold never_child. by intros ->. Qed.

Lemma strrchr_newline_last line :
  strrchr (line ++ String NEWLINE EmptyString)%string NEWLINE =
  Some (String.length line).
Proof.
  induction line as [|c line IH]; [done|].
  rewrite append_cons. cbn. by rewrite IH.
Qed.

Lemma interpretArgs_keeps argv arg_count s :
  let s' := final (interpretArgs argv arg_count s) in
  fd_limit s' = fd_limit s ∧ args s' = args s.
Proof.
  destruct (interpretArgs_events argv arg_count s)
    as (evs & (_ & _ & (_ & _ & _ & Ha & _) & Hl & _) & _).
  by cbn zeta.
Qed.

Lemma read_line_whole line :
  ∀ n,
    forallb (λ c, negb (Ascii.eqb c NEWLINE)) (list_ascii_of_string line)
      = true →
    String.length line < n →
    read_line n (line ++ String NEWLINE EmptyString) =
      (line ++ String NEWLINE EmptyString)%string.
Proof.
  induction line as [|c line IH]; intros n Hnl Hlen.
  - destruct n; [cbn in Hlen; lia|done].
  - destruct n; [cbn in Hlen; lia|].
    rewrite append_cons. cbn in Hnl |- *.
    apply andb_true_iff in Hnl as [Hc Hnl]. apply negb_true_iff in Hc.
    rewrite Hc. f_equal. apply IH; [done|]. cbn in Hlen. lia.
Qed.

Lemma fits_parts line :
  fits line = true →
  nul_free line = true ∧
  read_line (BUFSIZ - 1) (line ++ String NEWLINE EmptyString) =
    (line ++ String NEWLINE EmptyString)%string.
Proof.
  unfold fits. intros [[Hnul Hnl]%andb_true_iff Hlen]%andb_true_iff.
  split; [done|]. apply read_line_whole; [done|].
  by apply Nat.ltb_lt in Hlen.
Qed.

(** A line that fits is in [line_buf] with its newline when line 340 is
    reached. *)
Lemma turn_fits line s :
  fits line = true →
  turn line s =
    serve_line (strcpy LineBuf (line ++ String NEWLINE EmptyString)%string s).
Proof.
  intros [_ Hread]%fits_parts. unfold turn, fgets.
  rewrite Hread. reflexivity.
Qed.

(** The turn from line 340 on, and the descriptor table of the
    interpreter. *)
Lemma serve_line_table s :
  std_open s → room_for_two s → never_child s →
  List.length (args s) = MAX_ARG →
  let s' := final (serve_line s) in
  fds s' = fds s ∧
  (std_open s' ∧ room_for_two s' ∧ never_child s' ∧
   List.length (args s') = MAX_ARG) ∧
  (is_Some (strrchr (cstring (line_buf s)) NEWLINE) →
   ∃ go_on, serve_line s = Ok go_on s').
Proof.
  intros Hstd Hroom Hnc Hlen.
  assert (∀ s', fds s' = fds s → fd_limit s' = fd_limit s →
            never_child s' → List.length (args s') = MAX_ARG →
            fds s' = fds s ∧
            (std_open s' ∧ room_for_two s' ∧ never_child s' ∧
             List.length (args s') = MAX_ARG)) as Hpack.
  { intros s' Hf Hl Hn Ha. split_and!; try done.
    - by eapply std_open_same.
    - by eapply room_for_two_same. }
  assert (∀ s1, same_kernel s s1 → List.length (args s1) = MAX_ARG →
            ∃ go_on s',
              (lift (splitArgs (LineBuf, 0)) ≫= λ arg_count,
               gets (λ s, at_index (args s) 0) ≫= λ args0,
               match args0 with
               | None => fprintf_stderr EmptyCommand;; mret true
               | Some p0 =>
                   cmd ← gets (λ s, load_str s p0);
                   if bool_decide (cmd = "") then
                     fprintf_stderr EmptyCommand;; mret true
                   else if bool_decide (cmd = "exit()")
                           || bool_decide (cmd = "exit") then
                     mret false
                   else if bool_decide (cmd = "!!") then
                     last ← gets (λ s, load_str s (LastLineBuf, 0));
                     if bool_decide (String.length last = 0) then
                       fprintf_stderr NoHistory;; mret true
                     else
                       arg_count ← lift (splitArgs (LastLineBuf, 0));
                       a ← gets args;
                       interpretArgs a arg_count;; mret true
                   else
                     line ← gets (λ s, load_str s (LineBuf, 0));
                     modify (strcpy LastLineBuf line);;
                     a ← gets args;
                     interpretArgs a arg_count;; mret true
               end) s1 = Ok go_on s' ∧
              fds s' = fds s ∧ fd_limit s' = fd_limit s ∧
              never_child s' ∧ List.length (args s') = MAX_ARG) as Hrest.
  { intros s1 Hk1 Hlen1.
    assert (∀ s2 n, same_kernel s s2 → List.length (args s2) = MAX_ARG →
              (∀ k, k < n → ∃ p, args s2 !! k = Some (Some p)) →
              ∃ s', (a ← gets args; interpretArgs a n;; mret true) s2 =
                      Ok true s' ∧
                    fds s' = fds s ∧ fd_limit s' = fd_limit s ∧
                    never_child s' ∧ List.length (args s') = MAX_ARG)
      as Hrun.
    { intros s2 n (Hf & Hl & _ & _ & Hfk) Hlen2 Hargs.
      destruct (interpretArgs_restores (args s2) n s2)
        as (s' & E & Hfds & Hnc').
      - by eapply std_open_same.
      - by eapply room_for_two_same.
      - by eapply never_child_same.
      - intros k Hk. destruct (Hargs k Hk) as [p Hp].
        unfold at_index. rewrite Hp. by eexists.
      - destruct (interpretArgs_keeps (args s2) n s2) as [Hl' Ha'].
        rewrite E in Hl', Ha'. cbn in Hl', Ha'.
        exists s'. run_m. rewrite E.
        split_and!; [done|congruence..|done|congruence]. }
    destruct (splitArgs_frame (LineBuf, 0) s1) as (Hk2 & _).
    destruct (splitArgs_args (LineBuf, 0) s1 Hlen1)
      as (Hlen2 & _ & Hargs2 & _).
    destruct (splitArgs (LineBuf, 0) s1) as [arg_count s2] eqn:Esplit.
    cbn [fst snd] in *.
    pose proof (same_kernel_trans _ _ _ Hk1 Hk2) as Hk.
    assert (never_child s2) as Hnc2.
    { eapply never_child_same; [|exact Hnc]. apply Hk. }
    assert (fds s2 = fds s ∧ fd_limit s2 = fd_limit s) as [Hf2 Hl2].
    { split; apply Hk. }
    run_m. rewrite Esplit.
    destruct (at_index (args s2) 0) as [p0|]; cbn.
    2:{ eexists _, _. split; [reflexivity|]. by cbn. }
    case_bool_decide.
    { eexists _, _. split; [reflexivity|]. by cbn. }
    destruct (bool_decide (load_str s2 p0 = "exit()")
              || bool_decide (load_str s2 p0 = "exit")).
    { eexists _, _. split; [reflexivity|]. done. }
    case_bool_decide.
    - case_bool_decide.
      { eexists _, _. split; [reflexivity|]. by cbn. }
      destruct (splitArgs_frame (LastLineBuf, 0) s2) as (Hk3 & _).
      destruct (splitArgs_args (LastLineBuf, 0) s2 Hlen2)
        as (Hlen3 & _ & Hargs3 & _).
      destruct (splitArgs (LastLineBuf, 0) s2) as [arg_count' s3].
      cbn [fst snd] in *.
      destruct (Hrun s3 arg_count') as (s' & E & Hfds); [|done|done|].
      { by eapply same_kernel_trans. }
      revert E. run_m. intros E. exists true, s'. split; [|done].
      by destruct (interpretArgs (args s3) arg_count' s3).
    - set (s3 := strcpy LastLineBuf (load_str s2 (LineBuf, 0)) s2).
      destruct (Hrun s3 arg_count) as (s' & E & Hfds); [done|done|done|].
      revert E. run_m. intros E. exists true, s'. split; [|done].
      fold s3. by destruct (interpretArgs (args s2) arg_count s3). }
  assert (∀ i, same_kernel s
            (set_buffer LineBuf (<[i:=NUL]> (line_buf s)) s)) as Hk by done.
  cbn zeta. unfold serve_line, chomp. run_m.
  destruct (strrchr _ _) as [i|] eqn:Echomp.
  - destruct (Hrest _ (Hk i)) as (go_on & s' & E' & Hfds & Hl & Hn & Ha);
      [done|].
    revert E'. run_m. intros ->. cbn.
    destruct (Hpack s') as (? & ? & ? & ? & ?); try done.
    split_and!; try done. intros _. by exists go_on.
  - cbn. destruct (Hpack s) as (? & ? & ? & ? & ?); try done.
Qed.

(** A turn of the interpreter and its descriptor table. *)
Lemma turn_table line s :
  std_open s → room_for_two s → never_child s →
  List.length (args s) = MAX_ARG →
  let s' := final (turn line s) in
  fds s' = fds s ∧
  (std_open s' ∧ room_for_two s' ∧ never_child s' ∧
   List.length (args s') = MAX_ARG) ∧
  (fits line = true → ∃ go_on, turn line s = Ok go_on s').
Proof.
  intros Hstd Hroom Hnc Hlen. cbn zeta.
  set (bytes := read_line (BUFSIZ - 1) (line ++ String NEWLINE EmptyString)).
  assert (turn line s = serve_line (strcpy LineBuf bytes s)) as E
    by reflexivity.
  rewrite E.
  destruct (serve_line_table (strcpy LineBuf bytes s))
    as (Hfds & Hinv & Hret); [exact Hstd|exact Hroom|exact Hnc|exact Hlen|].
  split; [exact Hfds|]. split; [exact Hinv|]. intros Hfits. apply Hret.
  apply fits_parts in Hfits as [Hnul Hread]. subst bytes. rewrite Hread.
  cbn. unfold strcpy_bytes.
  rewrite cstring_bytes by by apply nul_free_newline.
  by rewrite strrchr_newline_last.
Qed.


(** At the end of the input too. *)
Lemma eof_loop_table turns :
  ∀ s,
    std_open s → room_for_two s → never_child s →
    List.length (args s) = MAX_ARG →
    fds (final (eof_loop turns s)) = fds s.
Proof.
  induction turns as [|turns IH]; intros s H1 H2 H3 H4;
    destruct (serve_line_table s H1 H2 H3 H4)
      as (Hfds & (H1' & H2' & H3' & H4') & _);
    cbn [eof_loop]; unfold mbind, M_bind;
    destruct (serve_line s) as [go_on s'|h s']; cbn in *; try done.
  destruct go_on; [|done]. rewrite IH; done.
Qed.

(** So the table is the same after any number of lines. *)
Corollary session_restores_descriptors lines :
  ∀ s,
    std_open s → room_for_two s → never_child s →
    List.length (args s) = MAX_ARG →
    fds (final (main_loop lines s)) = fds s.
Proof.
  induction lines as [|line lines IH]; intros s H1 H2 H3 H4.
  { cbn [main_loop]. by apply eof_loop_table. }
  destruct (turn_table line s H1 H2 H3 H4)
    as (Hfds & (H1' & H2' & H3' & H4') & _).
  cbn [main_loop]. unfold mbind, M_bind.
  destruct (turn line s) as [go_on s'|h s']; cbn in *; [|done].
  destruct go_on; [|done]. rewrite IH; done.
Qed.

Lemma bytes_chomped line rest :
  nul_free line = true →
  cstring (<[String.length line := NUL]>
             (list_ascii_of_string (line ++ String NEWLINE EmptyString)
              ++ rest)) = line.
Proof.
  unfold nul_free. induction line as [|c line IH]; [done|].
  rewrite append_cons. cbn. intros [Hc Hl]%andb_true_iff.
  apply negb_true_iff in Hc. rewrite Hc. f_equal. by apply IH.
Qed.

(** What [main] finds in [line_buf] once the line is read and its newline
    cut off: the line. *)
Lemma chomp_line line s :
  nul_free line = true →
  ∃ s1,
    chomp (strcpy LineBuf (line ++ String NEWLINE EmptyString)%string s)
      = Ok tt s1 ∧
    load_str s1 (LineBuf, 0) = line ∧
    same_kernel s s1 ∧ trace s1 = trace s ∧ args s1 = args s ∧
    last_line_buf s1 = last_line_buf s.
Proof.
  intros Hline. unfold chomp. cbn. unfold strcpy_bytes.
  rewrite cstring_bytes by by apply nul_free_newline.
  rewrite strrchr_newline_last. eexists. split; [reflexivity|].
  split_and!; try done. unfold load_str. cbn. by apply bytes_chomped.
Qed.

(** X24. What does hold of the empty line: it is reported, and nothing
    is spawned, when [args[0]] is [NULL], as it is until the first
    command. *)
Lemma empty_line_reported s :
  List.length (args s) = MAX_ARG →
  at_index (args s) 0 = None →
  ∃ s', turn "" s = Ok true s' ∧
        trace s' = trace s ++ [Stderr EmptyCommand] ∧ same_kernel s s'.
Proof.
  intros Hlen Hnull. rewrite turn_fits by (vm_compute; reflexivity).
  unfold serve_line.
  destruct (chomp_line "" s eq_refl)
    as (s1 & E1 & Hline & Hk1 & Htr1 & Ha1 & _).
  rewrite (bind_ok _ _ _ _ _ E1).
  destruct (splitArgs_split (LineBuf, 0) s1) as (Hc & _ & _ & Htr2).
  { by rewrite Ha1. }
  { rewrite Hline. vm_compute. lia. }
  destruct (splitArgs_args (LineBuf, 0) s1) as (_ & _ & _ & Habove).
  { by rewrite Ha1. }
  destruct (splitArgs_frame (LineBuf, 0) s1) as (Hk2 & _).
  rewrite Hline in Hc.
  assert (spec_split "" = []) as Hsplit by (vm_compute; reflexivity).
  rewrite Hsplit in Hc. cbn in Hc.
  destruct (splitArgs (LineBuf, 0) s1) as [count s2] eqn:E2.
  cbn [fst snd] in *. subst count.
  assert (at_index (args s2) 0 = None) as Hnull2.
  { unfold at_index in *. rewrite Habove by lia. by rewrite Ha1. }
  run_m. rewrite E2, Hnull2. cbn. eexists. split; [reflexivity|].
  cbn. split; [by rewrite Htr2, Htr1|].
  by eapply same_kernel_trans.
Qed.

(** X25. What does hold of [!!]: [NoHistory] is reported, and nothing
    is spawned, when the string in [last_line_buf] is empty. *)
Lemma no_history_reported s :
  List.length (args s) = MAX_ARG →
  load_str s (LastLineBuf, 0) = "" →
  ∃ s', turn "!!" s = Ok true s' ∧
        trace s' = trace s ++ [Stderr NoHistory] ∧ same_kernel s s'.
Proof.
  intros Hlen Hlast. rewrite turn_fits by (vm_compute; reflexivity).
  unfold serve_line.
  destruct (chomp_line "!!" s eq_refl)
    as (s1 & E1 & Hline & Hk1 & Htr1 & Ha1 & Hl1).
  rewrite (bind_ok _ _ _ _ _ E1).
  destruct (splitArgs_split (LineBuf, 0) s1) as (Hc & Htok & _ & Htr2).
  { by rewrite Ha1. }
  { rewrite Hline. vm_compute. lia. }
  destruct (splitArgs_frame (LineBuf, 0) s1) as (Hk2 & _ & Hl2).
  rewrite Hline in Hc, Htok.
  assert (spec_split "!!" = ["!!"]) as Hsplit by (vm_compute; reflexivity).
  rewrite Hsplit in Hc, Htok. cbn in Hc.
  destruct (Htok 0 "!!" eq_refl) as (p & Hp & Hload).
  destruct (splitArgs (LineBuf, 0) s1) as [count s2] eqn:E2.
  cbn [fst snd] in *. subst count.
  assert (load_str s2 (LastLineBuf, 0) = "") as Hlast2.
  { unfold load_str in *. cbn in *. by rewrite Hl2, Hl1. }
  run_m. rewrite E2. unfold at_index. rewrite Hp. cbn.
  rewrite Hload. cbn.
  unfold load_str in Hlast2. cbn in Hlast2.
  repeat (case_bool_decide; try done). cbn. rewrite Hlast2.
  repeat (case_bool_decide; try done). cbn.
  eexists. split; [reflexivity|]. cbn. split; [by rewrite Htr2, Htr1|].
  by eapply same_kernel_trans.
Qed.

End turns.

(** ** Lines that do not fit, and the end of the input *)

Section input.

Implicit Types (s : shell) (line : string).

Lemma strrchr_no_newline str :
  newlines str = 0 → strrchr str NEWLINE = None.
Proof.
  induction str as [|c str IH]; [done|]. cbn.
  destruct (Ascii.eqb c NEWLINE); [done|]. cbn. intros H.
  by rewrite IH.
Qed.

Lemma chomp_newlines l :
  ∀ i,
    strrchr (cstring l) NEWLINE = Some i →
    newlines (cstring (<[i := NUL]> l)) < newlines (cstring l).
Proof.
  induction l as [|c l IH]; intros i; [done|]. cbn.
  destruct (is_nul c) eqn:Hc; [done|]. cbn.
  destruct (strrchr (cstring l) NEWLINE) as [j|] eqn:Hj.
  - intros [= <-].
    change (<[S j:=NUL]> (c :: l)) with (c :: <[j:=NUL]> l).
    cbn [cstring]. rewrite Hc. cbn [newlines].
    specialize (IH j eq_refl). lia.
  - destruct (Ascii.eqb c NEWLINE); [|done]. intros [= <-]. cbn. lia.
Qed.

(** What the turn from line 340 on does to [line_buf]: the newline is cut
    off, and that is all. *)
Lemma serve_line_line_buf s :
  match strrchr (cstring (line_buf s)) NEWLINE with
  | None => serve_line s = Halt Fault s
  | Some i => line_buf (final (serve_line s)) = <[i := NUL]> (line_buf s)
  end.
Proof.
  assert (∀ s2 n,
            line_buf (final ((a ← gets args; interpretArgs a n;; mret true) s2))
              = line_buf s2) as Hrun.
  { intros s2 n. run_m.
    destruct (interpretArgs_events (args s2) n s2)
      as (evs & (_ & _ & (Hm & _) & _) & _).
    by destruct (interpretArgs (args s2) n s2). }
  destruct (strrchr _ _) as [i|] eqn:Echomp; cycle 1.
  { unfold serve_line. apply bind_halt. unfold chomp. by rewrite Echomp. }
  assert (chomp s = Ok tt (set_buffer LineBuf (<[i:=NUL]> (line_buf s)) s))
    as E by (unfold chomp; by rewrite Echomp).
  assert (line_buf (set_buffer LineBuf (<[i:=NUL]> (line_buf s)) s) =
          <[i:=NUL]> (line_buf s)) as Hl by done.
  revert E Hl. generalize (set_buffer LineBuf (<[i:=NUL]> (line_buf s)) s).
  intros s1 E <-. unfold serve_line. rewrite (bind_ok _ _ _ _ _ E).
  destruct (splitArgs_frame (LineBuf, 0) s1) as (_ & Hlb & _).
  destruct (splitArgs (LineBuf, 0) s1) as [arg_count s2] eqn:Esplit.
  cbn [fst snd] in *. rewrite <- Hlb. run_m. rewrite Esplit.
  destruct (at_index (args s2) 0) as [p0|]; cbn; [|done].
  case_bool_decide; [done|].
  destruct (bool_decide (load_str s2 p0 = "exit()")
            || bool_decide (load_str s2 p0 = "exit")); [done|].
  case_bool_decide.
  - case_bool_decide; [done|].
    destruct (splitArgs_frame (LastLineBuf, 0) s2) as (_ & Hlb3 & _).
    destruct (splitArgs (LastLineBuf, 0) s2) as [arg_count' s3].
    cbn [fst snd] in *. rewrite <- Hlb3.
    specialize (Hrun s3 arg_count'). revert Hrun. run_m. done.
  - set (s3 := strcpy LastLineBuf (load_str s2 (LineBuf, 0)) s2).
    specialize (Hrun s3 arg_count). revert Hrun. run_m. done.
Qed.

(** Each turn at the end of the input takes a newline out of the string in
    [line_buf]: the newlines of the string are turns enough. *)
Lemma eof_loop_turns n :
  ∀ m s,
    newlines (cstring (line_buf s)) ≤ n →
    newlines (cstring (line_buf s)) ≤ m →
    eof_loop n s = eof_loop m s.
Proof.
  induction n as [|n IH]; intros m s Hn Hm.
  - pose proof (serve_line_line_buf s) as H.
    rewrite strrchr_no_newline in H by lia.
    destruct m; cbn [eof_loop]; unfold mbind, M_bind; by rewrite H.
  - pose proof (serve_line_line_buf s) as H.
    destruct (strrchr (cstring (line_buf s)) NEWLINE) as [i|] eqn:Ei.
    + apply chomp_newlines in Ei. rewrite <- H in Ei.
      destruct m as [|m].
      { lia. }
      cbn [eof_loop]. unfold mbind, M_bind.
      destruct (serve_line s) as [go_on s'|h s']; [|done].
      destruct go_on; [|done]. cbn in Ei. apply IH; lia.
    + destruct m; cbn [eof_loop]; unfold mbind, M_bind; by rewrite H.
Qed.

Lemma read_line_newlines input :
  ∀ n rest,
    newlines (cstring (list_ascii_of_string (read_line n input)
                       ++ NUL :: rest)) ≤ 1.
Proof.
  induction input as [|c input IH]; intros n rest; [by destruct n; cbn; lia|].
  destruct n as [|n]; [cbn; lia|]. cbn [read_line].
  destruct (Ascii.eqb c NEWLINE) eqn:Hc.
  - apply Ascii.eqb_eq in Hc as ->. cbn. lia.
  - cbn. destruct (is_nul c); [cbn; lia|]. cbn [newlines]. rewrite Hc.
    specialize (IH n rest). lia.
Qed.

Lemma read_line_cut line :
  ∀ n rest,
    forallb (λ c, negb (Ascii.eqb c NEWLINE)) (list_ascii_of_string line)
      = true →
    n ≤ String.length line →
    newlines (cstring (list_ascii_of_string
                         (read_line n (line ++ String NEWLINE EmptyString))
                       ++ NUL :: rest)) = 0.
Proof.
  induction line as [|c line IH]; intros n rest Hnl Hlen.
  - cbn in Hlen. by replace n with 0 by lia.
  - destruct n as [|n]; [done|]. rewrite append_cons. cbn [read_line].
    cbn in Hnl. apply andb_true_iff in Hnl as [Hc Hnl].
    apply negb_true_iff in Hc. rewrite Hc. cbn.
    destruct (is_nul c); [done|]. cbn [newlines]. rewrite Hc.
    rewrite IH; [done..|]. cbn in Hlen. lia.
Qed.

(** After a turn that has returned, on whatever line, the string in
    [line_buf] holds no newline. *)
Lemma turn_newlines line s go_on s' :
  turn line s = Ok go_on s' → newlines (cstring (line_buf s')) = 0.
Proof.
  pose proof (read_line_newlines (line ++ String NEWLINE EmptyString)
                (BUFSIZ - 1)) as Hle.
  assert (turn line s =
          serve_line
            (strcpy LineBuf
               (read_line (BUFSIZ - 1) (line ++ String NEWLINE EmptyString))
               s)) as -> by reflexivity.
  revert Hle.
  generalize (read_line (BUFSIZ - 1) (line ++ String NEWLINE EmptyString)).
  intros bytes Hle E.
  pose proof (serve_line_line_buf (strcpy LineBuf bytes s)) as H.
  destruct (strrchr _ _) as [i|] eqn:Ei; [|congruence].
  apply chomp_newlines in Ei. rewrite <- H, E in Ei.
  specialize (Hle (drop (S (String.length bytes)) (line_buf s))).
  change (line_buf (strcpy LineBuf bytes s))
    with (list_ascii_of_string bytes
          ++ NUL :: drop (S (String.length bytes)) (line_buf s)) in Ei.
  change (final (Ok go_on s')) with s' in Ei.
  lia.
Qed.

Lemma main_loop_ends lines :
  ∀ s s',
    newlines (cstring (line_buf s)) = 0 →
    main_loop lines s = Ok tt s' →
    ∃ before line behind s1,
      lines = before ++ line :: behind ∧ turn line s1 = Ok false s'.
Proof.
  induction lines as [|line lines IH]; intros s s' Hs E.
  - cbn [main_loop] in E. rewrite Hs in E. cbn [eof_loop] in E.
    pose proof (serve_line_line_buf s) as H.
    rewrite strrchr_no_newline in H by done.
    unfold mbind, M_bind in E. by rewrite H in E.
  - cbn [main_loop] in E. unfold mbind, M_bind in E.
    destruct (turn line s) as [go_on s1|h s1] eqn:Et; [|done].
    destruct go_on.
    + apply turn_newlines in Et.
      destruct (IH s1 s' Et E) as (before & l & behind & s2 & -> & E2).
      by exists (line :: before), l, behind, s2.
    + injection E as <-. by exists [], line, lines, s.
Qed.

(** X30. A line that does not fit. Of a line of [BUFSIZ - 1] bytes or
    more before its newline, [fgets] stores the first [BUFSIZ - 1], and no
    newline; line 340 writes through the [NULL] that [strrchr] returns.
    The turn ends in that fault: nothing was split, called or reported, and
    [args] and the history are what they were. *)
Theorem long_line_faults line s :
  forallb (λ c, negb (Ascii.eqb c NEWLINE)) (list_ascii_of_string line)
    = true →
  BUFSIZ - 1 ≤ String.length line →
  ∃ s',
    turn line s = Halt Fault s' ∧
    trace s' = trace s ∧ same_kernel s s' ∧
    args s' = args s ∧ last_line_buf s' = last_line_buf s ∧
    line_cpy s' = line_cpy s.
Proof.
  intros Hnl Hlen.
  pose proof (read_line_cut line (BUFSIZ - 1)) as Hcut.
  assert (turn line s =
          serve_line
            (strcpy LineBuf
               (read_line (BUFSIZ - 1) (line ++ String NEWLINE EmptyString))
               s)) as -> by reflexivity.
  revert Hcut.
  generalize (read_line (BUFSIZ - 1) (line ++ String NEWLINE EmptyString)).
  intros bytes Hcut.
  exists (strcpy LineBuf bytes s). split; [|done].
  pose proof (serve_line_line_buf (strcpy LineBuf bytes s)) as H.
  rewrite strrchr_no_newline in H; [done|].
  change (line_buf (strcpy LineBuf bytes s))
    with (list_ascii_of_string bytes
          ++ NUL :: drop (S (String.length bytes)) (line_buf s)).
  by apply Hcut.
Qed.

(** X31. The end of the input. [fgets] then stores nothing, and line 340
    works on the line of the turn before, whose newline it has cut off
    already, or on the cleared buffer: on an empty input [main] ends in
    the fault of line 340 at once, and on any input [main] returns only
    when a turn has left the loop by [break]. The end of the input does
    not end the loop. *)
Theorem end_of_input_faults lines s :
  main [] s =
    Halt Fault (set_args (replicate MAX_ARG None)
                  (set_buffer LineBuf (replicate BUFSIZ NUL) s)) ∧
  ∀ s', main lines s = Ok tt s' →
    ∃ before line behind s1,
      lines = before ++ line :: behind ∧ turn line s1 = Ok false s'.
Proof.
  set (s0 := set_args (replicate MAX_ARG None)
               (set_buffer LineBuf (replicate BUFSIZ NUL) s)).
  assert (∀ l, main l s = main_loop l s0) as Hmain by done.
  assert (newlines (cstring (line_buf s0)) = 0) as H0 by reflexivity.
  rewrite !Hmain. split.
  - cbn [main_loop]. rewrite H0. cbn [eof_loop].
    pose proof (serve_line_line_buf s0) as H.
    rewrite strrchr_no_newline in H by done.
    unfold mbind, M_bind. by rewrite H.
  - intros s'. by apply main_loop_ends.
Qed.

End input.

(** ** The classes of the tokens *)

Section classes.

Implicit Types (s : shell) (l : locals).

Lemma char_at_same s s' p :
  same_memory s s' → char_at s' p = char_at s p.
Proof.
  intros (H1 & H2 & H3 & _). unfold char_at.
  destruct p as [[] i]; cbn; congruence.
Qed.

(** [redirectToFile] always returns. *)
Lemma returns_bind {A B} (m : M A) (f : A → M B) :
  (∀ s, ∃ a s', m s = Ok a s') →
  (∀ a s, ∃ b s', f a s = Ok b s') →
  ∀ s, ∃ b s', (m ≫= f) s = Ok b s'.
Proof.
  intros Hm Hf s. destruct (Hm s) as (a & s1 & E).
  rewrite (bind_ok _ _ _ _ _ E). apply Hf.
Qed.

Lemma redirect_returns source dest err s :
  ∃ r s', redirect source dest err s = Ok r s'.
Proof.
  unfold redirect. revert s. apply returns_bind.
  { intros s. unfold sys_dup. repeat case_match; by eexists _, _. }
  intros tmp. apply returns_bind.
  { intros s. unfold sys_dup2. repeat case_match; by eexists _, _. }
  intros r s. case_bool_decide; by eexists _, _.
Qed.

Lemma redirectToFile_returns file dest err s :
  ∃ r s', redirectToFile file dest err s = Ok r s'.
Proof.
  unfold redirectToFile. destruct file as [p|]; [|by eexists _, _].
  revert s. apply returns_bind; [intros s; by eexists _, _|]. intros path.
  assert (∀ fd s, ∃ r s',
            ((if bool_decide (fd = (-1)%Z) then
                fprintf_stderr (FileOpenFailure path);; mret ((-1)%Z, true)
              else
                '(std_tmp_copy, error) ← redirect fd dest err;
                sys_close fd;; mret (std_tmp_copy, error)) : M (Z * bool)) s
            = Ok r s') as Hrest.
  { intros fd s. case_bool_decide; [by eexists _, _|].
    revert s. apply returns_bind; [apply redirect_returns|].
    intros [tmp e] s. unfold sys_close. run_m.
    case_bool_decide; by eexists _, _. }
  intros s. case_bool_decide.
  - revert s. apply returns_bind; [|exact Hrest].
    intros s. destruct (sys_open_result path (Z.lor S_IRUSR S_IWUSR) s)
      as (fd & s1 & E & _). eauto.
  - revert s. apply returns_bind; [|exact Hrest].
    intros s. destruct (sys_creat_result path (Z.lor S_IRUSR S_IWUSR) s)
      as (fd & s1 & E & _). eauto.
Qed.

(** A turn of the scan keeps the arguments collected, or adds the token
    under the cursor, which then is no control token. *)
Lemma body_exec_args args arg l s :
  match interpretArgs_body args arg l s with
  | Ok (_, l') s' =>
      same_memory s s' ∧
      ((exec_args l' = exec_args l ∧
        exec_arg_count l' = exec_arg_count l) ∨
       (∃ p, at_index args arg = Some p ∧
             control_char (char_at s p) = false ∧
             l' = push_exec_arg (Some p) l))
  | Halt _ _ => True
  end.
Proof.
  destruct (traced_body args arg l s) as (evs & (_ & _ & Hmem & _) & _).
  revert Hmem. unfold interpretArgs_body.
  destruct (at_index args arg) as [p|]; [|done].
  rewrite (bind_ok _ _ s (char_at s p) s) by done.
  set (c := char_at s p).
  destruct (is_char c "<" || is_char c ">") eqn:H1.
  { destruct (redirected l).
    - run_m. intros Hmem. split; [done|]. by left.
    - destruct (redirectToFile_returns (at_index args (S arg))
                  (if is_char c "<" then STDIN_FILENO else STDOUT_FILENO)
                  (error l) s) as ([from err'] & s1 & E).
      rewrite (bind_ok _ _ _ _ _ E). run_m. intros Hmem.
      split; [done|]. by left. }
  destruct (is_char c "|") eqn:H2.
  { destruct (pipe l); run_m; intros Hmem; (split; [done|]); by left. }
  destruct (is_char c "&") eqn:H3; run_m; intros Hmem; (split; [done|]).
  - by left.
  - right. exists p. split_and!; [done| |done].
    unfold control_char. fold c. by rewrite H1, H2, H3.
Qed.



End classes.

(** ** The pipe *)

Section pipes.

Implicit Types (s : shell).

Lemma no_execlp_lookup evs i prog argv found :
  forallb not_execlp evs = true →
  evs !! i = Some (SysExeclp prog argv found) → False.
Proof.
  rewrite forallb_forall. intros H Hi.
  apply list_elem_of_lookup_2, list_elem_of_In, H in Hi. done.
Qed.

Lemma sys_fork_result s :
  ∃ r s1, sys_fork s = Ok r s1 ∧ trace s1 = trace s ++ [SysFork r].
Proof. unfold sys_fork. destruct (forks s); by eexists _, _. Qed.

Lemma sys_pipe_result s :
  ∃ r s1, sys_pipe s = Ok r s1 ∧ trace s1 = trace s ++ [SysPipe r].
Proof. unfold sys_pipe. repeat case_match; by eexists _, _. Qed.

(** The branches of [forkAndPipeInto] in which [execlp] is not reached. *)
Lemma traced_writer args pipefd0 pipefd1 :
  traced not_execlp
    ((sys_close pipefd0;;
      '(stdout_reset, error) ← redirect pipefd1 STDOUT_FILENO false;
      if negb error then
        r ← execvp (at_index args 0) args;
        (if bool_decide (r = (-1)%Z) then
           n ← name_of (at_index args 0); fprintf_stderr (ProgramNotFound n)
         else mret tt);;
        _ ← sys_dup2 stdout_reset STDOUT_FILENO; mret tt
      else mret tt) : M unit) (λ _ _, True).
Proof.
  eapply traced_bind; [by apply traced_close|]. intros [] evs4 _.
  eapply traced_bind.
  { eapply traced_weaken; [| |apply traced_redirect]; [|done].
    by intros [[]| | | | | | | | | |]. }
  intros [reset err] evs5 _.
  destruct err; [by apply traced_ret|]. cbn [negb].
  eapply traced_bind; [by apply traced_exec|]. intros r evs6 _.
  eapply traced_bind with (P1 := λ _ _, True).
  { case_bool_decide; [|by apply traced_ret].
    eapply traced_bind; [by apply traced_gets|]. intros n evs3 _.
    eapply traced_weaken; [done| |by apply traced_fprintf]. done. }
  intros [] evs7 _.
  eapply traced_bind; [by apply traced_dup2|]. intros ? evs8 _.
  by apply traced_ret.
Qed.

(** C1, as the code has it. In every run of [forkAndPipeInto], the
    process that calls [execlp] on the pipe target has before that made
    the writer by [fork] and called [wait]: the target is started only when
    the writer, the one child of that process, has ended. The two programs
    run one after the other, not together. *)
Theorem pipe_target_waits_for_writer args dest_prog _wait s :
  let evs := added s (forkAndPipeInto args dest_prog _wait s) in
  ∀ i prog argv found,
    evs !! i = Some (SysExeclp prog argv found) →
    ∃ k j pid,
      k < j ∧ j < i ∧
      evs !! k = Some (SysFork (InParent pid)) ∧
      evs !! j = Some SysWait.
Proof.
  cbn zeta. intros i prog argv found.
  assert (∀ (m : M unit) P s0 evs0,
            trace s0 = trace s ++ evs0 →
            forallb not_execlp evs0 = true →
            traced not_execlp m P →
            added s (m s0) !! i = Some (SysExeclp prog argv found) → False)
    as Hnone.
  { intros m P s0 evs0 Htr Hevs0 Hm.
    destruct (Hm s0) as (evs & (Ht & He & _) & _).
    unfold added. rewrite Ht, Htr, <- app_assoc, drop_app_length.
    apply no_execlp_lookup. rewrite forallb_app. by rewrite Hevs0, He. }
  unfold forkAndPipeInto.
  destruct (sys_fork_result s) as (pid & s1 & E1 & Htr1).
  rewrite (bind_ok _ _ _ _ _ E1).
  destruct pid.
  - intros H. exfalso. revert H. eapply Hnone; [exact Htr1|done|].
    by apply traced_fprintf.
  - destruct (sys_pipe_result s1) as (pipefd & s2 & E2 & Htr2).
    rewrite (bind_ok _ _ _ _ _ E2).
    assert (trace s2 = trace s ++ [SysFork InChild; SysPipe pipefd]) as Htr2'.
    { by rewrite Htr2, Htr1, <- app_assoc. }
    destruct pipefd as [[pipefd0 pipefd1]|]; cycle 1.
    { intros H. exfalso. revert H. eapply Hnone; [exact Htr2'|done|].
      by apply traced_fprintf. }
    destruct (sys_fork_result s2) as (piped_pid & s3 & E3 & Htr3').
    rewrite (bind_ok _ _ _ _ _ E3).
    assert (trace s3 =
              trace s ++ [SysFork InChild; SysPipe (Some (pipefd0, pipefd1));
                          SysFork piped_pid]) as Htr3.
    { by rewrite Htr3', Htr2', <- app_assoc. }
    destruct piped_pid as [| |writer].
    + intros H. exfalso. revert H. eapply Hnone; [exact Htr3|done|].
      by apply traced_fprintf.
    + intros H. exfalso. revert H. eapply Hnone; [exact Htr3|done|].
      apply traced_writer.
    + (* the reader *)
      match goal with
      | |- context [sys_wait ≫= ?X] => set (rest := X)
      end.
      assert (∃ evs, added s
                ((sys_close pipefd1 ≫= λ _, sys_wait ≫= rest) s3) =
                [SysFork InChild; SysPipe (Some (pipefd0, pipefd1));
                 SysFork (InParent writer); SysClose pipefd1; SysWait]
                ++ evs) as [evs Hevs].
      { assert (∃ s4, sys_close pipefd1 s3 = Ok tt s4 ∧
                      trace s4 = trace s3 ++ [SysClose pipefd1])
          as (s4 & E4 & Htr4).
        { unfold sys_close. case_bool_decide; by eexists. }
        rewrite (bind_ok _ _ _ _ _ E4).
        rewrite (bind_ok _ _ s4 tt (log SysWait s4)) by done.
        assert (∃ evs, trace (final (rest tt (log SysWait s4))) =
                       trace (log SysWait s4) ++ evs) as [evs Hrest].
        { assert (traced (λ _, true) (rest tt) (λ _ _, True)) as Hr.
          { subst rest. cbn beta.
            eapply traced_bind.
            { eapply traced_weaken; [| |apply traced_redirect]; done. }
            intros [reset err] evs5 _.
            destruct err; [by apply traced_ret|]. cbn [negb].
            eapply traced_bind.
            { by apply (traced_exec (λ _, true) SysExeclp). }
            intros r evs6 _.
            eapply traced_bind with (P1 := λ _ _, True).
            { case_bool_decide; [|by apply traced_ret].
              eapply traced_bind; [by apply traced_gets|]. intros n evs3 _.
              eapply (traced_weaken (λ _, true));
                [done| |by apply traced_fprintf]. done. }
            intros [] evs7 _.
            eapply traced_bind; [by apply traced_dup2|]. intros ? evs8 _.
            by apply traced_ret. }
          destruct (Hr (log SysWait s4)) as (evs & (Ht & _) & _). eauto. }
        exists evs. unfold added. rewrite Hrest. cbn [trace log].
        rewrite Htr4, Htr3, <- !app_assoc. cbn [app].
        by rewrite drop_app_length. }
      rewrite Hevs. intros Hi.
      exists 2, 4, writer. split_and!; [lia| |done|done].
      destruct i as [|[|[|[|[|i]]]]]; try done. lia.
  - intros H. exfalso. revert H.
    eapply (Hnone _ (λ _ _, True)); [exact Htr1|done|].
    destruct _wait; [|by apply traced_ret].
    eapply traced_weaken; [done| |by apply traced_wait]. done.
Qed.

End pipes.

(** ** Lines of any length *)

Section long_lines.

Implicit Types (s : shell).

Lemma splitArgs_loop_any fuel :
  ∀ (token : option ptr) count s i done pend,
    olds s = Some (LineCpy, i) →
    List.length (args s) = MAX_ARG →
    List.length done = count →
    stored s i done →
    match token with
    | None => pend = []
    | Some p =>
        ∃ q t ts, p = (LineCpy, q) ∧ pend = t :: ts ∧
          cstring (drop q (line_cpy s)) = t ∧
          q + String.length t ≤ i ∧
          spec_split (cstring (drop i (line_cpy s))) = ts
    end →
    count ≤ MAX_ARG - 1 →
    MAX_ARG - 1 - count ≤ fuel →
    let r := splitArgs_loop fuel token count s in
    r.1 = Nat.min (count + List.length pend) (MAX_ARG - 1) ∧
    trace r.2 =
      trace s ++
        (if bool_decide (MAX_ARG - 1 < count + List.length pend)
         then [Stderr TokenLimitExceeded] else []) ∧
    ∃ i', stored r.2 i' (done ++ take (MAX_ARG - 1 - count) pend).
Proof.
  induction fuel as [|fuel IH]; intros token count s i done pend
    Holds Hargs Hdone Hst Htok Hroom Hfuel.
  - assert (count = MAX_ARG - 1) as Hc by lia.
    destruct token as [p|].
    + destruct Htok as (q & t & ts & -> & -> & _).
      cbn [splitArgs_loop]. rewrite bool_decide_eq_false_2 by lia.
      cbn [fst snd List.length]. rewrite bool_decide_eq_true_2 by lia.
      split_and!; [lia|done|]. exists i.
      replace (MAX_ARG - 1 - count) with 0 by lia.
      rewrite take_0, app_nil_r. done.
    + subst pend. cbn [splitArgs_loop fst snd List.length].
      rewrite take_nil, ?app_nil_r.
      rewrite bool_decide_eq_false_2 by lia. rewrite ?app_nil_r.
      split_and!; [lia|done|by exists i].
  - destruct token as [p|]; cycle 1.
    { subst pend. cbn [splitArgs_loop fst snd List.length].
      rewrite take_nil, ?app_nil_r.
      rewrite bool_decide_eq_false_2 by lia. rewrite ?app_nil_r.
      split_and!; [lia|done|by exists i]. }
    destruct Htok as (q & t & ts & -> & -> & Hq & Hqi & Hts).
    cbn [splitArgs_loop]. cbn [List.length].
    case_bool_decide as Hlt; cycle 1.
    { cbn [fst snd]. rewrite bool_decide_eq_true_2 by lia.
      split_and!; [lia|done|]. exists i.
      replace (MAX_ARG - 1 - count) with 0 by lia.
      rewrite take_0, app_nil_r. done. }
    match goal with
    | |- context [strtok None " " ?x] => set (s1 := x)
    end.
    destruct (strtok_next s1 i None) as
      (tok & j & s2 & E & Holds2 & Hij & Hargs2 & Htr2 & Hkeep & Hnext).
    { right. done. }
    rewrite E.
    assert (stored s2 j (done ++ [t])) as Hst2.
    { intros k t' Hk. rewrite Hargs2.
      destruct (decide (k = count)) as [->|Hne].
      - rewrite lookup_app_r in Hk by lia.
        replace (count - List.length done) with 0 in Hk by lia.
        injection Hk as <-. exists q. split; [|split].
        + subst s1. cbn. apply list_lookup_insert_eq. unfold MAX_ARG in *. lia.
        + rewrite Hkeep; [done|]. subst s1. cbn. rewrite Hq. lia.
        + lia.
      - assert (k < count) as Hlt'.
        { apply lookup_lt_Some in Hk. rewrite length_app in Hk.
          simpl in Hk. lia. }
        rewrite lookup_app_l in Hk by lia.
        destruct (Hst k t' Hk) as (q' & Ha & Hs & Hb).
        exists q'. split; [|split].
        + subst s1. cbn. by rewrite list_lookup_insert_ne by lia.
        + rewrite Hkeep; [done|]. subst s1. cbn. rewrite Hs. lia.
        + lia. }
    specialize (IH tok (S count) s2 j (done ++ [t]) ts Holds2).
    destruct IH as (Hc & Htr & i' & Hfin).
    + rewrite Hargs2. subst s1. cbn. by rewrite length_insert.
    + rewrite length_app. simpl. lia.
    + done.
    + subst s1. cbn in Hnext. rewrite Hts in Hnext.
      destruct tok as [p'|]; [|done].
      destruct Hnext as (q' & t' & ts' & -> & Hsplit & ? & ? & ?).
      by exists q', t', ts'.
    + lia.
    + lia.
    + cbn zeta. split_and!.
      * rewrite Hc. f_equal. lia.
      * rewrite Htr, Htr2.
        replace (S count + List.length ts) with (count + S (List.length ts))
          by lia. done.
      * exists i'. rewrite <- app_assoc in Hfin.
        replace (MAX_ARG - 1 - count) with (S (MAX_ARG - 1 - S count)) by lia.
        done.
Qed.

(** [splitArgs] on any line: the first 39 tokens are stored, the count
    stops at 39, and the line is reported when it has more. *)
Lemma splitArgs_first_tokens (line_src : ptr) s :
  List.length (args s) = MAX_ARG →
  let tokens := spec_split (load_str s line_src) in
  let r := splitArgs line_src s in
  r.1 = Nat.min (List.length tokens) (MAX_ARG - 1) ∧
  (∀ k t, k < MAX_ARG - 1 → tokens !! k = Some t →
     ∃ p, args r.2 !! k = Some (Some p) ∧ p.1 = LineCpy ∧ load_str r.2 p = t) ∧
  trace r.2 =
    trace s ++
      (if bool_decide (MAX_ARG - 1 < List.length tokens)
       then [Stderr TokenLimitExceeded] else []).
Proof.
  intros Hlen tokens r. subst r. unfold splitArgs.
  set (line := load_str s line_src) in *.
  set (s1 := strcpy LineCpy line s).
  assert (cstring (drop 0 (line_cpy s1)) = line) as Hline.
  { subst s1 line. cbn. unfold strcpy_bytes, load_str.
    apply cstring_strcpy. }
  destruct (strtok_next s1 0 (Some (LineCpy, 0))) as
    (tok & j & s2 & E & Holds & _ & Hargs & Htr & _ & Hnext); [by left|].
  rewrite E. rewrite Hline in Hnext. fold tokens in Hnext.
  assert (stored s2 j []) as Hst0 by (by intros k t Hk).
  assert (match tok with
          | None => tokens = []
          | Some p => ∃ q t ts, p = (LineCpy, q) ∧ tokens = t :: ts ∧
              cstring (drop q (line_cpy s2)) = t ∧ q + String.length t ≤ j ∧
              spec_split (cstring (drop j (line_cpy s2))) = ts
          end) as Htok.
  { destruct tok as [p|]; [|done].
    destruct Hnext as (q & t & ts & -> & Hs & ? & ? & ?).
    by exists q, t, ts. }
  assert (List.length (args s2) = MAX_ARG) as Hlen2 by (by rewrite Hargs).
  destruct (splitArgs_loop_any MAX_ARG tok 0 s2 j [] tokens
              Holds Hlen2 eq_refl Hst0 Htok)
    as (Hc & Htr2 & i' & Hst); [unfold MAX_ARG; lia..|].
  cbn zeta in *. rewrite app_nil_l in Hst. cbn [Nat.add] in *.
  rewrite Nat.sub_0_r in Hst. split_and!.
  - done.
  - intros k t Hk Ht. destruct (Hst k t) as (q & Ha & Hq & _).
    { rewrite lookup_take_lt by done. done. }
    by exists (LineCpy, q).
  - by rewrite Htr2, Htr.
Qed.

(** X1. For every line, [splitArgs] returns the number of its tokens or
    39, whichever is less; [args] then holds, in order, pointers into
    [line_cpy] to the first 39 tokens; and [TokenLimitExceeded] is reported
    once when the line has more than 39 tokens, and not at all
    otherwise. *)
Theorem splitArgs_any_line (line_src : ptr) s :
  List.length (args s) = MAX_ARG →
  let tokens := spec_split (load_str s line_src) in
  let r := splitArgs line_src s in
  r.1 = Nat.min (List.length tokens) (MAX_ARG - 1) ∧
  (∀ k t, k < MAX_ARG - 1 → tokens !! k = Some t →
     ∃ p, args r.2 !! k = Some (Some p) ∧ p.1 = LineCpy ∧ load_str r.2 p = t) ∧
  trace r.2 =
    trace s ++
      (if bool_decide (MAX_ARG - 1 < List.length tokens)
       then [Stderr TokenLimitExceeded] else []).
Proof. apply splitArgs_first_tokens. Qed.

(** X2. [splitArgs] stays inside [args]: the count it returns is at most
    39, the entries below the count are tokens, and the entries from the
    count on, [args[39]] among them, are what they were before the call:
    they are not reset to [NULL]. No descriptor, file or answer of [fork]
    is touched. *)
Theorem splitArgs_stays_in_bounds (line_src : ptr) s :
  List.length (args s) = MAX_ARG →
  let r := splitArgs line_src s in
  r.1 ≤ MAX_ARG - 1 ∧
  List.length (args r.2) = MAX_ARG ∧
  (∀ k, k < r.1 → ∃ p, args r.2 !! k = Some (Some p)) ∧
  (∀ k, r.1 ≤ k → args r.2 !! k = args s !! k) ∧
  same_kernel s r.2.
Proof.
  intros Hlen. cbn zeta.
  destruct (splitArgs_args line_src s Hlen) as (H1 & H2 & H3 & H4).
  destruct (splitArgs_frame line_src s) as (H5 & _).
  done.
Qed.

End long_lines.

(** ** Spawning *)

Section spawning.

Implicit Types (s : shell) (l : locals) (evs : list event).

Lemma forkInto_shell args _wait s :
  head (forks s) ≠ Some InChild →
  ∃ r s',
    forkInto args _wait s = Ok tt s' ∧ r ≠ InChild ∧
    trace s' = trace s ++ spawn_events r _wait ∧
    same_memory s s' ∧ fds s' = fds s ∧ fs s' = fs s ∧
    fd_limit s' = fd_limit s ∧ programs s' = programs s ∧
    forks s' = tail (forks s).
Proof.
  unfold forkInto, mbind, M_bind, sys_fork. intros Hnc.
  destruct (forks s) as [|[| |pid] k] eqn:E; [| |done|].
  - exists ForkFailed. eexists. split; [reflexivity|]. cbn.
    rewrite <- app_assoc. by rewrite E.
  - exists ForkFailed. eexists. split; [reflexivity|]. cbn.
    rewrite <- app_assoc. done.
  - exists (InParent pid). destruct _wait; eexists;
      (split; [reflexivity|]); cbn; rewrite <- ?app_assoc; done.
Qed.

Lemma forkAndPipeInto_shell args dest_prog _wait s :
  head (forks s) ≠ Some InChild →
  forkAndPipeInto args dest_prog _wait s = forkInto args _wait s.
Proof.
  unfold forkAndPipeInto, forkInto, mbind, M_bind, sys_fork. intros Hnc.
  by destruct (forks s) as [|[| |pid] k] eqn:E.
Qed.

Lemma load_str_same s s' (p : ptr) :
  same_memory s s' → load_str s' p = load_str s p.
Proof.
  intros (H1 & H2 & H3 & _). unfold load_str.
  destruct p as [[] i]; cbn; congruence.
Qed.

Lemma argv_strings_same s s' argv :
  same_memory s s' → argv_strings s' argv = argv_strings s argv.
Proof.
  intros H. induction argv as [|[p|] argv IH]; cbn; [done| |done].
  by rewrite IH, (load_str_same s s').
Qed.

Lemma forkInto_child_run args _wait s k p :
  forks s = InChild :: k → at_index args 0 = Some p →
  let prog := load_str s p in
  let argv := argv_strings s args in
  let s1 := log (SysExecvp prog argv (bool_decide (prog ∈ programs s)))
              (log (SysFork InChild) (set_forks k s)) in
  forkInto args _wait s =
    if bool_decide (prog ∈ programs s) then Halt Replaced s1
    else Ok tt (log (Stderr (ProgramNotFound (Some prog))) s1).
Proof.
  intros E Hp. cbn zeta.
  unfold forkInto, mbind, M_bind, sys_fork, execvp, sys_exec. rewrite E, Hp.
  set (s0 := log (SysFork InChild) (set_forks k s)).
  assert (same_memory s s0) as Hm by done.
  rewrite (load_str_same s s0), (argv_strings_same s s0) by done.
  change (programs s0) with (programs s).
  case_bool_decide; [done|]. cbn.
  rewrite bool_decide_eq_true_2 by done. unfold fprintf_stderr, modify.
  by rewrite (load_str_same s) by done.
Qed.

Lemma traced_redirect_swap source dest err :
  traced swap_event (redirect source dest err) (λ _ _, True).
Proof.
  unfold redirect.
  eapply traced_bind; [by apply traced_dup|]. intros tmp evs1 _.
  eapply traced_bind; [by apply traced_dup2|]. intros r evs2 _.
  case_bool_decide.
  - eapply traced_bind; [by apply traced_fprintf|]. intros [] evs3 _.
    by apply traced_ret.
  - by apply traced_ret.
Qed.

Lemma swap_run e : swap_event e = true → run_event e = true.
Proof. by destruct e as [[]| | | | | | | | | |]. Qed.

Lemma swap_quiet e : swap_event e = true → quiet_event e = true.
Proof. by destruct e as [[]| | | | | | | | | |]. Qed.

Lemma swap_not_refused e : swap_event e = true → negb (open_refused e) = true.
Proof. by destruct e as [[]| | | | | | | | | |]. Qed.

Lemma run_not_refused e : run_event e = true → negb (open_refused e) = true.
Proof. by destruct e as [[]| | | | | | | | | |]. Qed.

Lemma traced_forkInto_run args _wait :
  traced run_event (forkInto args _wait) (λ _ _, True).
Proof.
  unfold forkInto.
  eapply traced_bind; [by apply traced_fork|]. intros pid evs1 _.
  destruct pid.
  - eapply traced_weaken; [done| |by apply traced_fprintf]. done.
  - eapply traced_bind; [by apply traced_exec|]. intros r evs2 _.
    case_bool_decide; [|by apply traced_ret].
    eapply traced_bind; [by apply traced_gets|]. intros n evs3 _.
    eapply traced_weaken; [done| |by apply traced_fprintf]. done.
  - destruct _wait; [|by apply traced_ret].
    eapply traced_weaken; [done| |by apply traced_wait]. done.
Qed.

Lemma traced_forkAndPipeInto_run args dest_prog _wait :
  traced run_event (forkAndPipeInto args dest_prog _wait) (λ _ _, True).
Proof.
  assert (∀ source dest err,
            traced run_event (redirect source dest err) (λ _ _, True))
    as Hred.
  { intros. eapply traced_weaken; [apply swap_run| |].
    2: apply traced_redirect_swap. done. }
  assert (∀ (a : option ptr) (r : Z),
            traced run_event
              ((if bool_decide (r = (-1)%Z) then
                  n ← name_of a; fprintf_stderr (ProgramNotFound n)
                else mret tt) : M unit) (λ _ _, True)) as Hmsg.
  { intros a r. case_bool_decide; [|by apply traced_ret].
    eapply traced_bind; [by apply traced_gets|]. intros n evs3 _.
    eapply traced_weaken; [done| |by apply traced_fprintf]. done. }
  unfold forkAndPipeInto.
  eapply traced_bind; [by apply traced_fork|]. intros pid evs1 _.
  destruct pid.
  - eapply traced_weaken; [done| |by apply traced_fprintf]. done.
  - eapply traced_bind; [by apply traced_pipe|]. intros pipefd evs2 _.
    destruct pipefd as [[pipefd0 pipefd1]|]; cycle 1.
    { eapply traced_weaken; [done| |by apply traced_fprintf]. done. }
    eapply traced_bind; [by apply traced_fork|]. intros piped_pid evs3 _.
    destruct piped_pid.
    + eapply traced_weaken; [done| |by apply traced_fprintf]. done.
    + eapply traced_bind; [by apply traced_close|]. intros [] evs4 _.
      eapply traced_bind; [apply Hred|]. intros [reset err] evs5 _.
      destruct err; [by apply traced_ret|]. cbn [negb].
      eapply traced_bind; [by apply traced_exec|]. intros r evs6 _.
      eapply traced_bind; [apply Hmsg|]. intros [] evs7 _.
      eapply traced_bind; [by apply traced_dup2|]. intros ? evs8 _.
      by apply traced_ret.
    + eapply traced_bind; [by apply traced_close|]. intros [] evs4 _.
      eapply traced_bind; [by apply traced_wait|]. intros [] evs4' _.
      eapply traced_bind; [apply Hred|]. intros [reset err] evs5 _.
      destruct err; [by apply traced_ret|]. cbn [negb].
      eapply traced_bind; [by apply traced_exec|]. intros r evs6 _.
      eapply traced_bind; [apply Hmsg|]. intros [] evs7 _.
      eapply traced_bind; [by apply traced_dup2|]. intros ? evs8 _.
      by apply traced_ret.
  - destruct _wait; [|by apply traced_ret].
    eapply traced_weaken; [done| |by apply traced_wait]. done.
Qed.

Lemma traced_restore_swap l :
  traced swap_event
    ((if redirected l then
        _ ← sys_dup2 (redirected_from l) (redirected_to l);
        sys_close (redirected_from l)
      else mret tt) : M unit) (λ _ _, True).
Proof.
  destruct (redirected l); [|by apply traced_ret].
  eapply traced_bind; [by apply traced_dup2|]. intros ? evs1 _.
  eapply traced_weaken; [done| |by apply traced_close]. done.
Qed.

(** What follows the scan leaves no complaint about a file. *)
Lemma traced_finish_run l :
  traced run_event (interpretArgs_finish l) (λ _ _, True).
Proof.
  unfold interpretArgs_finish.
  eapply traced_bind with (P1 := λ _ _, True).
  - destruct (error l); cbn [negb]; [by apply traced_ret|].
    destruct (pipe l);
      [apply traced_forkAndPipeInto_run|apply traced_forkInto_run].
  - intros [] evs1 _.
    eapply traced_weaken; [apply swap_run| |apply traced_restore_swap].
    done.
Qed.

(** [redirectToFile] complains about the file only when it sets
    [error]. *)
Lemma traced_redirectToFile_refused file dest err :
  traced quiet_event (redirectToFile file dest err)
    (λ r evs, r.2 = false → forallb (λ e, negb (open_refused e)) evs = true).
Proof.
  unfold redirectToFile. destruct file as [p|]; cycle 1.
  { eapply traced_bind; [by apply traced_fprintf|]. intros [] evs _.
    by apply traced_ret. }
  eapply traced_bind; [by apply traced_gets|]. intros path evs0 ->.
  assert (∀ fd, traced quiet_event
            ((redirect fd dest err ≫= λ '(std_tmp_copy, error),
               sys_close fd;; mret (std_tmp_copy, error)) : M (Z * bool))
            (λ r evs, forallb (λ e, negb (open_refused e)) evs = true))
    as Hswap.
  { intros fd.
    eapply traced_weaken; [apply swap_quiet| |].
    2:{ apply traced_class.
        eapply traced_bind with (P2 := λ _ _, True);
          [apply traced_redirect_swap|].
        intros [tmp e] evs1 _.
        eapply traced_bind; [by apply traced_close|]. intros [] evs2 _.
        by apply traced_ret. }
    intros r evs [H _]. revert H. apply forallb_impl, swap_not_refused. }
  case_bool_decide.
  - eapply traced_bind; [by apply traced_open|]. intros fd evs1 ->.
    case_bool_decide.
    + eapply traced_bind; [by apply traced_fprintf|]. intros [] evs2 _.
      by apply traced_ret.
    + eapply traced_weaken; [done| |apply Hswap].
      intros r evs Hq _. exact Hq.
  - eapply traced_bind; [by apply traced_creat|]. intros fd evs1 ->.
    case_bool_decide.
    + eapply traced_bind; [by apply traced_fprintf|]. intros [] evs2 _.
      by apply traced_ret.
    + eapply traced_weaken; [done| |apply Hswap].
      intros r evs Hq _. exact Hq.
Qed.

Lemma traced_conj {A} Q (m : M A) (P1 P2 : A → list event → Prop) :
  traced Q m P1 → traced Q m P2 →
  traced Q m (λ a evs, P1 a evs ∧ P2 a evs).
Proof.
  intros H1 H2 s. destruct (H1 s) as (evs1 & Hs1 & HP1).
  destruct (H2 s) as (evs2 & Hs2 & HP2).
  assert (evs2 = evs1) as ->.
  { destruct Hs1 as [Ht1 _], Hs2 as [Ht2 _]. rewrite Ht1 in Ht2.
    by apply app_inv_head in Ht2. }
  exists evs1. split; [done|]. by destruct (m s).
Qed.

Lemma traced_body_refused args arg l :
  traced scan_event (interpretArgs_body args arg l)
    (λ r evs,
       error r.2 = false →
       forallb (λ e, negb (open_refused e)) evs = true).
Proof.
  unfold interpretArgs_body. destruct (at_index args arg) as [p|]; cycle 1.
  { intros s. exists []. split; [apply steps_refl|done]. }
  eapply traced_bind; [by apply traced_gets|]. intros c evs0 ->.
  destruct (is_char c "<" || is_char c ">").
  { destruct (redirected l).
    - eapply traced_bind; [by apply traced_fprintf|]. intros [] evs1 _.
      by apply traced_ret.
    - eapply traced_bind.
      { eapply traced_weaken; [apply quiet_scan| |].
        2: apply traced_redirectToFile_refused.
        intros a evs H. exact H. }
      intros [from err'] evs1 Herr. cbn in Herr.
      apply traced_ret. cbn. rewrite app_nil_r. done. }
  destruct (is_char c "|").
  { destruct (pipe l).
    - eapply traced_bind; [by apply traced_fprintf|]. intros [] evs1 _.
      by apply traced_ret.
    - by apply traced_ret. }
  destruct (is_char c "&"); by apply traced_ret.
Qed.

Lemma traced_loop_refused fuel args arg_count :
  ∀ arg l,
    traced scan_event (interpretArgs_loop fuel args arg_count arg l)
      (λ l' evs,
         error l' = false →
         forallb (λ e, negb (open_refused e)) evs = true).
Proof.
  induction fuel as [|fuel IH]; intros arg l; cbn [interpretArgs_loop].
  - destruct (bool_decide (arg < arg_count) && negb (error l));
      by apply traced_ret.
  - destruct (bool_decide (arg < arg_count) && negb (error l));
      [|by apply traced_ret].
    eapply traced_bind.
    { apply traced_conj; [apply traced_body|apply traced_body_refused]. }
    intros [arg' l'] evs1 [(_ & _ & _) Href]. cbn in Href.
    eapply traced_weaken; [done| |].
    2:{ apply traced_conj; [apply (traced_loop fuel args arg_count)|apply IH]. }
    intros l'' evs2 [[Hmono' _] Href']. cbn. intros Hl''.
    rewrite forallb_app. rewrite Href' by done. rewrite Href; [done|].
    destruct (error l') eqn:E; [|done].
    rewrite Hmono' in Hl'' by done. done.
Qed.

Lemma file_error_existsb evs :
  file_error evs → existsb open_refused evs = true.
Proof.
  intros [H|[path H]]; apply existsb_exists; eexists;
    (split; [apply list_elem_of_In, H|done]).
Qed.

Lemma existsb_forallb_negb {A} (f : A → bool) (xs : list A) :
  existsb f xs = true → forallb (λ x, negb (f x)) xs = true → False.
Proof.
  intros (x & Hin & Hx)%existsb_exists H.
  rewrite forallb_forall in H. specialize (H x Hin). by rewrite Hx in H.
Qed.

Lemma scan_not_exec e : scan_event e = true → negb (is_exec e) = true.
Proof. by destruct e as [[]| | | | | | | | | |]. Qed.

Lemma interpretArgs_file_error args arg_count s :
  let evs := added s (interpretArgs args arg_count s) in
  file_error evs → forallb scan_event evs = true.
Proof.
  cbn zeta. unfold interpretArgs, mbind, M_bind.
  destruct (traced_conj _ _ _ _
              (traced_loop arg_count args arg_count 0 (locals_init arg_count))
              (traced_loop_refused arg_count args arg_count 0
                 (locals_init arg_count)) s)
    as (evs1 & Hs1 & HP).
  destruct (interpretArgs_loop _ _ _ _ _ s) as [l' s1|h s1]; cbn in Hs1.
  - destruct HP as [_ Href]. destruct (error l') eqn:He.
    + destruct (traced_finish_error l' He s1) as (evs2 & Hs2 & _).
      assert (steps scan_event s (final (interpretArgs_finish l' s1))
                (evs1 ++ evs2)) as Hs.
      { eapply steps_trans; [exact Hs1|].
        eapply steps_weaken; [apply quiet_scan|exact Hs2]. }
      rewrite (added_steps _ _ _ _ Hs). intros _. apply Hs.
    + destruct (traced_finish_run l' s1) as (evs2 & Hs2 & _).
      assert (steps (λ _, true) s (final (interpretArgs_finish l' s1))
                (evs1 ++ evs2)) as Hs.
      { eapply steps_trans; (eapply steps_weaken; [|eassumption]); done. }
      rewrite (added_steps _ _ _ _ Hs).
      intros Hf%file_error_existsb. exfalso.
      eapply existsb_forallb_negb; [exact Hf|].
      rewrite forallb_app. rewrite Href by done.
      destruct Hs2 as (_ & H2 & _). revert H2.
      apply forallb_impl, run_not_refused.
  - cbn. rewrite (added_steps _ _ (Halt h s1) _ Hs1). intros _. apply Hs1.
Qed.

Lemma restore_returns l s :
  ∃ s',
    ((if redirected l then
        _ ← sys_dup2 (redirected_from l) (redirected_to l);
        sys_close (redirected_from l)
      else mret tt) : M unit) s = Ok tt s'.
Proof.
  destruct (redirected l); [|by eexists].
  destruct (sys_dup2_calls (redirected_from l) (redirected_to l) s)
    as (r & s1 & E & _).
  rewrite (bind_ok _ _ _ _ _ E).
  destruct (sys_close_calls (redirected_from l) s1) as (s2 & E2 & _).
  by exists s2.
Qed.

(** A command in the interpreter: the events of the scan, then at most
    one [fork] with its [wait] or its complaint, then the descriptor put
    back. *)
Lemma interpretArgs_shell args arg_count s :
  head (forks s) ≠ Some InChild →
  match interpretArgs_loop arg_count args arg_count 0
          (locals_init arg_count) s with
  | Halt h s1 =>
      interpretArgs args arg_count s = Halt h s1 ∧
      ∃ scan, trace s1 = trace s ++ scan ∧ forallb scan_event scan = true
  | Ok l' s1 =>
      ∃ scan run back s',
        interpretArgs args arg_count s = Ok tt s' ∧
        trace s' = trace s ++ scan ++ run ++ back ∧
        forallb scan_event scan = true ∧
        forallb swap_event back = true ∧
        (if error l' then run = []
         else ∃ r, r ≠ InChild ∧ run = spawn_events r (wait l'))
  end.
Proof.
  intros Hnc. unfold interpretArgs.
  destruct (traced_loop arg_count args arg_count 0 (locals_init arg_count) s)
    as (evs1 & Hs1 & _).
  destruct (interpretArgs_loop _ _ _ _ _ s) as [l' s1|h s1] eqn:E;
    cbn in Hs1.
  - rewrite (bind_ok _ _ _ _ _ E).
    destruct Hs1 as (Ht1 & Hq1 & _ & _ & _ & Hk1 & _).
    specialize (Hk1 (scan_events_no_spawn _ Hq1)).
    unfold interpretArgs_finish.
    assert (∃ run s2,
              ((if negb (error l') then
                  if pipe l'
                  then forkAndPipeInto (exec_args l') (pipe_prog l') (wait l')
                  else forkInto (exec_args l') (wait l')
                else mret tt) : M unit) s1 = Ok tt s2 ∧
              trace s2 = trace s1 ++ run ∧
              (if error l' then run = []
               else ∃ r, r ≠ InChild ∧ run = spawn_events r (wait l')))
      as (run & s2 & E2 & Ht2 & Hrun).
    { destruct (error l'); cbn [negb].
      { exists [], s1. by rewrite app_nil_r. }
      destruct (forkInto_shell (exec_args l') (wait l') s1)
        as (r & s2 & E2 & Hr & Ht2 & _); [by rewrite Hk1|].
      exists (spawn_events r (wait l')), s2. split_and!; [|done|by exists r].
      destruct (pipe l'); [|done].
      rewrite forkAndPipeInto_shell; [done|by rewrite Hk1]. }
    rewrite (bind_ok _ _ _ _ _ E2).
    destruct (traced_restore_swap l' s2) as (back & Hs3 & _).
    destruct (restore_returns l' s2) as (s' & E3).
    rewrite E3 in Hs3 |- *. cbn in Hs3.
    exists evs1, run, back, s'. split_and!; [done| |done| |done].
    + destruct Hs3 as (-> & _). by rewrite Ht2, Ht1, <- !app_assoc.
    + apply Hs3.
  - rewrite (bind_halt _ _ _ _ _ E). split; [done|].
    exists evs1. split; apply Hs1.
Qed.

Lemma swap_not_fork e : swap_event e = true → negb (is_fork e) = true.
Proof. by destruct e as [[]| | | | | | | | | |]. Qed.

Lemma swap_not_exec e : swap_event e = true → negb (is_exec e) = true.
Proof. by destruct e as [[]| | | | | | | | | |]. Qed.

Lemma forks_made_app evs1 evs2 :
  forks_made (evs1 ++ evs2) = forks_made evs1 + forks_made evs2.
Proof. unfold forks_made. by rewrite List.filter_app, length_app. Qed.

Lemma forks_made_none evs : no_spawn evs → forks_made evs = 0.
Proof.
  unfold no_spawn, forks_made. induction evs as [|e evs IH]; [done|].
  cbn. intros [He H]%andb_true_iff. apply negb_true_iff in He.
  rewrite He. by apply IH.
Qed.

Lemma forks_made_spawn r _wait : forks_made (spawn_events r _wait) = 1.
Proof. by destruct r, _wait. Qed.

Lemma spawn_not_exec r _wait :
  forallb (λ e, negb (is_exec e)) (spawn_events r _wait) = true.
Proof. by destruct r, _wait. Qed.

(** The scan keeps [wait] set when no token starts with [&]. *)
Lemma loop_wait fuel args arg_count :
  ∀ arg l s,
    (∀ k p, k < arg_count → at_index args k = Some p →
            is_char (char_at s p) "&" = false) →
    wait l = true →
    match interpretArgs_loop fuel args arg_count arg l s with
    | Ok l' _ => wait l' = true
    | Halt _ _ => True
    end.
Proof.
  induction fuel as [|fuel IH]; intros arg l s Hno Hw;
    cbn [interpretArgs_loop].
  - by destruct (bool_decide (arg < arg_count) && negb (error l)).
  - destruct (bool_decide (arg < arg_count) && negb (error l)) eqn:Hc;
      [|done].
    apply andb_true_iff in Hc as [Harg%bool_decide_eq_true _].
    destruct (traced_body args arg l s) as (evs & (_ & _ & Hmem & _) & _).
    assert (match interpretArgs_body args arg l s with
            | Ok (_, l') _ => wait l' = true
            | Halt _ _ => True
            end) as Hb.
    { unfold interpretArgs_body.
      destruct (at_index args arg) as [p|] eqn:Hp; [|done].
      rewrite (bind_ok _ _ s (char_at s p) s) by done.
      destruct (is_char (char_at s p) "<" || is_char (char_at s p) ">").
      { destruct (redirected l); [by run_m|].
        match goal with
        | |- context [redirectToFile ?f ?d ?e] =>
            destruct (redirectToFile_returns f d e s) as ([from err'] & s1 & E)
        end.
        rewrite (bind_ok _ _ _ _ _ E). by run_m. }
      destruct (is_char (char_at s p) "|").
      { by destruct (pipe l); run_m. }
      rewrite (Hno arg p Harg Hp). by run_m. }
    destruct (interpretArgs_body args arg l s) as [[arg' l'] s1|h s1] eqn:E;
      [|by rewrite (bind_halt _ _ _ _ _ E)].
    rewrite (bind_ok _ _ _ _ _ E). cbn in Hmem. apply IH; [|done].
    intros k p Hk Hp. rewrite (char_at_same s s1) by done. by eapply Hno.
Qed.


(** X8. In the interpreter a command with a pipe costs what a command
    without one costs: [forkAndPipeInto] does there what [forkInto] does,
    one [fork] and at most one [wait]. The pipe is made by the child: the
    interpreter calls no [pipe], and its descriptor table is what it
    was. *)
Theorem pipe_in_interpreter_is_plain_fork args dest_prog _wait s :
  head (forks s) ≠ Some InChild →
  forkAndPipeInto args dest_prog _wait s = forkInto args _wait s ∧
  forallb (λ e, match e with SysPipe _ => false | _ => true end)
    (added s (forkAndPipeInto args dest_prog _wait s)) = true ∧
  fds (final (forkAndPipeInto args dest_prog _wait s)) = fds s.
Proof.
  intros Hnc. rewrite forkAndPipeInto_shell by done. split; [done|].
  destruct (forkInto_shell args _wait s Hnc)
    as (r & s' & E & Hr & Ht & Hm & Hfds & _).
  unfold added. rewrite E. cbn. rewrite Ht, drop_app_length.
  split; [|done]. by destruct r, _wait.
Qed.

(** [forkInto] in the child. *)
Lemma forkInto_child_events args _wait s k p :
  forks s = InChild :: k → at_index args 0 = Some p →
  let prog := load_str s p in
  let argv := argv_strings s args in
  let r := forkInto args _wait s in
  same_memory s (final r) ∧ fds (final r) = fds s ∧ fs (final r) = fs s ∧
  if bool_decide (prog ∈ programs s) then
    (∃ s', r = Halt Replaced s') ∧
    added s r = [SysFork InChild; SysExecvp prog argv true]
  else
    (∃ s', r = Ok tt s') ∧
    added s r = [SysFork InChild; SysExecvp prog argv false;
                 Stderr (ProgramNotFound (Some prog))].
Proof.
  intros E Hp. cbn zeta. rewrite (forkInto_child_run args _wait s k p E Hp).
  unfold added. case_bool_decide; cbn.
  - split_and!; try done; [by eexists|].
    rewrite <- app_assoc. apply drop_app_length.
  - split_and!; try done; [by eexists|].
    rewrite <- !app_assoc. apply drop_app_length.
Qed.

(** X4. In the child, [forkInto] calls [execvp] on [args[0]] with the
    strings of [args] up to its first [NULL]. When the program is found
    the call does not return. When it is not found, [ProgramNotFound] is
    reported with the name and [forkInto] returns to its caller: the child
    is not ended, it goes on as the interpreter does. Descriptors and files
    are what they were. *)
Theorem forkInto_in_child args _wait s k p :
  forks s = InChild :: k → at_index args 0 = Some p →
  let prog := load_str s p in
  let argv := argv_strings s args in
  let r := forkInto args _wait s in
  same_memory s (final r) ∧ fds (final r) = fds s ∧ fs (final r) = fs s ∧
  if bool_decide (prog ∈ programs s) then
    (∃ s', r = Halt Replaced s') ∧
    added s r = [SysFork InChild; SysExecvp prog argv true]
  else
    (∃ s', r = Ok tt s') ∧
    added s r = [SysFork InChild; SysExecvp prog argv false;
                 Stderr (ProgramNotFound (Some prog))].
Proof. apply forkInto_child_events. Qed.

(** X13. In the interpreter a command calls [fork] at most once and
    never [exec], whatever its tokens are and however the scan ends. *)
Theorem interpreter_forks_at_most_once args arg_count s :
  head (forks s) ≠ Some InChild →
  let evs := added s (interpretArgs args arg_count s) in
  forallb (λ e, negb (is_exec e)) evs = true ∧ forks_made evs ≤ 1.
Proof.
  intros Hnc. cbn zeta.
  pose proof (interpretArgs_shell args arg_count s Hnc) as H.
  destruct (interpretArgs_loop _ _ _ _ _ s) as [l' s1|h s1].
  - destruct H as (scan & run & back & s' & -> & Ht & Hscan & Hback & Hrun).
    unfold added. cbn. rewrite Ht, drop_app_length.
    assert (forallb (λ e, negb (is_exec e)) run = true ∧ forks_made run ≤ 1)
      as [Hr1 Hr2].
    { destruct (error l'); [subst run; split; [done|cbn; lia]|].
      destruct Hrun as (r & _ & ->).
      by rewrite spawn_not_exec, forks_made_spawn. }
    split.
    + rewrite !forallb_app, Hr1.
      rewrite (forallb_impl _ _ _ scan_not_exec Hscan).
      by rewrite (forallb_impl _ _ _ swap_not_exec Hback).
    + rewrite !forks_made_app.
      rewrite (forks_made_none scan) by by apply scan_events_no_spawn.
      rewrite (forks_made_none back)
        by (revert Hback; apply forallb_impl, swap_not_fork).
      lia.
  - destruct H as (-> & scan & Ht & Hscan). unfold added. cbn.
    rewrite Ht, drop_app_length. split.
    + revert Hscan. apply forallb_impl, scan_not_exec.
    + rewrite forks_made_none; [lia|]. by apply scan_events_no_spawn.
Qed.

(** X14. The calls of a command none of whose tokens starts with [&]:
    in the interpreter, if a child was made for it, the call that follows
    the [fork] is [wait(NULL)], and it is the only [fork] of the command.
    This is the order of the calls: [wait(NULL)] returns when any child of
    the interpreter has ended, one left by an earlier [&] as well, so the
    call need not last until this child ends. *)
Theorem foreground_fork_is_followed_by_wait args arg_count s :
  head (forks s) ≠ Some InChild →
  (∀ k p, k < arg_count → at_index args k = Some p →
          is_char (char_at s p) "&" = false) →
  let evs := added s (interpretArgs args arg_count s) in
  ∀ pid, SysFork (InParent pid) ∈ evs →
    ∃ scan back,
      evs = scan ++ [SysFork (InParent pid); SysWait] ++ back ∧
      no_spawn scan ∧ no_spawn back.
Proof.
  intros Hnc Hno. cbn zeta.
  pose proof (interpretArgs_shell args arg_count s Hnc) as H.
  pose proof (loop_wait arg_count args arg_count 0 (locals_init arg_count)
                s Hno eq_refl) as Hw.
  assert (∀ evs e, no_spawn evs → e ∈ evs → is_fork e = true → False)
    as Hnf.
  { intros evs e Hn Hin He. unfold no_spawn in Hn.
    rewrite forallb_forall in Hn. apply list_elem_of_In, Hn in Hin.
    by rewrite He in Hin. }
  destruct (interpretArgs_loop _ _ _ _ _ s) as [l' s1|h s1].
  - destruct H as (scan & run & back & s' & -> & Ht & Hscan & Hback & Hrun).
    unfold added. cbn. rewrite Ht, drop_app_length.
    apply scan_events_no_spawn in Hscan.
    assert (no_spawn back) as Hback'.
    { revert Hback. apply forallb_impl, swap_not_fork. }
    intros pid Hin. exists scan, back. split_and!; [|done..].
    apply elem_of_app in Hin as [Hin|Hin]; [by destruct (Hnf _ _ Hscan Hin)|].
    apply elem_of_app in Hin as [Hin|Hin];
      [|by destruct (Hnf _ _ Hback' Hin)].
    destruct (error l'); [subst run; by apply elem_of_nil in Hin|].
    destruct Hrun as (r & _ & ->). rewrite Hw in Hin |- *.
    destruct r; cbn in Hin.
    + apply elem_of_cons in Hin as [?|Hin]; [done|].
      by apply list_elem_of_singleton in Hin.
    + by apply list_elem_of_singleton in Hin.
    + apply elem_of_cons in Hin as [[= ->]|Hin]; [done|].
      by apply list_elem_of_singleton in Hin.
  - destruct H as (-> & scan & Ht & Hscan). unfold added. cbn.
    rewrite Ht, drop_app_length. intros pid Hin.
    by destruct (Hnf _ _ (scan_events_no_spawn _ Hscan) Hin).
Qed.

(** X15. Whenever [MissingPath] or [FileOpenFailure] is among the
    reports of a command, no process was spawned and no program executed.
    The report is the condition, not the shape of the line: a redirect
    token at the end of the line takes [args[arg_count]] for its path,
    which is [NULL], and reported, only as long as no earlier line has
    stored a token there. *)
Theorem file_error_report_runs_nothing args arg_count s :
  let evs := added s (interpretArgs args arg_count s) in
  file_error evs →
  no_spawn evs ∧ forallb (λ e, negb (is_exec e)) evs = true.
Proof.
  cbn zeta. intros H%interpretArgs_file_error. split.
  - by apply scan_events_no_spawn.
  - revert H. apply forallb_impl, scan_not_exec.
Qed.

End spawning.

(** ** Redirection and the files *)

Section redirection.

Implicit Types (s : shell) (t : gmap Z ofile).

(** The swap and the files: none is touched. *)
Lemma steps_swap_files s s' evs : steps swap_event s s' evs → fs s' = fs s.
Proof.
  intros (_ & Hq & _ & _ & _ & _ & Hf). apply map_eq. intros path.
  destruct (decide (fs s' !! path = fs s !! path)) as [|Hne]; [done|].
  destruct (Hf path Hne) as (mode & fd & Hin & _).
  rewrite forallb_forall in Hq. apply list_elem_of_In, Hq in Hin. done.
Qed.

(** X5. [redirect] and the restoration of [interpretArgs] undo each
    other. With [dest] and [source] open and a free entry in the table,
    [redirect] returns a fresh descriptor for what [dest] referred to,
    leaves [dest] on what [source] refers to and does not set [error];
    [dup2] of the descriptor returned onto [dest], then [close] of it,
    gives back the descriptor table [redirect] started from. *)
Theorem redirect_then_restore source dest err s o f :
  fds s !! dest = Some o → (0 ≤ dest)%Z →
  fds s !! source = Some f → (0 ≤ source)%Z →
  is_Some (lowest_free (fds s) (fd_limit s)) →
  ∃ saved s1 s2,
    redirect source dest err s = Ok (saved, err) s1 ∧
    fds s !! saved = None ∧
    fds s1 = <[dest := f]> (<[saved := o]> (fds s)) ∧
    (sys_dup2 saved dest ≫= λ _, sys_close saved) s1 = Ok tt s2 ∧
    fds s2 = fds s ∧
    added s (Ok tt s2) =
      [SysDup dest saved; SysDup2 source dest dest;
       SysDup2 saved dest dest; SysClose saved].
Proof.
  intros Hdest Hdest0 Hsrc Hsrc0 [saved Hsaved].
  destruct (lowest_free_spec _ _ _ Hsaved) as [Hfree Hs0].
  assert (saved ≠ dest) as Hsd by congruence.
  assert (saved ≠ source) as Hss by congruence.
  assert (dest ≠ (-1)%Z) as Hd1 by lia.
  exists saved. eexists. eexists.
  unfold redirect, mbind, M_bind, sys_dup, sys_dup2, sys_close, fd_lookup.
  rewrite (bool_decide_eq_true_2 _ Hdest0).
  rewrite (bool_decide_eq_true_2 _ Hsrc0).
  rewrite Hdest, Hsaved. cbn.
  rewrite lookup_insert_ne, Hsrc by done. cbn.
  rewrite (bool_decide_eq_false_2 _ Hd1). cbn.
  split; [reflexivity|]. split; [done|]. split; [done|].
  rewrite (bool_decide_eq_true_2 _ Hs0). cbn [fds log set_fds].
  rewrite lookup_insert_ne, lookup_insert_eq by done. cbn.
  split; [reflexivity|]. cbn. split.
  - apply map_eq. intros k.
    destruct (decide (k = saved)) as [->|Hk].
    { by rewrite lookup_delete_eq. }
    rewrite lookup_delete_ne by done.
    destruct (decide (k = dest)) as [->|Hk2].
    { by rewrite lookup_insert_eq. }
    by rewrite !lookup_insert_ne.
  - unfold added. cbn. rewrite <- !app_assoc. apply drop_app_length.
Qed.

Lemma swap_close_files fd dest err s :
  fs (final ((redirect fd dest err ≫= λ '(std_tmp_copy, error),
                sys_close fd;; mret (std_tmp_copy, error)) s)) = fs s.
Proof.
  assert (traced swap_event
            ((redirect fd dest err ≫= λ '(std_tmp_copy, error),
               sys_close fd;; mret (std_tmp_copy, error)) : M (Z * bool))
            (λ _ _, True)) as H.
  { eapply traced_bind with (P2 := λ _ _, True);
      [apply traced_redirect_swap|].
    intros [tmp e] evs1 _.
    eapply traced_bind; [by apply traced_close|]. intros [] evs2 _.
    by apply traced_ret. }
  destruct (H s) as (evs & Hs & _). by eapply steps_swap_files.
Qed.

(** X6. The files after [redirectToFile]. A redirection of standard
    input changes no file. Any other changes at most the file it names:
    that file is left empty, with the permission bits it had, or with 0600
    when it did not exist. *)
Theorem redirectToFile_files file dest err s :
  let r := redirectToFile file dest err s in
  let mode := Z.lor S_IRUSR S_IWUSR in
  (dest = STDIN_FILENO → fs (final r) = fs s) ∧
  (fs (final r) = fs s ∨
   ∃ p, file = Some p ∧ dest ≠ STDIN_FILENO ∧
        fs (final r) =
          <[load_str s p :=
              File (default mode (f_mode <$> fs s !! load_str s p))
                   EmptyString]> (fs s)).
Proof.
  cbn zeta. unfold redirectToFile. destruct file as [p|]; cycle 1.
  { split; [done|by left]. }
  rewrite (bind_ok _ _ s (load_str s p) s) by done.
  set (path := load_str s p).
  case_bool_decide as Hd.
  - destruct (sys_open_result path (Z.lor S_IRUSR S_IWUSR) s)
      as (fd & s1 & E & _ & _ & _ & Hfs & _).
    rewrite (bind_ok _ _ _ _ _ E).
    assert (fs (final
              ((if bool_decide (fd = (-1)%Z) then
                  fprintf_stderr (FileOpenFailure path);; mret ((-1)%Z, true)
                else
                  '(std_tmp_copy, error) ← redirect fd dest err;
                  sys_close fd;; mret (std_tmp_copy, error)) s1
               : res (Z * bool))) = fs s) as H.
    { case_bool_decide; [done|]. by rewrite swap_close_files. }
    split; [done|by left].
  - destruct (sys_creat_result path (Z.lor S_IRUSR S_IWUSR) s)
      as (fd & s1 & E & _ & _ & _ & Hres).
    rewrite (bind_ok _ _ _ _ _ E). split; [done|].
    destruct Hres as [(-> & _ & Hfs)|(Hfd0 & _ & _ & Hfs)].
    + left. by rewrite bool_decide_eq_true_2.
    + right. exists p. split_and!; [done..|].
      rewrite bool_decide_eq_false_2 by lia.
      by rewrite swap_close_files.
Qed.

End redirection.

(** ** The argument vector *)

Section vectors.

Implicit Types (s : shell) (l : locals).

Lemma loop_exec_args_ok fuel args arg_count :
  ∀ arg l s,
    exec_args_ok args arg_count l → exec_arg_count l ≤ arg →
    match interpretArgs_loop fuel args arg_count arg l s with
    | Ok l' _ => exec_args_ok args arg_count l'
    | Halt _ _ => True
    end.
Proof.
  induction fuel as [|fuel IH]; intros arg l s Hok Hle;
    cbn [interpretArgs_loop].
  - by destruct (bool_decide (arg < arg_count) && negb (error l)).
  - destruct (bool_decide (arg < arg_count) && negb (error l)) eqn:Hc;
      [|done].
    apply andb_true_iff in Hc as [Harg%bool_decide_eq_true _].
    pose proof (body_exec_args args arg l s) as Hb.
    destruct (traced_body args arg l s) as (evs & _ & Hcur).
    destruct (interpretArgs_body args arg l s) as [[arg' l'] s1|h s1] eqn:E;
      [|by rewrite (bind_halt _ _ _ _ _ E)].
    rewrite (bind_ok _ _ _ _ _ E). destruct Hb as [_ Hl'].
    destruct Hcur as (Hcur & _). cbn in Hcur.
    destruct Hok as (Hlen & Hn & Hlow & Hhigh).
    apply IH.
    + destruct Hl' as [[Hsame Hcount]|(p & Hp & _ & ->)].
      * unfold exec_args_ok. by rewrite Hsame, Hcount.
      * unfold exec_args_ok. cbn. rewrite length_insert.
        split_and!; [done|lia| |].
        -- intros k Hk. destruct (decide (k = exec_arg_count l)) as [->|Hne].
           ++ exists p, arg. rewrite list_lookup_insert_eq by lia. done.
           ++ rewrite list_lookup_insert_ne by done. apply Hlow. lia.
        -- intros k Hk1 Hk2. rewrite list_lookup_insert_ne by lia.
           apply Hhigh; lia.
    + destruct Hl' as [[_ ->]|(p & _ & _ & ->)]; cbn; lia.
Qed.

Lemma locals_init_ok args arg_count :
  exec_args_ok args arg_count (locals_init arg_count).
Proof.
  unfold exec_args_ok, locals_init. cbn. rewrite length_replicate.
  split_and!; [done|lia|lia|].
  intros k _ Hk. apply lookup_replicate. split; [done|lia].
Qed.

Lemma argv_strings_length s argv n :
  (∀ k, k < n → ∃ p, argv !! k = Some (Some p)) →
  argv !! n = Some None →
  List.length (argv_strings s argv) = n.
Proof.
  revert argv. induction n as [|n IH]; intros argv Hlow Hnull.
  - destruct argv as [|[p|] argv]; try done.
  - destruct (Hlow 0) as [p Hp]; [lia|].
    destruct argv as [|a argv]; [done|]. cbn in Hp. injection Hp as ->.
    cbn. f_equal. apply IH; [|done].
    intros k Hk. apply (Hlow (S k)). lia.
Qed.

Lemma loop_plain fuel args arg_count s :
  arg_count ≤ List.length args →
  (∀ k, k < arg_count →
     ∃ p, at_index args k = Some p ∧ control_char (char_at s p) = false) →
  ∀ arg,
    arg ≤ arg_count → arg_count - arg ≤ fuel →
    interpretArgs_loop fuel args arg_count arg
      (plain_locals args arg_count arg) s =
    Ok (plain_locals args arg_count arg_count) s.
Proof.
  intros Hlen Hplain.
  induction fuel as [|fuel IH]; intros arg Harg Hfuel;
    cbn [interpretArgs_loop].
  - assert (arg = arg_count) as -> by lia.
    rewrite bool_decide_eq_false_2 by lia. reflexivity.
  - case_bool_decide as Hlt; cbn [andb]; cycle 1.
    { assert (arg = arg_count) as -> by lia. reflexivity. }
    cbn [error plain_locals negb].
    destruct (Hplain arg Hlt) as (p & Hp & Hc).
    assert (interpretArgs_body args arg (plain_locals args arg_count arg) s =
            Ok (arg, plain_locals args arg_count (S arg)) s) as E.
    { unfold interpretArgs_body. rewrite Hp.
      rewrite (bind_ok _ _ s (char_at s p) s) by done.
      unfold control_char in Hc.
      apply orb_false_iff in Hc as [Hc H4].
      apply orb_false_iff in Hc as [Hc H3].
      rewrite Hc, H3, H4. unfold mret, M_ret. f_equal. f_equal.
      unfold push_exec_arg, plain_locals. cbn. f_equal.
      assert (args !! arg = Some (Some p)) as Ha.
      { unfold at_index in Hp. destruct (args !! arg) as [[q|]|]; cbn in Hp;
          congruence. }
      rewrite (take_S_r _ _ _ Ha), <- app_assoc. cbn.
      replace (arg_count + 1 - arg) with (S (arg_count + 1 - S arg)) by lia.
      cbn. rewrite insert_app_r_alt by (rewrite length_take; lia).
      rewrite length_take. replace (arg - arg `min` List.length args) with 0 by lia.
      done. }
    rewrite (bind_ok _ _ _ _ _ E). apply IH; lia.
Qed.

Lemma plain_command_forkInto args arg_count s :
  arg_count ≤ List.length args →
  (∀ k, k < arg_count →
     ∃ p, at_index args k = Some p ∧ control_char (char_at s p) = false) →
  interpretArgs args arg_count s =
    forkInto (take arg_count args ++ [None]) true s.
Proof.
  intros Hlen Hplain. unfold interpretArgs.
  pose proof (loop_plain arg_count args arg_count s Hlen Hplain 0) as E.
  assert (plain_locals args arg_count 0 = locals_init arg_count) as E0.
  { unfold plain_locals, locals_init. by rewrite take_0, Nat.sub_0_r. }
  rewrite E0 in E.
  rewrite (bind_ok _ _ _ _ _ (E ltac:(lia) ltac:(lia))).
  unfold interpretArgs_finish, plain_locals. cbn.
  replace (arg_count + 1 - arg_count) with 1 by lia. cbn.
  unfold mbind, M_bind.
  destruct (forkInto _ _ s) as [[] s'|]; done.
Qed.

(** X11. The scan keeps inside the vector [calloc] made for it: at its
    end [exec_args] still has [arg_count + 1] entries, the first
    [exec_arg_count] of them are tokens of [args], every entry behind them
    is [NULL], and [exec_arg_count] is at most [arg_count]. The vector
    given to [exec] is so terminated by [NULL] and has [exec_arg_count]
    strings. *)
Theorem exec_args_null_terminated args arg_count s l' s' :
  interpretArgs_loop arg_count args arg_count 0 (locals_init arg_count) s
    = Ok l' s' →
  exec_args_ok args arg_count l' ∧
  List.length (argv_strings s' (exec_args l')) = exec_arg_count l'.
Proof.
  intros E.
  pose proof (loop_exec_args_ok arg_count args arg_count 0
                (locals_init arg_count) s (locals_init_ok args arg_count)) as H.
  rewrite E in H. specialize (H ltac:(cbn; lia)). split; [done|].
  destruct H as (_ & Hn & Hlow & Hhigh).
  apply argv_strings_length.
  - intros k Hk. destruct (Hlow k Hk) as (p & j & Hp & _). by exists p.
  - by apply Hhigh.
Qed.

(** X12. A command without control tokens: the scan changes nothing
    and reports nothing, and [interpretArgs] is [forkInto] on the tokens,
    all of them and in their order, with [NULL] behind them and [_wait]
    set. *)
Theorem plain_command_runs_forkInto args arg_count s :
  arg_count ≤ List.length args →
  (∀ k, k < arg_count →
     ∃ p, at_index args k = Some p ∧ control_char (char_at s p) = false) →
  interpretArgs_loop arg_count args arg_count 0 (locals_init arg_count) s =
    Ok (plain_locals args arg_count arg_count) s ∧
  interpretArgs args arg_count s =
    forkInto (take arg_count args ++ [None]) true s.
Proof.
  intros Hlen Hplain. split; [|by apply plain_command_forkInto].
  pose proof (loop_plain arg_count args arg_count s Hlen Hplain 0) as E.
  assert (plain_locals args arg_count 0 = locals_init arg_count) as E0.
  { unfold plain_locals, locals_init. by rewrite take_0, Nat.sub_0_r. }
  rewrite E0 in E. apply E; lia.
Qed.

End vectors.

(** ** The file a redirected program runs on *)

Section targets.

Implicit Types (s : shell) (l : locals) (evs : list event).

Lemma not_opened_serves t evs :
  forallb (λ e, negb (opened e)) evs = true → serves t evs.
Proof.
  intros H path mode fd Hfd. rewrite forallb_forall in H.
  split; intros Hin%list_elem_of_In%H; cbn in Hin;
    by rewrite bool_decide_eq_false_2 in Hin.
Qed.

(** [redirectToFile] on an open standard descriptor, in a table with
    room: it fails and sets [error], having opened nothing, or it leaves
    the descriptor on the file it opened. *)
Lemma redirectToFile_opened file dest err s o :
  fds s !! dest = Some o → dest = STDIN_FILENO ∨ dest = STDOUT_FILENO →
  room_for_two s →
  ∃ from err' s' evs,
    redirectToFile file dest err s = Ok (from, err') s' ∧
    trace s' = trace s ++ evs ∧
    forks s' = forks s ∧ fd_limit s' = fd_limit s ∧
    ((err' = true ∧ forallb (λ e, negb (opened e)) evs = true) ∨
     serves (fds s') evs).
Proof.
  intros Hdest Hstd Hroom. unfold redirectToFile.
  assert (0 ≤ dest)%Z as Hdest0 by (destruct Hstd as [-> | ->]; done).
  destruct file as [p|]; cycle 1.
  { eexists _, _, _, _. split; [reflexivity|]. split_and!; [done..|].
    by left. }
  rewrite (bind_ok _ _ s (load_str s p) s) by done.
  set (path := load_str s p).
  case_bool_decide as Hd.
  - destruct (sys_open_result path (Z.lor S_IRUSR S_IWUSR) s)
      as (fd & s1 & E & Htr & Hk & Hl & _ & [[-> Hfds]|(Hfd0 & Hfd & Hfds)]);
      rewrite (bind_ok _ _ _ _ _ E).
    + rewrite bool_decide_eq_true_2 by done.
      eexists _, _, _, _. split; [reflexivity|]. cbn.
      split_and!; [by rewrite Htr, <- app_assoc|done..|]. by left.
    + rewrite bool_decide_eq_false_2 by lia.
      destruct (redirect_swap fd dest err s1 (fds s) o (FileRead path))
        as (saved & s' & E' & Htr' & ? & ? & ? & ? & Hfds' & Hk' & Hl' & _);
        try done.
      { rewrite Hfds, Hl. by apply room_second. }
      eexists _, _, _, _. split; [exact E'|].
      split_and!; [by rewrite Htr', Htr, <- app_assoc|congruence..|].
      right. intros path' mode' fd' Hfd'. rewrite Hfds'. split.
      * intros Hin. cbn in Hin.
        apply elem_of_cons in Hin as [[= -> _ _]|Hin].
        { subst dest. by rewrite lookup_insert_eq. }
        repeat (apply elem_of_cons in Hin as [?|Hin]; [done|]).
        by apply elem_of_nil in Hin.
      * intros Hin. cbn in Hin.
        repeat (apply elem_of_cons in Hin as [?|Hin]; [done|]).
        by apply elem_of_nil in Hin.
  - assert (dest = STDOUT_FILENO) as -> by (by destruct Hstd).
    destruct (sys_creat_result path (Z.lor S_IRUSR S_IWUSR) s)
      as (fd & s1 & E & Htr & Hk & Hl &
          [(-> & Hfds & _)|(Hfd0 & Hfd & Hfds & _)]);
      rewrite (bind_ok _ _ _ _ _ E).
    + rewrite bool_decide_eq_true_2 by done.
      eexists _, _, _, _. split; [reflexivity|]. cbn.
      split_and!; [by rewrite Htr, <- app_assoc|done..|]. by left.
    + rewrite bool_decide_eq_false_2 by lia.
      destruct (redirect_swap fd STDOUT_FILENO err s1 (fds s) o
                  (FileWrite path))
        as (saved & s' & E' & Htr' & ? & ? & ? & ? & Hfds' & Hk' & Hl' & _);
        try done.
      { rewrite Hfds, Hl. by apply room_second. }
      eexists _, _, _, _. split; [exact E'|].
      split_and!; [by rewrite Htr', Htr, <- app_assoc|congruence..|].
      right. intros path' mode' fd' Hfd'. rewrite Hfds'. split.
      * intros Hin. cbn in Hin.
        repeat (apply elem_of_cons in Hin as [?|Hin]; [done|]).
        by apply elem_of_nil in Hin.
      * intros Hin. cbn in Hin.
        apply elem_of_cons in Hin as [[= -> _ _]|Hin].
        { by rewrite lookup_insert_eq. }
        repeat (apply elem_of_cons in Hin as [?|Hin]; [done|]).
        by apply elem_of_nil in Hin.
Qed.

Lemma serves_app t evs1 evs2 :
  serves t evs1 → serves t evs2 → serves t (evs1 ++ evs2).
Proof.
  intros H1 H2 path mode fd Hfd.
  destruct (H1 path mode fd Hfd), (H2 path mode fd Hfd).
  split; intros [?|?]%elem_of_app; auto.
Qed.

Lemma body_scanned args arg_count arg l s s0 evs :
  std_open s0 → room_for_two s0 →
  (∀ k p, k < arg_count → at_index args k = Some p →
          is_char (char_at s0 p) "|" = false) →
  arg < arg_count →
  scanned s0 l s evs →
  match interpretArgs_body args arg l s with
  | Ok (_, l') s' => ∃ evs', scanned s0 l' s' evs'
  | Halt h _ => h = Fault
  end.
Proof.
  intros Hstd Hroom Hnp Harg (Htr & Hk & Hlim & Hmem & Hpipe & Hred).
  destruct (traced_body args arg l s) as (evs1 & (_ & _ & Hmem1 & _) & _).
  revert Hmem1. unfold interpretArgs_body.
  destruct (at_index args arg) as [p|] eqn:Hp; [|done].
  rewrite (bind_ok _ _ s (char_at s p) s) by done.
  rewrite (char_at_same s0 s) by done.
  set (c := char_at s0 p).
  destruct (is_char c "<" || is_char c ">") eqn:H1.
  { destruct (redirected l) eqn:Hr.
    - run_m. intros Hmem1. exists (evs ++ [Stderr DuplicateRedirect]).
      unfold scanned. cbn. rewrite Hr, Htr, <- app_assoc.
      split_and!; done.
    - destruct Hred as [Hfds Hnone].
      set (to := if is_char c "<" then STDIN_FILENO else STDOUT_FILENO).
      assert (∃ o, fds s !! to = Some o) as [o Hto].
      { rewrite Hfds. destruct Hstd as [[o0 H0] [o1 H1']]. subst to.
        destruct (is_char c "<"); by eexists. }
      destruct (redirectToFile_opened (at_index args (S arg)) to (error l)
                  s o Hto)
        as (from & err' & s' & evs' & E & Htr' & Hk' & Hl' & Hres).
      { subst to. destruct (is_char c "<"); auto. }
      { by eapply room_for_two_same. }
      rewrite (bind_ok _ _ _ _ _ E). run_m. intros Hmem1.
      exists (evs ++ evs'). unfold scanned. cbn.
      split_and!; [by rewrite Htr', Htr, <- app_assoc|congruence..| |done|].
      + destruct Hmem as (?&?&?&?&?), Hmem1 as (?&?&?&?&?).
        unfold same_memory. split_and!; congruence.
      + intros ->. destruct Hres as [[? _]|Hres]; [done|].
        apply serves_app; [|done]. by apply not_opened_serves. }
  pose proof (Hnp arg p Harg Hp) as H2. fold c in H2. rewrite H2.
  destruct (is_char c "&"); run_m; intros Hmem1; exists evs;
    unfold scanned; cbn; rewrite Hpipe; split_and!; done.
Qed.

Lemma loop_scanned fuel args arg_count s0 :
  std_open s0 → room_for_two s0 →
  (∀ k p, k < arg_count → at_index args k = Some p →
          is_char (char_at s0 p) "|" = false) →
  ∀ arg l s evs,
    scanned s0 l s evs →
    match interpretArgs_loop fuel args arg_count arg l s with
    | Ok l' s' => ∃ evs', scanned s0 l' s' evs'
    | Halt h _ => h = Fault
    end.
Proof.
  intros Hstd Hroom Hnp.
  induction fuel as [|fuel IH]; intros arg l s evs Hsc;
    cbn [interpretArgs_loop].
  - destruct (bool_decide (arg < arg_count) && negb (error l)); by exists evs.
  - destruct (bool_decide (arg < arg_count) && negb (error l)) eqn:Hc;
      [|by exists evs].
    apply andb_true_iff in Hc as [Harg%bool_decide_eq_true _].
    pose proof (body_scanned args arg_count arg l s s0 evs Hstd Hroom Hnp
                  Harg Hsc) as Hb.
    destruct (interpretArgs_body args arg l s) as [[arg' l'] s1|h s1] eqn:E.
    + rewrite (bind_ok _ _ _ _ _ E). destruct Hb as [evs' Hsc'].
      by eapply IH.
    + by rewrite (bind_halt _ _ _ _ _ E).
Qed.

(** X17. A redirected program runs on the file. For a command without
    a pipe, in the child, with the standard descriptors open and room in
    the table: when the program is executed, the file that was opened for
    [<] is its standard input, and the file that was created for [>] is
    its standard output. *)
Theorem redirected_program_runs_on_the_file args arg_count s k :
  std_open s → room_for_two s →
  forks s = InChild :: k →
  (∀ i p, i < arg_count → at_index args i = Some p →
          is_char (char_at s p) "|" = false) →
  ∀ s', interpretArgs args arg_count s = Halt Replaced s' →
        serves (fds s') (added s (interpretArgs args arg_count s)).
Proof.
  intros Hstd Hroom Hforks Hnp s'.
  pose proof (loop_scanned arg_count args arg_count s Hstd Hroom Hnp
                0 (locals_init arg_count) s []) as Hloop.
  unfold interpretArgs.
  destruct (interpretArgs_loop _ _ _ _ _ s) as [l' s1|h s1] eqn:E.
  2:{ rewrite (bind_halt _ _ _ _ _ E). intros [= -> _].
      by specialize (Hloop ltac:(unfold scanned; rewrite app_nil_r; cbn; done)). }
  rewrite (bind_ok _ _ _ _ _ E).
  destruct Hloop as (evs & Htr & Hk & _ & Hmem & Hpipe & Hred).
  { unfold scanned. rewrite app_nil_r. cbn. done. }
  unfold interpretArgs_finish. rewrite Hpipe.
  destruct (error l') eqn:Herr; cbn [negb].
  { rewrite (bind_ok _ _ s1 tt s1) by done.
    destruct (restore_returns l' s1) as (s2 & ->). done. }
  assert (serves (fds s1) evs) as Hserves.
  { destruct (redirected l'); [by apply Hred|].
    apply not_opened_serves, Hred. }
  destruct (at_index (exec_args l') 0) as [p|] eqn:Hp; cycle 1.
  { assert (forkInto (exec_args l') (wait l') s1 =
            Halt Fault (log (SysFork InChild) (set_forks k s1))) as E1.
    { unfold forkInto, mbind, M_bind, sys_fork, execvp, sys_exec.
      by rewrite Hk, Hforks, Hp. }
    by rewrite (bind_halt _ _ _ _ _ E1). }
  pose proof (forkInto_child_run (exec_args l') (wait l') s1 k p) as E1.
  cbn zeta in E1. specialize (E1 ltac:(congruence) Hp).
  case_bool_decide.
  - rewrite (bind_halt _ _ _ _ _ E1).
    intros [= <-]. unfold added. cbn. rewrite Htr, <- !app_assoc.
    rewrite drop_app_length.
    apply serves_app; [done|]. by apply not_opened_serves.
  - rewrite (bind_ok _ _ _ _ _ E1).
    match goal with
    | |- (_ ?x = _) → _ => destruct (restore_returns l' x) as (s3 & E3)
    end.
    rewrite E3. done.
Qed.

End targets.

(** ** The ends of the pipe *)

Section pipe_ends.

Implicit Types (s : shell) (t : gmap Z ofile).

Lemma lowest_free_bound t limit fd :
  lowest_free t limit = Some fd → ∃ n, fd = Z.of_nat n ∧ n < limit.
Proof.
  unfold lowest_free.
  destruct (List.find _ _) as [n|] eqn:E; [|done].
  intros [= <-]. apply find_some in E as [E _].
  apply in_seq in E. exists n. split; [done|lia].
Qed.

(** [pipe] in a table with two free entries. *)
Lemma sys_pipe_ok s :
  room_for_two s →
  ∃ r w,
    sys_pipe s =
      Ok (Some (r, w))
        (log (SysPipe (Some (r, w)))
           (set_fds (<[w := PipeWrite (List.length (trace s))]>
                       (<[r := PipeRead (List.length (trace s))]> (fds s)))
              s)) ∧
    fds s !! r = None ∧ fds s !! w = None ∧ r ≠ w ∧
    (0 ≤ r)%Z ∧ (0 ≤ w)%Z ∧
    (∃ n, w = Z.of_nat n ∧ n < fd_limit s) ∧
    (∃ n, r = Z.of_nat n ∧ n < fd_limit s).
Proof.
  intros Hroom. unfold sys_pipe.
  destruct Hroom as (a & b & Hab & Ha & Hb & Hfa & Hfb).
  destruct (lowest_free_is_Some (fds s) (fd_limit s) a Ha Hfa) as [r Hr].
  rewrite Hr.
  assert (is_Some (lowest_free
            (<[r := PipeRead (List.length (trace s))]> (fds s)) (fd_limit s)))
    as [w Hw].
  { apply room_second. by exists a, b. }
  rewrite Hw. exists r, w. split; [done|].
  destruct (lowest_free_spec _ _ _ Hr) as [Hr1 Hr2].
  destruct (lowest_free_spec _ _ _ Hw) as [Hw1 Hw2].
  assert (r ≠ w) as Hne.
  { intros ->. by rewrite lookup_insert_eq in Hw1. }
  rewrite lookup_insert_ne in Hw1 by done.
  split_and!; try done; by eapply lowest_free_bound.
Qed.


(** X10. The process that writes into the pipe. With standard output
    open and two free entries in the table, its calls are [fork], [pipe],
    [fork], [close] of the read end, [dup], [dup2], [execvp]; when [execvp]
    is called standard output is the write end of the pipe and the read
    end [pipe] made is closed (a descriptor refers to such a read end only
    if the table held one to begin with). When the program is
    not found it is reported by name, standard output is put back and the
    call returns. *)
Theorem pipe_writer_descriptors args dest_prog _wait s k o (p : ptr) :
  forks s = InChild :: InChild :: k →
  fds s !! STDOUT_FILENO = Some o →
  room_for_two s →
  at_index args 0 = Some p →
  let prog := load_str s p in
  let argv := argv_strings s args in
  let found := bool_decide (prog ∈ programs s) in
  let id := S (List.length (trace s)) in
  ∃ r w saved s1,
    trace s1 =
      trace s ++
        [SysFork InChild; SysPipe (Some (r, w)); SysFork InChild;
         SysClose r; SysDup STDOUT_FILENO saved;
         SysDup2 w STDOUT_FILENO STDOUT_FILENO;
         SysExecvp prog argv found] ∧
    fds s1 !! STDOUT_FILENO = Some (PipeWrite id) ∧
    fds s1 !! saved = Some o ∧
    (∀ fd, fds s1 !! fd = Some (PipeRead id) →
           ∃ fd0, fds s !! fd0 = Some (PipeRead id)) ∧
    same_memory s s1 ∧ fs s1 = fs s ∧
    forkAndPipeInto args dest_prog _wait s =
      if found then Halt Replaced s1
      else
        Ok tt
          (log (SysDup2 saved STDOUT_FILENO STDOUT_FILENO)
             (set_fds (<[STDOUT_FILENO := o]> (fds s1))
                (log (Stderr (ProgramNotFound (Some prog))) s1))).
Proof.
  intros Hforks Hin Hroom Hp prog argv found id.
  unfold forkAndPipeInto.
  set (s1 := log (SysFork InChild) (set_forks (InChild :: k) s)).
  assert (sys_fork s = Ok InChild s1) as E1.
  { unfold sys_fork. by rewrite Hforks. }
  rewrite (bind_ok _ _ _ _ _ E1).
  destruct (sys_pipe_ok s1) as (r & w & E2 & Hr & Hw & Hrw & Hr0 & Hw0 & Hwn & Hrn).
  { done. }
  rewrite (bind_ok _ _ _ _ _ E2).
  change (fds s1) with (fds s) in *.
  assert (List.length (trace s1) = id) as Hid.
  { subst s1 id. cbn. rewrite length_app. cbn. lia. }
  rewrite Hid in *.
  set (t2 := <[w := PipeWrite id]> (<[r := PipeRead id]> (fds s))) in *.
  set (s2 := log (SysPipe (Some (r, w))) (set_fds t2 s1)) in *.
  set (s3 := log (SysFork InChild) (set_forks k s2)).
  assert (sys_fork s2 = Ok InChild s3) as E3 by done.
  rewrite (bind_ok _ _ _ _ _ E3).
  set (s5 := log (SysClose r) (set_fds (delete r t2) s3)).
  assert (sys_close r s3 = Ok tt s5) as E4.
  { unfold sys_close. by rewrite bool_decide_eq_true_2. }
  rewrite (bind_ok _ _ _ _ _ E4).
  assert (r ≠ STDOUT_FILENO) as Hr_in by congruence.
  assert (w ≠ STDOUT_FILENO) as Hw_in by congruence.
  set (t4 := delete r t2) in *.
  assert (t4 !! STDOUT_FILENO = Some o) as Ht4in.
  { subst t4 t2. by rewrite lookup_delete_ne, !lookup_insert_ne. }
  assert (t4 !! w = Some (PipeWrite id)) as Ht4w.
  { subst t4 t2. rewrite lookup_delete_ne by done.
    by rewrite lookup_insert_eq. }
  assert (is_Some (lowest_free t4 (fd_limit s))) as [saved Hsaved].
  { destruct Hrn as (n & -> & Hn). eapply lowest_free_is_Some; [exact Hn|].
    subst t4. by rewrite lookup_delete_eq. }
  destruct (lowest_free_spec _ _ _ Hsaved) as [Hs1 Hs0].
  assert (saved ≠ w) as Hsw by congruence.
  assert (saved ≠ STDOUT_FILENO) as Hs_in by congruence.
  set (t6 := <[saved := o]> t4).
  set (s6 := log (SysDup STDOUT_FILENO saved) (set_fds t6 s5)).
  set (t7 := <[STDOUT_FILENO := PipeWrite id]> t6).
  set (s7 := log (SysDup2 w STDOUT_FILENO STDOUT_FILENO) (set_fds t7 s6)).
  assert (redirect w STDOUT_FILENO false s5 = Ok (saved, false) s7) as E7.
  { assert (fds s5 = t4) as Hf5 by done.
    assert (fd_limit s5 = fd_limit s) as Hl5 by done.
    unfold redirect, mbind, M_bind, sys_dup, sys_dup2, fd_lookup.
    rewrite Hf5, Hl5, Ht4in, Hsaved.
    rewrite (bool_decide_eq_true_2 (0 ≤ STDOUT_FILENO)%Z) by done.
    cbn [fds log set_fds]. rewrite (bool_decide_eq_true_2 _ Hw0).
    fold t6. replace (t6 !! w) with (Some (PipeWrite id)).
    2:{ subst t6. by rewrite lookup_insert_ne. }
    by rewrite (bool_decide_eq_false_2 (STDOUT_FILENO = (-1)%Z)). }
  rewrite (bind_ok _ _ _ _ _ E7). cbn [negb].
  set (s8 := log (SysExecvp prog argv found) s7).
  exists r, w, saved, s8.
  assert (same_memory s s7) as Hmem by done.
  split_and!.
  - subst s8 s7 s6 s5 s3 s2 s1. cbn. by rewrite <- !app_assoc.
  - subst s8 s7 t7. cbn. by rewrite lookup_insert_eq.
  - subst s8 s7 t7 t6. cbn.
    by rewrite lookup_insert_ne, lookup_insert_eq.
  - intros fd. subst s8 s7 t7 t6 t4 t2. cbn.
    destruct (decide (fd = STDOUT_FILENO)) as [->|H1].
    { by rewrite lookup_insert_eq. }
    rewrite lookup_insert_ne by done.
    destruct (decide (fd = saved)) as [->|H2].
    { rewrite lookup_insert_eq. intros [= ->]. by exists STDOUT_FILENO. }
    rewrite lookup_insert_ne by done.
    destruct (decide (fd = r)) as [->|H3].
    { by rewrite lookup_delete_eq. }
    rewrite lookup_delete_ne by done.
    destruct (decide (fd = w)) as [->|H4].
    { by rewrite lookup_insert_eq. }
    rewrite !lookup_insert_ne by done. intros H. by exists fd.
  - done.
  - done.
  - unfold execvp, sys_exec, mbind, M_bind. rewrite Hp.
    rewrite (load_str_same s s7), (argv_strings_same s s7) by done.
    change (programs s7) with (programs s). fold prog argv found.
    destruct found; [done|].
    cbn. unfold name_of, gets, fprintf_stderr, modify, sys_dup2, fd_lookup.
    cbn. rewrite (bool_decide_eq_true_2 ((-1)%Z = (-1)%Z)) by done.
    rewrite (load_str_same s) by done. fold prog.
    rewrite (bool_decide_eq_true_2 _ Hs0). cbn [fds log set_fds].
    replace (fds s7 !! saved) with (Some o).
    2:{ subst s7 t7 t6. cbn.
        by rewrite lookup_insert_ne, lookup_insert_eq. }
    by rewrite (bool_decide_eq_true_2 (0 ≤ STDOUT_FILENO)%Z).
Qed.


End pipe_ends.

(** ** Command lines *)

Section commands.

Implicit Types (s : shell) (line : string).

Lemma spec_split_nonempty line t : t ∈ spec_split line → t ≠ EmptyString.
Proof. unfold spec_split. by intros [? _]%list_elem_of_filter. Qed.

(** A turn on a command line: the line is split, kept as the history,
    and its tokens are given to [interpretArgs]. *)
Lemma turn_command line s t ts :
  fits line = true →
  List.length (args s) = MAX_ARG →
  spec_split line = t :: ts →
  List.length (t :: ts) ≤ MAX_ARG - 1 →
  t ≠ "exit" → t ≠ "exit()" → t ≠ "!!" →
  ∃ s3,
    turn line s =
      turn_of (interpretArgs (args s3) (List.length (t :: ts)) s3) ∧
    (∀ k t', (t :: ts) !! k = Some t' →
       ∃ p, args s3 !! k = Some (Some p) ∧ load_str s3 p = t') ∧
    List.length (args s3) = MAX_ARG ∧
    trace s3 = trace s ∧ same_kernel s s3 ∧
    load_str s3 (LastLineBuf, 0) = line ∧
    load_str s3 (LineBuf, 0) = line.
Proof.
  intros Hfits Hlen Hsplit Hcount Hx1 Hx2 Hx3.
  rewrite turn_fits by done. apply fits_parts in Hfits as [Hnul _].
  unfold serve_line.
  destruct (chomp_line line s Hnul)
    as (s1 & E1 & Hline & Hk1 & Htr1 & Ha1 & Hl1).
  rewrite (bind_ok _ _ _ _ _ E1).
  destruct (splitArgs_first_tokens (LineBuf, 0) s1) as (Hc & Htok & Htr2).
  { by rewrite Ha1. }
  destruct (splitArgs_frame (LineBuf, 0) s1) as (Hk2 & Hlb & Hllb).
  destruct (splitArgs_args (LineBuf, 0) s1) as (Hlen2 & _).
  { by rewrite Ha1. }
  rewrite Hline, Hsplit in Hc, Htok, Htr2.
  rewrite bool_decide_eq_false_2 in Htr2 by lia. rewrite app_nil_r in Htr2.
  rewrite Nat.min_l in Hc by done.
  destruct (splitArgs (LineBuf, 0) s1) as [count s2] eqn:E2.
  cbn [fst snd] in *. subst count.
  assert (load_str s2 (LineBuf, 0) = line) as Hline2.
  { unfold load_str in *. cbn in *. by rewrite Hlb. }
  set (s3 := strcpy LastLineBuf line s2).
  assert (∀ k t', (t :: ts) !! k = Some t' →
            ∃ p, args s3 !! k = Some (Some p) ∧ load_str s3 p = t') as Hst.
  { intros k t' Hk. destruct (Htok k t') as (p & Hp & Hb & Hl); [|done|].
    { apply lookup_lt_Some in Hk. revert Hk Hcount. unfold MAX_ARG.
      cbn [List.length]. lia. }
    exists p. split; [done|]. destruct p as [b i]. cbn in Hb. subst b.
    done. }
  exists s3. split_and!; try done.
  - destruct (Hst 0 t eq_refl) as (p0 & Hp0 & Hload0).
    run_m. rewrite E2. unfold at_index. cbn in Hp0. rewrite Hp0. cbn.
    assert (load_str s2 p0 = t) as ->.
    { destruct (Htok 0 t) as (p & Hp & _ & Hl); [unfold MAX_ARG; lia|done|].
      congruence. }
    assert (t ≠ EmptyString) as Hne.
    { apply (spec_split_nonempty line). rewrite Hsplit. by left. }
    rewrite (bool_decide_eq_false_2 _ Hne).
    rewrite (bool_decide_eq_false_2 _ Hx1), (bool_decide_eq_false_2 _ Hx2).
    rewrite (bool_decide_eq_false_2 _ Hx3). cbn.
    unfold load_str in Hline2. cbn in Hline2. rewrite Hline2. fold s3.
    by destruct (interpretArgs (args s2) (S (List.length ts)) s3).
  - change (trace s3) with (trace s2). by rewrite Htr2, Htr1.
  - eapply same_kernel_trans; [exact Hk1|].
    eapply same_kernel_trans; [exact Hk2|]. done.
  - unfold load_str, s3. cbn. unfold strcpy_bytes. by apply cstring_bytes.
Qed.

Lemma final_turn_of (r : res unit) : final (turn_of r) = final r.
Proof. by destruct r. Qed.

(** X18. A command line is handed to [interpretArgs] as it was typed.
    For a line that fits the buffer, of at most 39 tokens, the first none
    of [exit], [exit()], [!!]: the turn is the call of [interpretArgs] with
    the number of the tokens, in a state where [args] points at the tokens
    of the line, in their order, and [last_line_buf] holds the line;
    nothing was reported or called before, and the turn returns for the
    next line when [interpretArgs] returns. This is the memory at the call:
    the tokens lie in the frame [splitArgs] has left. *)
Theorem command_line_is_handed_over line s t ts :
  fits line = true →
  List.length (args s) = MAX_ARG →
  spec_split line = t :: ts →
  List.length (t :: ts) ≤ MAX_ARG - 1 →
  t ≠ "exit" → t ≠ "exit()" → t ≠ "!!" →
  ∃ s3,
    turn line s =
      turn_of (interpretArgs (args s3) (List.length (t :: ts)) s3) ∧
    (∀ k t', (t :: ts) !! k = Some t' →
       ∃ p, args s3 !! k = Some (Some p) ∧ load_str s3 p = t') ∧
    trace s3 = trace s ∧ same_kernel s s3 ∧
    load_str s3 (LastLineBuf, 0) = line.
Proof.
  intros Hfits Hlen Hsplit Hcount Hx1 Hx2 Hx3.
  destruct (turn_command line s t ts Hfits Hlen Hsplit Hcount Hx1 Hx2 Hx3)
    as (s3 & E & Hst & _ & Htr & Hker & Hhist & _).
  by exists s3.
Qed.

(** X20. The history is the last command line. After a turn on a line
    that fits the buffer, of at most 39 tokens, the first none of [exit],
    [exit()], [!!], however the command ends, [last_line_buf] holds that
    line, as it was typed. *)
Theorem history_keeps_last_command line s t ts :
  fits line = true →
  List.length (args s) = MAX_ARG →
  spec_split line = t :: ts →
  List.length (t :: ts) ≤ MAX_ARG - 1 →
  t ≠ "exit" → t ≠ "exit()" → t ≠ "!!" →
  load_str (final (turn line s)) (LastLineBuf, 0) = line.
Proof.
  intros Hnul Hlen Hsplit Hcount Hx1 Hx2 Hx3.
  destruct (turn_command line s t ts Hnul Hlen Hsplit Hcount Hx1 Hx2 Hx3)
    as (s3 & -> & _ & _ & _ & _ & Hhist & _).
  rewrite final_turn_of.
  destruct (interpretArgs_events (args s3) (List.length (t :: ts)) s3)
    as (evs & (_ & _ & Hmem & _) & _).
  by rewrite (load_str_same s3).
Qed.

(** X23. [exit] and [exit()]. A line that fits the buffer, of at most
    39 tokens, whose first token is one of them, whatever follows it, ends
    the loop: the turn makes no call and reports nothing, the history is
    not changed, and the lines behind it are not read. *)
Theorem exit_ends_the_loop line lines s t ts :
  fits line = true →
  List.length (args s) = MAX_ARG →
  spec_split line = t :: ts →
  List.length (t :: ts) ≤ MAX_ARG - 1 →
  t = "exit" ∨ t = "exit()" →
  ∃ s',
    turn line s = Ok false s' ∧
    main_loop (line :: lines) s = Ok tt s' ∧
    trace s' = trace s ∧ same_kernel s s' ∧
    last_line_buf s' = last_line_buf s.
Proof.
  intros Hfits Hlen Hsplit Hcount Hexit.
  assert (∃ s', turn line s = Ok false s' ∧ trace s' = trace s ∧
                same_kernel s s' ∧ last_line_buf s' = last_line_buf s)
    as (s' & E & H).
  { rewrite turn_fits by done. apply fits_parts in Hfits as [Hnul _].
    unfold serve_line.
    destruct (chomp_line line s Hnul)
      as (s1 & E1 & Hline & Hk1 & Htr1 & Ha1 & Hl1).
    rewrite (bind_ok _ _ _ _ _ E1).
    destruct (splitArgs_first_tokens (LineBuf, 0) s1) as (Hc & Htok & Htr2).
    { by rewrite Ha1. }
    destruct (splitArgs_frame (LineBuf, 0) s1) as (Hk2 & Hlb & Hllb).
    rewrite Hline, Hsplit in Hc, Htok, Htr2.
    rewrite bool_decide_eq_false_2 in Htr2 by lia.
    rewrite app_nil_r in Htr2.
    destruct (Htok 0 t) as (p0 & Hp0 & _ & Hload0);
      [unfold MAX_ARG; lia|done|].
    destruct (splitArgs (LineBuf, 0) s1) as [count s2] eqn:E2.
    cbn [fst snd] in *.
    run_m. rewrite E2. unfold at_index. rewrite Hp0. cbn. rewrite Hload0.
    exists s2.
    destruct Hexit as [-> | ->]; cbn;
      (split_and!; [done|by rewrite Htr2, Htr1
                   |by eapply same_kernel_trans|congruence]). }
  exists s'. split_and!; try apply H; [done|].
  cbn [main_loop]. by rewrite (bind_ok _ _ _ _ _ E).
Qed.

(** A turn on [!!] with a line in the history: the line in
    [last_line_buf] is split and its tokens are given to
    [interpretArgs]. *)
Lemma turn_bang s :
  List.length (args s) = MAX_ARG →
  let h := load_str s (LastLineBuf, 0) in
  h ≠ EmptyString →
  ∃ s3,
    turn "!!" s =
      turn_of (interpretArgs (args s3)
                 (Nat.min (List.length (spec_split h)) (MAX_ARG - 1)) s3) ∧
    (∀ k t, k < MAX_ARG - 1 → spec_split h !! k = Some t →
       ∃ p, args s3 !! k = Some (Some p) ∧ load_str s3 p = t) ∧
    List.length (args s3) = MAX_ARG ∧
    trace s3 =
      trace s ++
        (if bool_decide (MAX_ARG - 1 < List.length (spec_split h))
         then [Stderr TokenLimitExceeded] else []) ∧
    same_kernel s s3 ∧ last_line_buf s3 = last_line_buf s.
Proof.
  intros Hlen h Hh. rewrite turn_fits by (vm_compute; reflexivity).
  unfold serve_line.
  destruct (chomp_line "!!" s eq_refl)
    as (s1 & E1 & Hline & Hk1 & Htr1 & Ha1 & Hl1).
  rewrite (bind_ok _ _ _ _ _ E1).
  destruct (splitArgs_split (LineBuf, 0) s1) as (Hc & Htok & _ & Htr2).
  { by rewrite Ha1. }
  { rewrite Hline. vm_compute. lia. }
  destruct (splitArgs_frame (LineBuf, 0) s1) as (Hk2 & _ & Hl2).
  destruct (splitArgs_args (LineBuf, 0) s1) as (Hlen2 & _).
  { by rewrite Ha1. }
  rewrite Hline in Hc, Htok.
  assert (spec_split "!!" = ["!!"]) as Hsplit by (vm_compute; reflexivity).
  rewrite Hsplit in Hc, Htok. cbn in Hc.
  destruct (Htok 0 "!!" eq_refl) as (p & Hp & Hload).
  destruct (splitArgs (LineBuf, 0) s1) as [count s2] eqn:E2.
  cbn [fst snd] in *. subst count.
  assert (load_str s2 (LastLineBuf, 0) = h) as Hlast2.
  { unfold h, load_str in *. cbn in *. by rewrite Hl2, Hl1. }
  destruct (splitArgs_first_tokens (LastLineBuf, 0) s2 Hlen2)
    as (Hc3 & Htok3 & Htr3).
  destruct (splitArgs_frame (LastLineBuf, 0) s2) as (Hk3 & _ & Hl3).
  destruct (splitArgs_args (LastLineBuf, 0) s2 Hlen2) as (Hlen3 & _).
  rewrite Hlast2 in Hc3, Htok3, Htr3.
  destruct (splitArgs (LastLineBuf, 0) s2) as [count s3] eqn:E3.
  cbn [fst snd] in *. subst count.
  exists s3. split_and!.
  - remember (turn_of (interpretArgs (args s3)
                 (Nat.min (List.length (spec_split h)) (MAX_ARG - 1)) s3))
      as R eqn:HR.
    run_m. rewrite E2. unfold at_index. rewrite Hp. cbn.
    rewrite Hload. cbn.
    unfold load_str in Hlast2. cbn in Hlast2.
    rewrite (bool_decide_eq_false_2 ("!!" = "")) by done.
    rewrite (bool_decide_eq_false_2 ("!!" = "exit()")) by done.
    rewrite (bool_decide_eq_false_2 ("!!" = "exit")) by done.
    rewrite (bool_decide_eq_true_2 ("!!" = "!!")) by done.
    cbn. rewrite Hlast2.
    rewrite bool_decide_eq_false_2; cycle 1.
    { change (String.length h ≠ 0). revert Hh. generalize h.
      intros [|c w] Hw; [done|]. cbn. lia. }
    cbn. rewrite E3. subst R. unfold turn_of.
    by destruct (interpretArgs (args s3) _ s3).
  - intros k t Hk Ht. destruct (Htok3 k t Hk Ht) as (q & ? & _ & ?).
    by exists q.
  - done.
  - by rewrite Htr3, Htr2, Htr1.
  - eapply same_kernel_trans; [exact Hk1|].
    eapply same_kernel_trans; [exact Hk2|]. exact Hk3.
  - congruence.
Qed.

(** X21. [!!] with a line in the history. The line in [last_line_buf]
    is split again and [interpretArgs] is given its tokens (the first 39
    of them); the history itself is not changed, so that [!!] can be
    repeated. *)
Theorem bang_replays_history s :
  List.length (args s) = MAX_ARG →
  let h := load_str s (LastLineBuf, 0) in
  h ≠ EmptyString →
  last_line_buf (final (turn "!!" s)) = last_line_buf s ∧
  ∃ s3,
    turn "!!" s =
      turn_of (interpretArgs (args s3)
                 (Nat.min (List.length (spec_split h)) (MAX_ARG - 1)) s3) ∧
    (∀ k t, k < MAX_ARG - 1 → spec_split h !! k = Some t →
       ∃ p, args s3 !! k = Some (Some p) ∧ load_str s3 p = t) ∧
    same_kernel s s3.
Proof.
  intros Hlen h Hh.
  destruct (turn_bang s Hlen Hh) as (s3 & E & Htok & _ & _ & Hk & Hl).
  split; [|by exists s3].
  rewrite E, final_turn_of.
  destruct (interpretArgs_events (args s3)
              (Nat.min (List.length (spec_split h)) (MAX_ARG - 1)) s3)
    as (evs & (_ & _ & (_ & Hm & _) & _) & _).
  etransitivity; [exact Hm|exact Hl].
Qed.

(** X26. [main], on any lines: with the standard descriptors open and
    two free entries in the table, the interpreter ends, however it ends,
    with the descriptor table it started with. *)
Theorem main_restores_descriptors lines s :
  std_open s → room_for_two s → never_child s →
  fds (final (main lines s)) = fds s.
Proof.
  intros H1 H2 H3.
  set (s0 := set_args (replicate MAX_ARG None)
               (set_buffer LineBuf (replicate BUFSIZ NUL) s)).
  assert (main lines s = main_loop lines s0) as -> by done.
  by apply (session_restores_descriptors lines s0).
Qed.

End commands.

(** ** Long lines and background commands *)

Section more_commands.

Implicit Types (s : shell) (line : string).

(** A turn on a command line of any length. *)
Lemma turn_command_any line s t ts :
  fits line = true →
  List.length (args s) = MAX_ARG →
  spec_split line = t :: ts →
  t ≠ "exit" → t ≠ "exit()" → t ≠ "!!" →
  ∃ s3,
    turn line s =
      turn_of (interpretArgs (args s3)
                 (Nat.min (List.length (t :: ts)) (MAX_ARG - 1)) s3) ∧
    (∀ k t', k < MAX_ARG - 1 → (t :: ts) !! k = Some t' →
       ∃ p, args s3 !! k = Some (Some p) ∧ load_str s3 p = t') ∧
    List.length (args s3) = MAX_ARG ∧
    trace s3 =
      trace s ++
        (if bool_decide (MAX_ARG - 1 < List.length (t :: ts))
         then [Stderr TokenLimitExceeded] else []) ∧
    same_kernel s s3 ∧
    load_str s3 (LastLineBuf, 0) = line.
Proof.
  intros Hfits Hlen Hsplit Hx1 Hx2 Hx3.
  rewrite turn_fits by done. apply fits_parts in Hfits as [Hnul _].
  unfold serve_line.
  destruct (chomp_line line s Hnul)
    as (s1 & E1 & Hline & Hk1 & Htr1 & Ha1 & Hl1).
  rewrite (bind_ok _ _ _ _ _ E1).
  destruct (splitArgs_first_tokens (LineBuf, 0) s1) as (Hc & Htok & Htr2).
  { by rewrite Ha1. }
  destruct (splitArgs_frame (LineBuf, 0) s1) as (Hk2 & Hlb & Hllb).
  destruct (splitArgs_args (LineBuf, 0) s1) as (Hlen2 & _).
  { by rewrite Ha1. }
  rewrite Hline, Hsplit in Hc, Htok, Htr2.
  destruct (splitArgs (LineBuf, 0) s1) as [count s2] eqn:E2.
  cbn [fst snd] in *.
  assert (load_str s2 (LineBuf, 0) = line) as Hline2.
  { unfold load_str in *. cbn in *. by rewrite Hlb. }
  set (s3 := strcpy LastLineBuf line s2).
  assert (∀ k t', k < MAX_ARG - 1 → (t :: ts) !! k = Some t' →
            ∃ p, args s3 !! k = Some (Some p) ∧ load_str s3 p = t') as Hst.
  { intros k t' Hlt Hk. destruct (Htok k t' Hlt Hk) as (p & Hp & Hb & Hl).
    exists p. split; [done|]. destruct p as [b i]. cbn in Hb. subst b.
    done. }
  exists s3. split_and!; try done.
  - destruct (Hst 0 t) as (p0 & Hp0 & Hload0); [unfold MAX_ARG; lia|done|].
    rewrite <- Hc.
    remember (turn_of (interpretArgs (args s3) count s3)) as R eqn:HR.
    run_m. rewrite E2. unfold at_index. cbn in Hp0. rewrite Hp0. cbn.
    assert (load_str s2 p0 = t) as ->.
    { destruct (Htok 0 t) as (p & Hp & _ & Hl); [unfold MAX_ARG; lia|done|].
      congruence. }
    assert (t ≠ EmptyString) as Hne.
    { apply (spec_split_nonempty line). rewrite Hsplit. by left. }
    rewrite (bool_decide_eq_false_2 _ Hne).
    rewrite (bool_decide_eq_false_2 _ Hx1), (bool_decide_eq_false_2 _ Hx2).
    rewrite (bool_decide_eq_false_2 _ Hx3). cbn.
    unfold load_str in Hline2. cbn in Hline2. rewrite Hline2. fold s3.
    subst R. unfold turn_of. reflexivity.
  - change (trace s3) with (trace s2). by rewrite Htr2, Htr1.
  - eapply same_kernel_trans; [exact Hk1|].
    eapply same_kernel_trans; [exact Hk2|]. done.
  - unfold load_str, s3. cbn. unfold strcpy_bytes. by apply cstring_bytes.
Qed.

(** X27. A line of more than 39 tokens is reported and then
    interpreted all the same, cut short. For a line that fits the buffer,
    whose first token is none of [exit], [exit()], [!!]: the turn reports
    [TokenLimitExceeded] and is then the call of [interpretArgs] with the
    count 39, in a state where [args] points at the first 39 tokens of the
    line and [last_line_buf] holds the whole line. This is the memory at
    the call. *)
Theorem overlong_line_is_interpreted line s t ts :
  fits line = true →
  List.length (args s) = MAX_ARG →
  spec_split line = t :: ts →
  MAX_ARG - 1 < List.length (t :: ts) →
  t ≠ "exit" → t ≠ "exit()" → t ≠ "!!" →
  ∃ s3,
    turn line s = turn_of (interpretArgs (args s3) (MAX_ARG - 1) s3) ∧
    (∀ k t', k < MAX_ARG - 1 → (t :: ts) !! k = Some t' →
       ∃ p, args s3 !! k = Some (Some p) ∧ load_str s3 p = t') ∧
    trace s3 = trace s ++ [Stderr TokenLimitExceeded] ∧
    same_kernel s s3 ∧
    load_str s3 (LastLineBuf, 0) = line.
Proof.
  intros Hfits Hlen Hsplit Hcount Hx1 Hx2 Hx3.
  destruct (turn_command_any line s t ts Hfits Hlen Hsplit Hx1 Hx2 Hx3)
    as (s3 & E & Hst & _ & Htr & Hker & Hhist).
  rewrite bool_decide_eq_true_2 in Htr by done.
  rewrite Nat.min_r in E by lia.
  by exists s3.
Qed.

(** The scan of a command that ends in a token starting with [&], with
    plain tokens before it. *)
Lemma loop_background fuel args arg_count s (q : ptr) :
  0 < arg_count → arg_count ≤ List.length args →
  (∀ k, k < arg_count - 1 →
     ∃ p, at_index args k = Some p ∧ control_char (char_at s p) = false) →
  at_index args (arg_count - 1) = Some q →
  is_char (char_at s q) "&" = true →
  ∀ arg,
    arg ≤ arg_count - 1 → arg_count - arg ≤ fuel →
    interpretArgs_loop fuel args arg_count arg
      (plain_locals args arg_count arg) s =
    Ok (clear_wait (plain_locals args arg_count (arg_count - 1))) s.
Proof.
  intros Hpos Hlen Hplain Hq Hamp.
  induction fuel as [|fuel IH]; intros arg Harg Hfuel; [lia|].
  cbn [interpretArgs_loop].
  rewrite bool_decide_eq_true_2 by lia. cbn [andb error plain_locals negb].
  destruct (decide (arg = arg_count - 1)) as [->|Hne].
  - assert (interpretArgs_body args (arg_count - 1)
              (plain_locals args arg_count (arg_count - 1)) s =
            Ok (arg_count - 1,
                clear_wait (plain_locals args arg_count (arg_count - 1))) s)
      as E.
    { unfold interpretArgs_body. rewrite Hq.
      rewrite (bind_ok _ _ s (char_at s q) s) by done.
      assert (char_at s q = "&"%char) as ->.
      { unfold is_char in Hamp. by apply Ascii.eqb_eq in Hamp. }
      reflexivity. }
    rewrite (bind_ok _ _ _ _ _ E).
    replace (S (arg_count - 1)) with arg_count by lia.
    destruct fuel; cbn [interpretArgs_loop];
      rewrite bool_decide_eq_false_2 by lia; reflexivity.
  - destruct (Hplain arg ltac:(lia)) as (p & Hp & Hc).
    assert (interpretArgs_body args arg (plain_locals args arg_count arg) s =
            Ok (arg, plain_locals args arg_count (S arg)) s) as E.
    { unfold interpretArgs_body. rewrite Hp.
      rewrite (bind_ok _ _ s (char_at s p) s) by done.
      unfold control_char in Hc.
      apply orb_false_iff in Hc as [Hc H4].
      apply orb_false_iff in Hc as [Hc H3].
      rewrite Hc, H3, H4. unfold mret, M_ret. f_equal. f_equal.
      unfold push_exec_arg, plain_locals. cbn. f_equal.
      assert (args !! arg = Some (Some p)) as Ha.
      { unfold at_index in Hp. destruct (args !! arg) as [[q'|]|]; cbn in Hp;
          congruence. }
      rewrite (take_S_r _ _ _ Ha), <- app_assoc. cbn.
      replace (arg_count + 1 - arg) with (S (arg_count + 1 - S arg)) by lia.
      cbn. rewrite insert_app_r_alt by (rewrite length_take; lia).
      rewrite length_take.
      replace (arg - arg `min` List.length args) with 0 by lia.
      done. }
    rewrite (bind_ok _ _ _ _ _ E). apply IH; lia.
Qed.

(** X28. A command that ends in [&]. When the last token starts with
    [&] and the tokens before it are no control tokens, [interpretArgs] is
    [forkInto] on the tokens before the [&] with [_wait] cleared; in the
    interpreter its calls are the one [fork], and [wait] is not
    called. *)
Theorem background_command_is_not_waited_for args arg_count s (q : ptr) :
  0 < arg_count → arg_count ≤ List.length args →
  (∀ k, k < arg_count - 1 →
     ∃ p, at_index args k = Some p ∧ control_char (char_at s p) = false) →
  at_index args (arg_count - 1) = Some q →
  is_char (char_at s q) "&" = true →
  interpretArgs args arg_count s =
    forkInto (take (arg_count - 1) args ++ [None; None]) false s ∧
  (head (forks s) ≠ Some InChild →
   ∃ r, r ≠ InChild ∧
        added s (interpretArgs args arg_count s) = spawn_events r false ∧
        SysWait ∉ added s (interpretArgs args arg_count s)).
Proof.
  intros Hpos Hlen Hplain Hq Hamp.
  assert (interpretArgs args arg_count s =
          forkInto (take (arg_count - 1) args ++ [None; None]) false s) as E.
  { unfold interpretArgs.
    pose proof (loop_background arg_count args arg_count s q Hpos Hlen
                  Hplain Hq Hamp 0 ltac:(lia) ltac:(lia)) as El.
    assert (plain_locals args arg_count 0 = locals_init arg_count) as E0.
    { unfold plain_locals, locals_init. by rewrite take_0, Nat.sub_0_r. }
    rewrite E0 in El. rewrite (bind_ok _ _ _ _ _ El).
    unfold interpretArgs_finish, plain_locals, clear_wait. cbn.
    replace (arg_count + 1 - (arg_count - 1)) with 2 by lia. cbn.
    unfold mbind, M_bind.
    destruct (forkInto _ _ s) as [[] s'|]; done. }
  split; [exact E|]. intros Hnc. rewrite E.
  destruct (forkInto_shell (take (arg_count - 1) args ++ [None; None])
              false s Hnc) as (r & s' & E' & Hr & Ht & _).
  exists r. rewrite E'. unfold added. cbn. rewrite Ht, drop_app_length.
  split_and!; [done..|].
  destruct r; cbn; intros Hin;
    repeat (apply elem_of_cons in Hin as [?|Hin]; [done|]);
    by apply elem_of_nil in Hin.
Qed.

End more_commands.

(** ** Runs of [main] *)

Section runs.

Implicit Types (s : shell).

(** The pipe of [ls | wc], in the process that runs [wc]: it is made by
    the interpreter, makes the writer, waits for it, and only then turns
    into [wc]. *)
Example pipe_reader_trace :
  trace (after ["ls | wc"] (boot "" ∅ [InChild; InParent 9%Z])) =
  [SysFork InChild; SysPipe (Some (3, 4)%Z); SysFork (InParent 9);
   SysClose 4; SysWait; SysDup 0 4; SysDup2 3 0 0;
   SysExeclp "wc" ["wc"] true].
Proof. vm_compute. reflexivity. Qed.

(** The same pipe in the interpreter: one child, one wait. *)
Example pipe_shell_trace :
  trace (after ["ls | wc"] (boot "" ∅ [InParent 8%Z])) =
  [SysFork (InParent 8); SysWait].
Proof. vm_compute. reflexivity. Qed.

(** C2: on [a > f1 > f2], where [f1] holds data, the second redirect is
    refused and nothing is spawned, as the claim has it; but the first
    redirect was applied when it was scanned, and [f1] is empty. *)
Lemma refused_command_empties_file :
  let s := (tokenized "a > f1 > f2" (boot "" one_file [])).2 in
  let r := interpretArgs (args s) 5 s in
  added s r =
    [SysCreat "f1" 384 3; SysDup 1 4; SysDup2 3 1 1; SysClose 3;
     Stderr DuplicateRedirect; SysDup2 4 1 1; SysClose 4] ∧
  f_data <$> fs s !! "f1" = Some "data" ∧
  f_data <$> fs (final r) !! "f1" = Some "".
Proof. vm_compute. split_and!; reflexivity. Qed.

(** So the command is not discarded as a whole. *)
Lemma second_redirect_empties_first :
  let s := (tokenized "a > f1 > f2" (boot "" one_file [])).2 in
  ¬ discarded_whole (args s) 5 s.
Proof.
  cbn zeta. unfold discarded_whole. intros H.
  destruct H as (_ & Hfs & _).
  - left. apply list_elem_of_In. vm_compute. auto 10.
  - apply (f_equal (λ m, f_data <$> m !! "f1")) in Hfs.
    vm_compute in Hfs. discriminate Hfs.
Qed.

(** C3: the line [ls > out] in an interpreter whose descriptor table has
    one free entry (a limit of four descriptors, with 0, 1 and 2 open).
    [creat] takes the entry and [dup(1)] returns -1; [redirect] goes on,
    since it looks at the result of [dup2] only. The command is run, and
    the restoration is [dup2(-1, 1)], which fails: when the turn has
    returned for the next line, standard output refers to the file [out]
    and no longer to the terminal. *)
Lemma full_table_redirection_stays :
  let s := boot_with std_table 4 "" ∅ [InParent 7%Z] in
  let r := turn "ls > out" s in
  (∃ s', r = Ok true s') ∧
  added s r =
    [SysCreat "out" 384 3; SysDup 1 (-1); SysDup2 3 1 1; SysClose 3;
     SysFork (InParent 7); SysWait; SysDup2 (-1) 1 (-1); SysClose (-1)] ∧
  fds s !! STDOUT_FILENO = Some terminal ∧
  fds (final r) !! STDOUT_FILENO = Some (FileWrite "out").
Proof.
  cbn zeta. split; [eexists; vm_compute; reflexivity|].
  vm_compute. split_and!; reflexivity.
Qed.

(** The same line when standard output is closed to begin with: the file
    is opened as descriptor 1, and the turn leaves it open. *)
Example closed_output_redirection_stays :
  let s := boot_with (delete 1%Z std_table) 1024 "" ∅ [InParent 7%Z] in
  fds s !! 1%Z = None ∧
  fds (final (turn "ls > out" s)) !! 1%Z = Some (FileWrite "out").
Proof. vm_compute. split; reflexivity. Qed.

(** C5: [redirectToFile] for the [out] of [ls > out], on standard output.
    In the table with one free entry [creat] returns 3, [dup(1)] returns
    -1 and [dup2(3, 1)] succeeds: [error] is not set, and what is returned
    is -1, no descriptor. With standard output closed to begin with,
    [creat] returns 1, [dup2(1, 1)] changes nothing and [close(1)] closes
    the destination: [error] is not set, the destination is closed, and
    the descriptor returned refers to the file. *)
Lemma redirectToFile_success_without_copy :
  let s := (tokenized "ls > out" (boot_with std_table 4 "" ∅ [])).2 in
  let r := redirectToFile (Some (LineCpy, 5)) STDOUT_FILENO false s in
  let s2 :=
    (tokenized "ls > out" (boot_with (delete 1%Z std_table) 1024 "" ∅ [])).2 in
  let r2 := redirectToFile (Some (LineCpy, 5)) STDOUT_FILENO false s2 in
  ((∃ s', r = Ok ((-1)%Z, false) s') ∧
   added s r =
     [SysCreat "out" 384 3; SysDup 1 (-1); SysDup2 3 1 1; SysClose 3] ∧
   fds (final r) !! STDOUT_FILENO = Some (FileWrite "out")) ∧
  ((∃ s', r2 = Ok (3%Z, false) s') ∧
   added s2 r2 =
     [SysCreat "out" 384 1; SysDup 1 3; SysDup2 1 1 1; SysClose 1] ∧
   fds (final r2) !! STDOUT_FILENO = None ∧
   fds (final r2) !! 3%Z = Some (FileWrite "out")).
Proof.
  cbn zeta. split; (split; [eexists; vm_compute; reflexivity|]);
    vm_compute; split_and!; reflexivity.
Qed.

(** C7: [!!] as the first line, when the bytes [main] finds in
    [last_line_buf] are not zero (here they spell [ls]): nothing is
    reported, the bytes are run as a command. *)
Lemma first_line_replays_stack_bytes :
  trace (after ["!!"] (boot "ls" ∅ [InParent 7%Z])) =
  [SysFork (InParent 7); SysWait].
Proof. vm_compute. reflexivity. Qed.

(** C8: an empty line after the line [ ls], which starts with a space:
    [args[0]] still points at [ls], nothing is reported, and a process is
    spawned for a command without arguments. *)
Lemma empty_line_after_command_spawns :
  let s := after [" ls"] (boot "" ∅ [InParent 7%Z; InParent 8%Z]) in
  added s (turn "" s) = [SysFork (InParent 8); SysWait].
Proof. vm_compute. reflexivity. Qed.

(** After a line that starts with its command the empty line is
    reported. *)
Example empty_line_after_plain_command :
  let s := after ["ls"] (boot "" ∅ [InParent 7%Z; InParent 8%Z]) in
  added s (turn "" s) = [Stderr EmptyCommand].
Proof. vm_compute. reflexivity. Qed.

(** [ls] and then the end of the input: the command is run and waited
    for, and the next turn ends in the fault of line 340. *)
Example end_of_input_after_command :
  ∃ s',
    main ["ls"] (boot "" ∅ [InParent 7%Z]) = Halt Fault s' ∧
    trace s' = [SysFork (InParent 7); SysWait].
Proof. eexists. vm_compute. split; reflexivity. Qed.

(** *** The theorems at work on these runs *)

(** [splitArgs] on the line [ls  -l foo]. *)
Lemma splitArgs_tokens_witness :
  let s := strcpy LineBuf "ls  -l foo" (boot "" ∅ []) in
  List.length (args s) = MAX_ARG ∧
  List.length (spec_split (load_str s (LineBuf, 0))) ≤ MAX_ARG - 1 ∧
  (splitArgs (LineBuf, 0) s).1 = 3.
Proof.
  cbn zeta.
  set (s := strcpy LineBuf "ls  -l foo" (boot "" ∅ [])).
  assert (List.length (args s) = MAX_ARG) as H1 by reflexivity.
  assert (List.length (spec_split (load_str s (LineBuf, 0))) ≤ MAX_ARG - 1)
    as H2 by (vm_compute; lia).
  split; [exact H1|]. split; [exact H2|].
  destruct (splitArgs_tokens (LineBuf, 0) s H1 H2) as (Hc & _).
  rewrite Hc. vm_compute. reflexivity.
Defined.

(** The pipe target of [ls | wc] is started by the eighth call of its
    process, after the [fork] of the writer and the [wait]. *)
Lemma pipe_target_waits_for_writer_witness :
  let s := (tokenized "ls | wc" (boot "" ∅ [InChild; InParent 9%Z])).2 in
  let evs :=
    added s (forkAndPipeInto [Some (LineCpy, 0); None] (Some (LineCpy, 5))
               true s) in
  evs !! 7 = Some (SysExeclp "wc" ["wc"] true) ∧
  ∃ k j pid,
    k < j ∧ j < 7 ∧
    evs !! k = Some (SysFork (InParent pid)) ∧ evs !! j = Some SysWait.
Proof.
  cbn zeta. split; [vm_compute; reflexivity|].
  apply (pipe_target_waits_for_writer _ _ _ _ 7 "wc" ["wc"] true).
  vm_compute. reflexivity.
Defined.

(** [a > f1 > f2]: the second redirect is refused, nothing is spawned,
    and the one file that differs is [f1], on which [creat] was called. *)
Lemma structural_error_effects_witness :
  let s := (tokenized "a > f1 > f2" (boot "" one_file [])).2 in
  let r := interpretArgs (args s) 5 s in
  structural_error (added s r) ∧
  no_spawn (added s r) ∧
  (∀ path, fs (final r) !! path ≠ fs s !! path →
     ∃ mode fd, SysCreat path mode fd ∈ added s r ∧ fd ≠ (-1)%Z).
Proof.
  cbn zeta.
  set (s := (tokenized "a > f1 > f2" (boot "" one_file [])).2).
  assert (structural_error (added s (interpretArgs (args s) 5 s))) as H.
  { left. apply list_elem_of_In. vm_compute. auto 10. }
  split; [exact H|].
  destruct (structural_error_effects (args s) 5 s H) as (_ & Hn & _ & Hf).
  split; [exact Hn|exact Hf].
Defined.

(** [a < f1 < f2]: [DuplicateRedirect], and no process. *)
Lemma duplicate_control_token_witness :
  let s := (tokenized "a < f1 < f2" (boot "" one_file [])).2 in
  let r := interpretArgs (args s) 5 s in
  Stderr DuplicateRedirect ∈ added s r ∧ no_spawn (added s r).
Proof.
  cbn zeta.
  set (s := (tokenized "a < f1 < f2" (boot "" one_file [])).2).
  assert (Stderr DuplicateRedirect ∈ added s (interpretArgs (args s) 5 s))
    as H.
  { apply list_elem_of_In. vm_compute. auto 10. }
  split; [exact H|].
  apply (proj2 (duplicate_control_token (args s) 5 s)). by left.
Defined.


(** [redirectToFile] for the [out] of [ls > out], on standard output. *)
Lemma redirectToFile_contract_witness :
  let s := (tokenized "ls > out" (boot "" ∅ [])).2 in
  ∃ saved s',
    redirectToFile (Some (LineCpy, 5)) STDOUT_FILENO false s =
      Ok (saved, false) s' ∧
    fds s' !! STDOUT_FILENO = Some (FileWrite "out") ∧
    fds s' !! saved = Some terminal.
Proof.
  cbn zeta. set (s := (tokenized "ls > out" (boot "" ∅ [])).2).
  pose proof (redirectToFile_contract (Some (LineCpy, 5)) STDOUT_FILENO
                false s) as H.
  cbn zeta in H. destruct H as (_ & fd & s1 & Hopen & _ & Hok).
  assert (fd ≠ (-1)%Z) as Hfd.
  { destruct Hopen as (E & _). vm_compute in E. injection E as <- _. done. }
  destruct (proj2 (Hok Hfd) terminal) as (saved & s' & E & _ & H1 & H2 & _).
  - vm_compute. reflexivity.
  - done.
  - exists 3, 4. split_and!; [lia|vm_compute; lia..|done|done].
  - exists saved, s'. split_and!; [exact E| |exact H2].
    rewrite H1. vm_compute. reflexivity.
Defined.

(** *** The further properties at work *)

(** A line of 41 tokens: 39 are stored, and the line is reported. *)
Lemma splitArgs_any_line_witness :
  let s :=
    strcpy LineBuf
      "1 2 3 4 5 6 7 8 9 10 11 12 13 14 15 16 17 18 19 20 21 22 23 24 25 26 27 28 29 30 31 32 33 34 35 36 37 38 39 40 41"
      (boot "" ∅ []) in
  List.length (args s) = MAX_ARG ∧
  (splitArgs (LineBuf, 0) s).1 = 39 ∧
  trace (splitArgs (LineBuf, 0) s).2 = [Stderr TokenLimitExceeded].
Proof.
  cbn zeta.
  match goal with |- List.length (args ?x) = _ ∧ _ => set (s := x) end.
  assert (List.length (args s) = MAX_ARG) as H1 by reflexivity.
  split; [exact H1|].
  destruct (splitArgs_any_line (LineBuf, 0) s H1) as (Hc & _ & Htr).
  rewrite Hc, Htr. split; vm_compute; reflexivity.
Defined.

(** [pwd] after [ls -l foo]: one token is stored, and [args[2]] still
    points at [foo]. *)
Lemma splitArgs_stays_in_bounds_witness :
  let s := strcpy LineBuf "pwd" (tokenized "ls -l foo" (boot "" ∅ [])).2 in
  List.length (args s) = MAX_ARG ∧
  (splitArgs (LineBuf, 0) s).1 ≤ MAX_ARG - 1 ∧
  args (splitArgs (LineBuf, 0) s).2 !! 2 = args s !! 2.
Proof.
  cbn zeta.
  set (s := strcpy LineBuf "pwd" (tokenized "ls -l foo" (boot "" ∅ [])).2).
  assert (List.length (args s) = MAX_ARG) as H1 by (vm_compute; reflexivity).
  split; [exact H1|].
  destruct (splitArgs_stays_in_bounds (LineBuf, 0) s H1)
    as (Hle & _ & _ & Hstale & _).
  split; [exact Hle|]. apply Hstale. vm_compute. lia.
Defined.


(** [ls -l] in the child. *)
Lemma forkInto_in_child_witness :
  let s := (tokenized "ls -l" (boot "" ∅ [InChild])).2 in
  forks s = [InChild] ∧ at_index (args s) 0 = Some (LineCpy, 0) ∧
  fds (final (forkInto (args s) true s)) = fds s.
Proof.
  cbn zeta. set (s := (tokenized "ls -l" (boot "" ∅ [InChild])).2).
  assert (forks s = [InChild]) as H1 by (vm_compute; reflexivity).
  assert (at_index (args s) 0 = Some (LineCpy, 0)) as H2
    by (vm_compute; reflexivity).
  split; [exact H1|]. split; [exact H2|].
  exact (proj1 (proj2 (forkInto_in_child (args s) true s [] (LineCpy, 0)
                         H1 H2))).
Defined.

(** Standard output redirected to what descriptor 2 refers to, and put
    back. *)
Lemma redirect_then_restore_witness :
  let s := boot "" ∅ [] in
  fds s !! 1%Z = Some terminal ∧ fds s !! 2%Z = Some terminal ∧
  is_Some (lowest_free (fds s) (fd_limit s)) ∧
  ∃ saved s1 s2,
    redirect 2 1 false s = Ok (saved, false) s1 ∧
    (sys_dup2 saved 1 ≫= λ _, sys_close saved) s1 = Ok tt s2 ∧
    fds s2 = fds s.
Proof.
  cbn zeta. set (s := boot "" ∅ []).
  assert (fds s !! 1%Z = Some terminal) as H1 by reflexivity.
  assert (fds s !! 2%Z = Some terminal) as H2 by reflexivity.
  assert (is_Some (lowest_free (fds s) (fd_limit s))) as H3.
  { exists 3%Z. vm_compute. reflexivity. }
  split; [exact H1|]. split; [exact H2|]. split; [exact H3|].
  destruct (redirect_then_restore 2 1 false s terminal terminal
              H1 ltac:(lia) H2 ltac:(lia) H3)
    as (saved & s1 & s2 & E1 & _ & _ & E2 & Hfds & _).
  by exists saved, s1, s2.
Defined.

(** [ls | wc] in the interpreter. *)
Lemma pipe_in_interpreter_is_plain_fork_witness :
  let s := (tokenized "ls | wc" (boot "" ∅ [InParent 8%Z])).2 in
  head (forks s) ≠ Some InChild ∧
  forkAndPipeInto [Some (LineCpy, 0); None] (Some (LineCpy, 5)) true s =
    forkInto [Some (LineCpy, 0); None] true s.
Proof.
  cbn zeta. set (s := (tokenized "ls | wc" (boot "" ∅ [InParent 8%Z])).2).
  assert (head (forks s) ≠ Some InChild) as H.
  { vm_compute. discriminate. }
  split; [exact H|].
  exact (proj1 (pipe_in_interpreter_is_plain_fork _ _ _ s H)).
Defined.


(** The writer of [ls | wc]: standard output is the write end when [ls]
    is started. *)
Lemma pipe_writer_descriptors_witness :
  let s := (tokenized "ls | wc" (boot "" ∅ [InChild; InChild])).2 in
  forks s = [InChild; InChild] ∧
  fds s !! STDOUT_FILENO = Some terminal ∧ room_for_two s ∧
  at_index [Some (LineCpy, 0); None] 0 = Some (LineCpy, 0) ∧
  ∃ s1,
    fds s1 !! STDOUT_FILENO = Some (PipeWrite (S (List.length (trace s)))) ∧
    forkAndPipeInto [Some (LineCpy, 0); None] (Some (LineCpy, 5)) true s =
      Halt Replaced s1.
Proof.
  cbn zeta.
  set (s := (tokenized "ls | wc" (boot "" ∅ [InChild; InChild])).2).
  assert (forks s = [InChild; InChild]) as H1 by (vm_compute; reflexivity).
  assert (fds s !! STDOUT_FILENO = Some terminal) as H2
    by (vm_compute; reflexivity).
  assert (room_for_two s) as H3.
  { exists 3, 4. split_and!; [lia|vm_compute; lia..|done|done]. }
  assert (at_index [Some (LineCpy, 0); None] 0 = Some (LineCpy, 0)) as H4
    by reflexivity.
  split; [exact H1|]. split; [exact H2|]. split; [exact H3|].
  split; [exact H4|].
  destruct (pipe_writer_descriptors [Some (LineCpy, 0); None]
              (Some (LineCpy, 5)) true s [] terminal (LineCpy, 0)
              H1 H2 H3 H4)
    as (r & w & saved & s1 & _ & Hout & _ & _ & _ & _ & E).
  exists s1. split; [exact Hout|]. rewrite E.
  rewrite bool_decide_eq_true_2; [reflexivity|].
  vm_compute. set_solver.
Defined.

(** The scan of [ls -l > out &]: two arguments are kept, and the vector
    given to [exec] has two strings. *)
Lemma exec_args_null_terminated_witness :
  let s := (tokenized "ls -l > out &" (boot "" ∅ [])).2 in
  match interpretArgs_loop 5 (args s) 5 0 (locals_init 5) s with
  | Ok l' s' =>
      exec_args_ok (args s) 5 l' ∧
      List.length (argv_strings s' (exec_args l')) = exec_arg_count l'
  | Halt _ _ => False
  end.
Proof.
  cbn zeta. set (s := (tokenized "ls -l > out &" (boot "" ∅ [])).2).
  destruct (interpretArgs_loop 5 (args s) 5 0 (locals_init 5) s)
    as [l' s'|h s'] eqn:E.
  - exact (exec_args_null_terminated (args s) 5 s l' s' E).
  - vm_compute in E. discriminate E.
Defined.

(** [ls -l]: the scan is [forkInto] on the two tokens. *)
Lemma plain_command_runs_forkInto_witness :
  let s := (tokenized "ls -l" (boot "" ∅ [InParent 7%Z])).2 in
  2 ≤ List.length (args s) ∧
  interpretArgs (args s) 2 s = forkInto (take 2 (args s) ++ [None]) true s.
Proof.
  cbn zeta. set (s := (tokenized "ls -l" (boot "" ∅ [InParent 7%Z])).2).
  assert (2 ≤ List.length (args s)) as H1 by (vm_compute; lia).
  split; [exact H1|].
  apply (plain_command_runs_forkInto (args s) 2 s H1).
  intros k Hk. destruct k as [|[|k]]; [| |lia].
  - exists (LineCpy, 0). split; vm_compute; reflexivity.
  - exists (LineCpy, 3). split; vm_compute; reflexivity.
Defined.

(** [ls | wc] in the interpreter: one [fork]. *)
Lemma interpreter_forks_at_most_once_witness :
  let s := (tokenized "ls | wc" (boot "" ∅ [InParent 8%Z])).2 in
  head (forks s) ≠ Some InChild ∧
  forks_made (added s (interpretArgs (args s) 3 s)) ≤ 1.
Proof.
  cbn zeta. set (s := (tokenized "ls | wc" (boot "" ∅ [InParent 8%Z])).2).
  assert (head (forks s) ≠ Some InChild) as H.
  { vm_compute. discriminate. }
  split; [exact H|].
  exact (proj2 (interpreter_forks_at_most_once (args s) 3 s H)).
Defined.

(** [ls > out] in the interpreter: [wait] is called after the [fork]
    that made the child 7. *)
Lemma foreground_fork_is_followed_by_wait_witness :
  let s := (tokenized "ls > out" (boot "" ∅ [InParent 7%Z])).2 in
  let evs := added s (interpretArgs (args s) 3 s) in
  head (forks s) ≠ Some InChild ∧
  SysFork (InParent 7) ∈ evs ∧
  ∃ scan back,
    evs = scan ++ [SysFork (InParent 7); SysWait] ++ back ∧
    no_spawn scan ∧ no_spawn back.
Proof.
  cbn zeta. set (s := (tokenized "ls > out" (boot "" ∅ [InParent 7%Z])).2).
  assert (head (forks s) ≠ Some InChild) as H.
  { vm_compute. discriminate. }
  assert (SysFork (InParent 7) ∈ added s (interpretArgs (args s) 3 s)) as Hin.
  { apply list_elem_of_In. vm_compute. auto 10. }
  split; [exact H|]. split; [exact Hin|].
  apply (foreground_fork_is_followed_by_wait (args s) 3 s H); [|exact Hin].
  intros k p Hk Hp. destruct k as [|[|[|k]]]; [| | |lia];
    vm_compute in Hp; injection Hp as <-; vm_compute; reflexivity.
Defined.

(** [wc < nofile]: the file cannot be opened, and nothing is spawned. *)
Lemma file_error_report_runs_nothing_witness :
  let s := (tokenized "wc < nofile" (boot "" ∅ [InParent 7%Z])).2 in
  let evs := added s (interpretArgs (args s) 3 s) in
  file_error evs ∧ no_spawn evs.
Proof.
  cbn zeta. set (s := (tokenized "wc < nofile" (boot "" ∅ [InParent 7%Z])).2).
  assert (file_error (added s (interpretArgs (args s) 3 s))) as H.
  { right. exists "nofile". apply list_elem_of_In. vm_compute. auto 10. }
  split; [exact H|].
  exact (proj1 (file_error_report_runs_nothing (args s) 3 s H)).
Defined.

(** [ls > out] in the child: [ls] is started with [out] for its standard
    output. *)
Lemma redirected_program_runs_on_the_file_witness :
  let s := (tokenized "ls > out" (boot "" ∅ [InChild])).2 in
  let r := interpretArgs (args s) 3 s in
  std_open s ∧ room_for_two s ∧ forks s = [InChild] ∧
  r = Halt Replaced (final r) ∧
  fds (final r) !! STDOUT_FILENO = Some (FileWrite "out").
Proof.
  cbn zeta. set (s := (tokenized "ls > out" (boot "" ∅ [InChild])).2).
  set (r := interpretArgs (args s) 3 s).
  assert (std_open s) as H1 by (split; by eexists).
  assert (room_for_two s) as H2.
  { exists 3, 4. split_and!; [lia|vm_compute; lia..|done|done]. }
  assert (forks s = [InChild]) as H3 by (vm_compute; reflexivity).
  assert (r = Halt Replaced (final r)) as H4 by (vm_compute; reflexivity).
  split_and!; [exact H1|exact H2|exact H3|exact H4|].
  assert (∀ i p, i < 3 → at_index (args s) i = Some p →
                 is_char (char_at s p) "|" = false) as H5.
  { intros k p Hk Hp. destruct k as [|[|[|k]]]; [| | |lia];
      vm_compute in Hp; injection Hp as <-; vm_compute; reflexivity. }
  apply (proj2 (redirected_program_runs_on_the_file (args s) 3 s []
                  H1 H2 H3 H5 (final r) H4 "out" 384%Z 3%Z ltac:(lia))).
  apply list_elem_of_In. vm_compute. auto 10.
Defined.

(** The line [ls -l]: [interpretArgs] is called on its two tokens. *)
Lemma command_line_is_handed_over_witness :
  let s := boot "" ∅ [InChild] in
  fits "ls -l" = true ∧ List.length (args s) = MAX_ARG ∧
  spec_split "ls -l" = ["ls"; "-l"] ∧
  ∃ s3,
    turn "ls -l" s = turn_of (interpretArgs (args s3) 2 s3) ∧
    load_str s3 (LastLineBuf, 0) = "ls -l".
Proof.
  cbn zeta. set (s := boot "" ∅ [InChild]).
  assert (fits "ls -l" = true) as H1 by (vm_compute; reflexivity).
  assert (List.length (args s) = MAX_ARG) as H2 by reflexivity.
  assert (spec_split "ls -l" = ["ls"; "-l"]) as H4
    by (vm_compute; reflexivity).
  split_and!; [exact H1|exact H2|exact H4|].
  destruct (command_line_is_handed_over "ls -l" s "ls" ["-l"]
              H1 H2 H4 ltac:(unfold MAX_ARG; cbn; lia)
              ltac:(discriminate) ltac:(discriminate) ltac:(discriminate))
    as (s3 & E & _ & _ & _ & Hhist).
  exists s3. split; [exact E|exact Hhist].
Defined.

(** After [ls -l > out] the history is that line. *)
Lemma history_keeps_last_command_witness :
  let s := boot "" ∅ [InParent 7%Z] in
  fits "ls -l > out" = true ∧ List.length (args s) = MAX_ARG ∧
  spec_split "ls -l > out" = ["ls"; "-l"; ">"; "out"] ∧
  load_str (final (turn "ls -l > out" s)) (LastLineBuf, 0) = "ls -l > out".
Proof.
  cbn zeta. set (s := boot "" ∅ [InParent 7%Z]).
  assert (fits "ls -l > out" = true) as H1 by (vm_compute; reflexivity).
  assert (List.length (args s) = MAX_ARG) as H2 by reflexivity.
  assert (spec_split "ls -l > out" = ["ls"; "-l"; ">"; "out"]) as H4
    by (vm_compute; reflexivity).
  split_and!; [exact H1|exact H2|exact H4|].
  exact (history_keeps_last_command "ls -l > out" s "ls" ["-l"; ">"; "out"]
           H1 H2 H4 ltac:(unfold MAX_ARG; cbn; lia)
           ltac:(discriminate) ltac:(discriminate) ltac:(discriminate)).
Defined.

(** [exit now], with [ls] behind it: the loop ends and [ls] is not
    read. *)
Lemma exit_ends_the_loop_witness :
  let s := boot "" ∅ [InParent 7%Z] in
  fits "exit now" = true ∧ List.length (args s) = MAX_ARG ∧
  spec_split "exit now" = ["exit"; "now"] ∧
  ∃ s', main_loop ["exit now"; "ls"] s = Ok tt s' ∧ trace s' = trace s.
Proof.
  cbn zeta. set (s := boot "" ∅ [InParent 7%Z]).
  assert (fits "exit now" = true) as H1 by (vm_compute; reflexivity).
  assert (List.length (args s) = MAX_ARG) as H2 by reflexivity.
  assert (spec_split "exit now" = ["exit"; "now"]) as H4
    by (vm_compute; reflexivity).
  split_and!; [exact H1|exact H2|exact H4|].
  destruct (exit_ends_the_loop "exit now" ["ls"] s "exit" ["now"]
              H1 H2 H4 ltac:(unfold MAX_ARG; cbn; lia) ltac:(by left))
    as (s' & _ & E & Htr & _).
  by exists s'.
Defined.

(** [!!] after [ls -l]: the history stays. *)
Lemma bang_replays_history_witness :
  let s := after ["ls -l"] (boot "" ∅ [InParent 7%Z; InParent 8%Z]) in
  List.length (args s) = MAX_ARG ∧
  load_str s (LastLineBuf, 0) ≠ EmptyString ∧
  last_line_buf (final (turn "!!" s)) = last_line_buf s.
Proof.
  cbn zeta.
  set (s := after ["ls -l"] (boot "" ∅ [InParent 7%Z; InParent 8%Z])).
  assert (List.length (args s) = MAX_ARG) as H1 by (vm_compute; reflexivity).
  assert (load_str s (LastLineBuf, 0) ≠ EmptyString) as H2.
  { vm_compute. discriminate. }
  split_and!; [exact H1|exact H2|].
  exact (proj1 (bang_replays_history s H1 H2)).
Defined.

(** The empty line as the first line. *)
Lemma empty_line_reported_witness :
  let s := boot "" ∅ [] in
  List.length (args s) = MAX_ARG ∧ at_index (args s) 0 = None ∧
  ∃ s', turn "" s = Ok true s' ∧
        trace s' = trace s ++ [Stderr EmptyCommand].
Proof.
  cbn zeta. set (s := boot "" ∅ []).
  assert (List.length (args s) = MAX_ARG) as H1 by reflexivity.
  assert (at_index (args s) 0 = None) as H2 by reflexivity.
  split_and!; [exact H1|exact H2|].
  destruct (empty_line_reported s H1 H2) as (s' & E & Htr & _).
  by exists s'.
Defined.

(** [!!] as the first line, when [last_line_buf] holds zeros. *)
Lemma no_history_reported_witness :
  let s := boot "" ∅ [] in
  List.length (args s) = MAX_ARG ∧ load_str s (LastLineBuf, 0) = "" ∧
  ∃ s', turn "!!" s = Ok true s' ∧ trace s' = trace s ++ [Stderr NoHistory].
Proof.
  cbn zeta. set (s := boot "" ∅ []).
  assert (List.length (args s) = MAX_ARG) as H1 by reflexivity.
  assert (load_str s (LastLineBuf, 0) = "") as H2 by (vm_compute; reflexivity).
  split_and!; [exact H1|exact H2|].
  destruct (no_history_reported s H1 H2) as (s' & E & Htr & _).
  by exists s'.
Defined.

(** [main] on two lines with redirections. *)
Lemma main_restores_descriptors_witness :
  let s := boot "ls" ∅ [InParent 7%Z; InParent 8%Z] in
  std_open s ∧ room_for_two s ∧ never_child s ∧
  fds (final (main ["ls > out"; "wc < out"] s)) = fds s.
Proof.
  cbn zeta. set (s := boot "ls" ∅ [InParent 7%Z; InParent 8%Z]).
  assert (std_open s) as H1 by (split; by eexists).
  assert (room_for_two s) as H2.
  { exists 3, 4. split_and!; [lia|unfold s, boot; cbn; lia..|done|done]. }
  assert (never_child s) as H3 by (by repeat constructor).
  split_and!; [exact H1|exact H2|exact H3|].
  exact (main_restores_descriptors ["ls > out"; "wc < out"] s H1 H2 H3).
Defined.

(** A line of 41 tokens: it is reported, and [interpretArgs] is called
    with the count 39. *)
Lemma overlong_line_is_interpreted_witness :
  let line :=
    "1 2 3 4 5 6 7 8 9 10 11 12 13 14 15 16 17 18 19 20 21 22 23 24 25 26 27 28 29 30 31 32 33 34 35 36 37 38 39 40 41" in
  let ts :=
    ["2"; "3"; "4"; "5"; "6"; "7"; "8"; "9"; "10"; "11"; "12"; "13";
     "14"; "15"; "16"; "17"; "18"; "19"; "20"; "21"; "22"; "23"; "24";
     "25"; "26"; "27"; "28"; "29"; "30"; "31"; "32"; "33"; "34"; "35";
     "36"; "37"; "38"; "39"; "40"; "41"] in
  let s := boot "" ∅ [InChild] in
  fits line = true ∧ List.length (args s) = MAX_ARG ∧
  spec_split line = "1" :: ts ∧
  MAX_ARG - 1 < List.length ("1" :: ts) ∧
  ∃ s3,
    turn line s = turn_of (interpretArgs (args s3) (MAX_ARG - 1) s3) ∧
    trace s3 = [Stderr TokenLimitExceeded].
Proof.
  cbn zeta.
  match goal with
  | |- fits ?l = true ∧ _ ∧ spec_split _ = _ :: ?x ∧ _ =>
      set (line := l); set (ts := x)
  end.
  set (s := boot "" ∅ [InChild]).
  assert (fits line = true) as H1 by (vm_compute; reflexivity).
  assert (List.length (args s) = MAX_ARG) as H2 by reflexivity.
  assert (spec_split line = "1" :: ts) as H4 by (vm_compute; reflexivity).
  assert (MAX_ARG - 1 < List.length ("1" :: ts)) as H5 by (vm_compute; lia).
  split_and!; [exact H1|exact H2|exact H4|exact H5|].
  destruct (overlong_line_is_interpreted line s "1" ts
              H1 H2 H4 H5 ltac:(discriminate) ltac:(discriminate)
              ltac:(discriminate)) as (s3 & E & _ & Htr & _).
  exists s3. split; [exact E|exact Htr].
Defined.

(** A line of 8191 letters. *)
Lemma long_line_faults_witness :
  let line := string_of_list_ascii (replicate (BUFSIZ - 1) "a"%char) in
  let s := boot "" ∅ [InParent 7%Z] in
  forallb (λ c, negb (Ascii.eqb c NEWLINE)) (list_ascii_of_string line)
    = true ∧
  BUFSIZ - 1 ≤ String.length line ∧
  ∃ s', turn line s = Halt Fault s' ∧ trace s' = trace s.
Proof.
  cbn zeta.
  set (line := string_of_list_ascii (replicate (BUFSIZ - 1) "a"%char)).
  set (s := boot "" ∅ [InParent 7%Z]).
  assert (forallb (λ c, negb (Ascii.eqb c NEWLINE))
            (list_ascii_of_string line) = true) as H1
    by (vm_compute; reflexivity).
  assert (BUFSIZ - 1 ≤ String.length line) as H2
    by (apply Nat.leb_le; vm_compute; reflexivity).
  split; [exact H1|]. split; [exact H2|].
  destruct (long_line_faults line s H1 H2) as (s' & E & Htr & _).
  exists s'. split; [exact E|exact Htr].
Defined.

(** [ls], then [exit]: [main] returns, and it does so by the turn on
    [exit]. *)
Lemma end_of_input_faults_witness :
  let s := boot "" ∅ [InParent 7%Z] in
  let s' := final (main ["ls"; "exit"] s) in
  main ["ls"; "exit"] s = Ok tt s' ∧
  ∃ before line behind s1,
    ["ls"; "exit"] = before ++ line :: behind ∧ turn line s1 = Ok false s'.
Proof.
  cbn zeta. set (s := boot "" ∅ [InParent 7%Z]).
  assert (main ["ls"; "exit"] s = Ok tt (final (main ["ls"; "exit"] s)))
    as H by (vm_compute; reflexivity).
  split; [exact H|].
  exact (proj2 (end_of_input_faults ["ls"; "exit"] s) _ H).
Defined.

(** [ls &] in the interpreter: [fork], and no [wait]. *)
Lemma background_command_is_not_waited_for_witness :
  let s := (tokenized "ls &" (boot "" ∅ [InParent 7%Z])).2 in
  2 ≤ List.length (args s) ∧ at_index (args s) 1 = Some (LineCpy, 3) ∧
  is_char (char_at s (LineCpy, 3)) "&" = true ∧
  interpretArgs (args s) 2 s =
    forkInto (take 1 (args s) ++ [None; None]) false s.
Proof.
  cbn zeta. set (s := (tokenized "ls &" (boot "" ∅ [InParent 7%Z])).2).
  assert (2 ≤ List.length (args s)) as H1 by (vm_compute; lia).
  assert (at_index (args s) 1 = Some (LineCpy, 3)) as H2
    by (vm_compute; reflexivity).
  assert (is_char (char_at s (LineCpy, 3)) "&" = true) as H3
    by (vm_compute; reflexivity).
  split_and!; [exact H1|exact H2|exact H3|].
  apply (background_command_is_not_waited_for (args s) 2 s (LineCpy, 3)
           ltac:(lia) H1); [|exact H2|exact H3].
  intros k Hk. destruct k as [|k]; [|lia].
  exists (LineCpy, 0). split; vm_compute; reflexivity.
Defined.

End runs.
